(** * translate_pptx: text-map extraction, merging, flattening and projection

    A shallow embedding of the four scripts of the repository

    - [build_text_map.py]         (module [BuildTextMap], the extractor),
    - [export_text_array.py]      (module [ExportTextArray], the flattener),
    - [apply_translated_texts.py] (module [ApplyTranslatedTexts], the merge),
    - [apply_text_map_to_pptx.py] (module [ApplyTextMapToPptx], the projector),

    over a model of the JSON values they exchange and of the part of the
    python-pptx object model they touch, followed by the properties of the
    specification proved (or refuted) on that embedding. *)

From stdpp Require Import gmap strings list fin_maps pretty sorting.
From Stdlib Require Import ZArith Lia.

#[local] Set Warnings "-register-all".
#[local] Open Scope string_scope.
#[local] Open Scope Z_scope.
#[local] Open Scope list_scope.

(** ** JSON values

    What [json.loads] returns: [None], [bool], [int], [str], [list], [dict].
    A Python [dict] with string keys is a finite map; nothing proved below
    depends on the order of keys.  JSON numbers are the integers ([int]); the maps the
    extractor writes contain no floats. *)

Inductive json : Type :=
| JNull
| JBool (b : bool)
| JInt (n : Z)
| JStr (s : string)
| JList (l : list json)
| JObj (m : gmap string json).

(** ** Python exceptions and fallible results *)

Inductive exn : Type :=
| AssertionError (msg : string)
| KeyError (key : string)
| TypeError
| AttributeError
| IndexError
| ValueError (msg : string)
| OSError (path : string).

Inductive result (A : Type) : Type :=
| Ok (a : A)
| Raise (e : exn).
Arguments Ok {A} a.
Arguments Raise {A} e.

#[global] Instance result_ret : MRet result := λ A a, Ok a.
#[global] Instance result_bind : MBind result := λ A B f r,
  match r with
  | Ok a => f a
  | Raise e => Raise e
  end.

Definition is_Ok {A} (r : result A) : Prop := ∃ a, r = Ok a.
Definition is_Raise {A} (r : result A) : Prop := ∃ e, r = Raise e.

(** [assert cond, msg] *)
Definition assert (cond : bool) (msg : string) : result unit :=
  if cond then Ok tt else Raise (AssertionError msg).

(** ** Dynamic typing of JSON values, as the scripts test it *)

(** [isinstance(v, int)]: [bool] is a subclass of [int] in Python, with
    [True == 1] and [False == 0]. *)
Definition as_int (v : json) : option Z :=
  match v with
  | JInt n => Some n
  | JBool b => Some (Z.b2z b)
  | _ => None
  end.

Definition isinstance_str (v : json) : bool :=
  match v with JStr _ => true | _ => false end.

Definition isinstance_list (v : json) : bool :=
  match v with JList _ => true | _ => false end.

Definition isinstance_dict (v : json) : bool :=
  match v with JObj _ => true | _ => false end.

(** A value used as a number without an [isinstance] test ([1 <= idx], [idx - 1]):
    anything but an [int] raises [TypeError]. *)
Definition as_index (v : json) : result Z :=
  match as_int v with
  | Some n => Ok n
  | None => Raise TypeError
  end.

(** [d[key]] on a dict. *)
Definition getitem (d : gmap string json) (key : string) : result json :=
  match d !! key with
  | Some v => Ok v
  | None => Raise (KeyError key)
  end.

(** [d.update(other)]: the keys of [other] win. *)
Definition dict_update (d other : gmap string json) : gmap string json := other ∪ d.

(** [for idx, x in enumerate(l, start): body], the loop body acting on the
    state [S] the loop mutates. *)
Definition for_enumerate {A S} (body : Z → A → S → S) : list A → Z → S → S :=
  fix go l start st :=
    match l with
    | [] => st
    | x :: l' => go l' (start + 1) (body start x st)
    end.

(** The same loop with a body that may raise: the first exception ends it. *)
Definition for_enumerate_r {A S} (body : Z → A → S → result S)
    : list A → Z → S → result S :=
  fix go l start st :=
    match l with
    | [] => Ok st
    | x :: l' =>
        match body start x st with
        | Ok st' => go l' (start + 1) st'
        | Raise e => Raise e
        end
    end.

(** [for x in l: body], with a body that may raise. *)
Definition for_each_r {A S} (body : A → S → result S) : list A → S → result S :=
  fix go l st :=
    match l with
    | [] => Ok st
    | x :: l' =>
        match body x st with
        | Ok st' => go l' st'
        | Raise e => Raise e
        end
    end.

(** [v[key]] with a string key: only a dict can be subscripted by a string. *)
Definition subscript (v : json) (key : string) : result json :=
  match v with
  | JObj m => getitem m key
  | _ => Raise TypeError
  end.

(** [not text] on a string *)
Definition falsy (s : string) : bool := bool_decide (s = "").

(** [len(l)] *)
Definition len {A} (l : list A) : Z := Z.of_nat (length l).

(** [sep.join(l)] *)
Definition join (sep : string) (l : list string) : string := String.concat sep l.

(** [l[i]] for an index already known to be within range; a negative index
    counts from the end in Python, which no caller reaches (each one checks
    [1 <= idx] before reading [l[idx - 1]]). *)
Definition index {A} (l : list A) (i : Z) : option A :=
  if decide (0 ≤ i) then l !! Z.to_nat i else None.

(** ** The python-pptx object model

    Only what the scripts read or write.  A run is its text; a text frame is
    its paragraphs; a table has rows of cells and, separately, its grid
    columns ([len(table.columns)] is what the projector checks a column index
    against, [row.cells] is what the extractor walks). *)

Record Run := { run_text : string }.
Record Paragraph := { runs : list Run }.
Record TextFrame := { paragraphs : list Paragraph }.
Record Cell := { cell_text_frame : TextFrame }.
Record Row := { cells : list Cell }.
Record Table := { rows : list Row; columns : nat }.

(** The members of [pptx.enum.shapes.MSO_SHAPE_TYPE]. *)
Module MSO_SHAPE_TYPE.
Inductive t : Type :=
| AUTO_SHAPE | CALLOUT | CANVAS | CHART | COMMENT | DIAGRAM
| EMBEDDED_OLE_OBJECT | FORM_CONTROL | FREEFORM | GROUP | IGX_GRAPHIC
| INK | INK_COMMENT | LINE | LINKED_OLE_OBJECT | LINKED_PICTURE | MEDIA
| OLE_CONTROL_OBJECT | PICTURE | PLACEHOLDER | SCRIPT_ANCHOR | TABLE
| TEXT_BOX | TEXT_EFFECT | WEB_VIDEO | MIXED.

#[global] Instance eq_dec : EqDecision t.
Proof. solve_decision. Defined.

Definition name (m : t) : string :=
  match m with
  | AUTO_SHAPE => "AUTO_SHAPE" | CALLOUT => "CALLOUT" | CANVAS => "CANVAS"
  | CHART => "CHART" | COMMENT => "COMMENT" | DIAGRAM => "DIAGRAM"
  | EMBEDDED_OLE_OBJECT => "EMBEDDED_OLE_OBJECT"
  | FORM_CONTROL => "FORM_CONTROL" | FREEFORM => "FREEFORM"
  | GROUP => "GROUP" | IGX_GRAPHIC => "IGX_GRAPHIC" | INK => "INK"
  | INK_COMMENT => "INK_COMMENT" | LINE => "LINE"
  | LINKED_OLE_OBJECT => "LINKED_OLE_OBJECT"
  | LINKED_PICTURE => "LINKED_PICTURE" | MEDIA => "MEDIA"
  | OLE_CONTROL_OBJECT => "OLE_CONTROL_OBJECT" | PICTURE => "PICTURE"
  | PLACEHOLDER => "PLACEHOLDER" | SCRIPT_ANCHOR => "SCRIPT_ANCHOR"
  | TABLE => "TABLE" | TEXT_BOX => "TEXT_BOX" | TEXT_EFFECT => "TEXT_EFFECT"
  | WEB_VIDEO => "WEB_VIDEO" | MIXED => "MIXED"
  end.
End MSO_SHAPE_TYPE.

(** A shape.  [has_text_frame], [has_table] and [has_chart] are independent
    attributes in the scripts ([getattr(shape, "has_...", False)]), so each
    container is optional on its own: [has_text_frame] is [text_frame]
    being [Some], and likewise for the other two.  [chart] holds the partname of
    [shape.chart.part]: the part object itself lives in the package and may
    be shared by several shapes.  [shapes] are the children of a group; the
    scripts read them only when [shape_type] is [GROUP].  [shape_type] is
    [None] for a graphic frame python-pptx cannot classify.

    A shape here is one whose [shape_type] python-pptx can tell.  On an
    autoshape element that is neither a placeholder, nor a custom or preset
    geometry, nor a text box, reading [shape.shape_type] raises
    [NotImplementedError], which the scripts do not catch; a presentation
    with such a shape on a slide has no counterpart among the values of
    [Presentation]. *)
Inductive Shape : Type := mkShape {
  shape_id : Z;
  name : string;
  shape_type : option MSO_SHAPE_TYPE.t;
  text_frame : option TextFrame;
  table : option Table;
  chart : option string;
  shapes : list Shape
}.

Definition is_group (s : Shape) : bool :=
  bool_decide (shape_type s = Some MSO_SHAPE_TYPE.GROUP).

(** An [a:t] element of a chart part: its XPath in the part's tree and its
    text ([None] for an element without text, as lxml reports it). *)
Record ChartNode := { node_xpath : string; node_text : option string }.

Record Slide := {
  slide_id : Z;
  slide_layout_name : option string;
  slide_shapes : list Shape
}.

(** A loaded presentation: its slides and the chart parts of its package,
    by partname, each with its [a:t] elements in document order (what
    [chart_part._element.xpath(".//a:t")] returns).  Every relationship of a
    package is resolved when it is loaded; a partname without an entry here
    stands for a part with no text node. *)
Record Presentation := {
  slides : list Slide;
  chart_parts : gmap string (list ChartNode)
}.

Definition part_nodes (p : Presentation) (partname : string) : list ChartNode :=
  default [] (chart_parts p !! partname).

(** ** Text and its assignment

    A Python [str] is taken as the bytes of its UTF-8 encoding: a character
    below U+0080 is the byte of that value, any other character a sequence of
    bytes from 128 up.  (A [str] with a lone surrogate, which [json.loads]
    accepts from an escape, has no such encoding; lxml refuses it as well.)

    Text reaches the XML tree through lxml, which takes a string only if it
    is XML compatible: of the characters below U+0020 it may hold tab, line
    feed and carriage return only, and it may hold neither U+FFFE nor U+FFFF
    nor a surrogate. *)

(** [ord(c)] of a byte *)
Definition ord (c : Ascii.ascii) : Z := Z.of_N (Ascii.N_of_ascii c).

(** libxml2, [xmlIsChar_ch] *)
Definition xml_char (c : Ascii.ascii) : bool :=
  bool_decide (9 ≤ ord c ≤ 10 ∨ ord c = 13 ∨ 32 ≤ ord c).

(** lxml, [_is_valid_xml_utf8].  At a byte from 128 up it looks at the three
    bytes from there: [EF BF BE] and [EF BF BF] encode U+FFFE and U+FFFF,
    [ED A0 80] to [ED BF BF] the surrogates. *)
Fixpoint is_valid_xml_utf8 (s : string) : bool :=
  match s with
  | EmptyString => true
  | String c s' =>
      (if bool_decide (128 ≤ ord c) then
         match s' with
         | String c1 (String c2 _) =>
             let next3 := ord c * 65536 + ord c1 * 256 + ord c2 in
             negb (bool_decide (next3 = 15712190 ∨ next3 = 15712191
                                ∨ 15573120 ≤ next3 ≤ 15581119))
         | _ => true
         end
       else xml_char c)
      && is_valid_xml_utf8 s'
  end.

(** The error lxml raises on a string that is not. *)
Definition xml_incompatible : exn :=
  ValueError "All strings must be XML compatible: Unicode or ASCII, no NULL bytes or control characters".

(** [element.text = value] in lxml ([_setNodeText]), as the text the element
    has afterwards and how the assignment ended.  The text the element had
    is removed first.  [None] leaves it at that; a string is stored if it is
    XML compatible; a string that is not, and a value that is no string,
    raise once the old text is gone. *)
Definition set_element_text (value : json) : option string * result unit :=
  match value with
  | JNull => (None, Ok tt)
  | JStr s =>
      if is_valid_xml_utf8 s then (Some s, Ok tt) else (None, Raise xml_incompatible)
  | _ => (None, Raise TypeError)
  end.

(** python-pptx, [CT_RegularTextRun._escape_ctrl_chars]:
    [re.sub(r"([\x00-\x08\x0B-\x1F])", lambda match: "_x%04X_" % ord(match.group(1)), s)].
    Tab and line feed stay; every other character below U+0020, carriage
    return among them, becomes seven characters of plain text. *)
Definition hex_digit (n : Z) : string :=
  String.substring (Z.to_nat n) 1 "0123456789ABCDEF".

Definition escape_ctrl_char (c : Ascii.ascii) : string :=
  if bool_decide (0 ≤ ord c ≤ 8 ∨ 11 ≤ ord c ≤ 31) then
    "_x00" +:+ hex_digit (ord c / 16) +:+ hex_digit (ord c mod 16) +:+ "_"
  else String c "".

Fixpoint escape_ctrl_chars (s : string) : string :=
  match s with
  | EmptyString => ""
  | String c s' => escape_ctrl_char c +:+ escape_ctrl_chars s'
  end.

(** [run.text = text] in python-pptx ([_Run.text] over
    [CT_RegularTextRun.text]): the string is escaped and the result assigned
    to the [a:t] element of the run.  [re.sub] raises [TypeError] on anything
    but a string, before the run is touched.  [run.text] reads an element
    without text as the empty string. *)
Definition Run_set_text (run : Run) (text : json) : Run * result unit :=
  match text with
  | JStr s =>
      let '(t, outcome) := set_element_text (JStr (escape_ctrl_chars s)) in
      ({| run_text := default "" t |}, outcome)
  | _ => (run, Raise TypeError)
  end.

(** ** Files *)

(** What a path of the file system holds: a presentation, a JSON document,
    or nothing that can be read or written as a file, a directory. *)
Inductive file : Type :=
| PptxFile (p : Presentation)
| JsonFile (j : json)
| Directory.

(** [Presentation(path)] *)
Definition load_presentation (fs : gmap string file) (path : string) : result Presentation :=
  match fs !! path with
  | Some (PptxFile p) => Ok p
  | Some (JsonFile _) => Raise (ValueError "not a PowerPoint file")
  | Some Directory => Raise (OSError path)
  | None => Raise (OSError path)
  end.

(** [json.loads(path.read_text())] *)
Definition read_json (fs : gmap string file) (path : string) : result json :=
  match fs !! path with
  | Some (JsonFile j) => Ok j
  | Some (PptxFile _) => Raise (ValueError "not a JSON document")
  | Some Directory => Raise (OSError path)
  | None => Raise (OSError path)
  end.

(** A path that cannot be opened for writing because it is a directory: one
    the file system holds as such, and the current directory, which pathlib
    writes [.] and which the empty path stands for ([Path("")] is
    [Path(".")]). *)
Definition is_dir (fs : gmap string file) (path : string) : bool :=
  bool_decide (path = "" ∨ path = ".")
  || match fs !! path with Some Directory => true | _ => false end.

(** [path.write_text(...)] and [presentation.save(path)]: the file is
    created or replaced, unless the path is a directory
    ([IsADirectoryError], an [OSError]).  What else can stop a write (a
    missing parent directory, a permission) is not modelled. *)
Definition write_file (fs : gmap string file) (path : string) (content : file)
    : gmap string file * result unit :=
  if is_dir fs path then (fs, Raise (OSError path))
  else (<[path := content]> fs, Ok tt).

(** ** build_text_map.py *)

Module BuildTextMap.

(** What an extraction run accumulates: the [entries] list every function
    appends to, and, as a record of the reads made on the package, the
    partname of each [chart_part._element.xpath(".//a:t")] query in the
    order they are issued. *)
Record Extraction := { entries : list json; xpath_calls : list string }.

Definition on_entries (f : list json → list json) (st : Extraction) : Extraction :=
  {| entries := f (entries st); xpath_calls := xpath_calls st |}.

(** [slide_meta], a dict with exactly these three keys. *)
Record SlideMeta := { slide_index : Z; meta_slide_id : Z; slide_layout : json }.

Definition shape_type_name (shape : Shape) : string :=
  match shape_type shape with
  | Some m => MSO_SHAPE_TYPE.name m
  | None => "UNKNOWN_None"
  end.

Definition record_runs (text_frame : TextFrame) (base_entry : gmap string json)
    (path_segments : list string) (container : string)
    (extra_fields : option (gmap string json)) (entries : list json) : list json :=
  let extra_fields := default ∅ extra_fields in
  let tf_segments := path_segments ++ [container] in
  for_enumerate (λ para_idx para entries,
    let para_segments := tf_segments ++ ["paragraph[" +:+ pretty para_idx +:+ "]"] in
    for_enumerate (λ run_idx run entries,
      let text := run_text run in
      if falsy text then entries
      else
        let run_segments := para_segments ++ ["run[" +:+ pretty run_idx +:+ "]"] in
        let entry := base_entry in
        let entry := dict_update entry extra_fields in
        let entry := dict_update entry (list_to_map [
          ("container", JStr container);
          ("paragraph_index", JInt para_idx);
          ("run_index", JInt run_idx);
          ("path", JStr (join "." run_segments));
          ("text", JStr text)]) in
        entries ++ [JObj entry])
      (runs para) 1 entries)
    (paragraphs text_frame) 1 entries.

Definition record_chart_text (pkg : Presentation) (shape : Shape)
    (base_entry : gmap string json) (st : Extraction) : Extraction :=
  match chart shape with
  | None => st
  | Some partname =>
      let nodes := part_nodes pkg partname in
      let st := {| entries := entries st; xpath_calls := xpath_calls st ++ [partname] |} in
      for_enumerate (λ chart_idx node,
        on_entries (λ entries,
          match node_text node with
          | None => entries
          | Some text =>
              if falsy text then entries
              else
                let entry := base_entry in
                let entry := dict_update entry (list_to_map [
                  ("container", JStr "chart_part");
                  ("chart_partname", JStr partname);
                  ("chart_text_index", JInt chart_idx);
                  ("chart_xpath", JStr (node_xpath node));
                  ("text", JStr text)]) in
                entries ++ [JObj entry]
          end))
        nodes 1 st
  end.

(** The body of the loop of [walk_shapes], for the shape at position
    [shape_idx]; [walk_shapes] below is the loop. *)
Fixpoint walk_shape (pkg : Presentation) (slide_meta : SlideMeta)
    (path_segments : list string) (index_chain : list Z)
    (shape_idx : Z) (shape : Shape) (st : Extraction) {struct shape} : Extraction :=
  let shape_segments := path_segments ++ ["shape[" +:+ pretty shape_idx +:+ "]"] in
  let chain := index_chain ++ [shape_idx] in
  let base_entry : gmap string json := list_to_map [
    ("slide_index", JInt (slide_index slide_meta));
    ("slide_id", JInt (meta_slide_id slide_meta));
    ("slide_layout", slide_layout slide_meta);
    ("shape_id", JInt (shape_id shape));
    ("shape_name", JStr (name shape));
    ("shape_type", JStr (shape_type_name shape));
    ("shape_index_chain", JList (JInt <$> chain));
    ("shape_path", JStr (join "." shape_segments))] in
  let st :=
    match text_frame shape with
    | Some tf =>
        on_entries (record_runs tf base_entry shape_segments "text_frame" None) st
    | None => st
    end in
  let st :=
    match table shape with
    | Some tbl =>
        let table_segments := shape_segments ++ ["table"] in
        for_enumerate (λ row_idx row,
          for_enumerate (λ col_idx cell,
            let cell_segments := table_segments ++
              ["cell[" +:+ pretty row_idx +:+ "," +:+ pretty col_idx +:+ "]"] in
            let extra : gmap string json := list_to_map [
              ("table_row", JInt row_idx);
              ("table_col", JInt col_idx)] in
            on_entries (record_runs (cell_text_frame cell) base_entry
                          cell_segments "table_cell" (Some extra)))
            (cells row) 1)
          (rows tbl) 1 st
    | None => st
    end in
  let st := record_chart_text pkg shape base_entry st in
  if is_group shape then
    for_enumerate
      (λ idx child st, walk_shape pkg slide_meta shape_segments chain idx child st)
      (shapes shape) 1 st
  else st.

Definition walk_shapes (pkg : Presentation) (shape_iter : list Shape)
    (path_segments : list string) (index_chain : list Z)
    (slide_meta : SlideMeta) (st : Extraction) : Extraction :=
  for_enumerate (walk_shape pkg slide_meta path_segments index_chain) shape_iter 1 st.

(** The loop of [build_text_map] over the slides of a loaded presentation. *)
Definition collect (presentation : Presentation) : Extraction :=
  for_enumerate (λ slide_idx slide st,
    let slide_meta := {|
      slide_index := slide_idx;
      meta_slide_id := slide_id slide;
      slide_layout := from_option JStr JNull (slide_layout_name slide) |} in
    walk_shapes presentation (slide_shapes slide)
      ["slide[" +:+ pretty slide_idx +:+ "]"] [] slide_meta st)
    (slides presentation) 1 {| entries := []; xpath_calls := [] |}.

Definition text_map_of (pptx_path : string) (presentation : Presentation) : json :=
  let entries := entries (collect presentation) in
  JObj (list_to_map [
    ("source", JStr pptx_path);
    ("slide_count", JInt (len (slides presentation)));
    ("entry_count", JInt (len entries));
    ("entries", JList entries)]).

Definition build_text_map (fs : gmap string file) (pptx_path : string) : result json :=
  presentation ← load_presentation fs pptx_path;
  Ok (text_map_of pptx_path presentation).

End BuildTextMap.

(** ** export_text_array.py *)

Module ExportTextArray.

(** [for ... in v]: a list yields its items; Python also iterates a string
    by characters and a dict by keys (here in the map's canonical order,
    the insertion order of a dict not being part of the model). *)
Definition iterate (v : json) : result (list json) :=
  match v with
  | JList l => Ok l
  | JStr s => Ok ((λ c, JStr (String c EmptyString)) <$> String.list_ascii_of_string s)
  | JObj m => Ok (JStr <$> (map_to_list m).*1)
  | _ => Raise TypeError
  end.

(** ["text" in entry] *)
Definition contains_text (entry : json) : result bool :=
  match entry with
  | JObj m => Ok (bool_decide (is_Some (m !! "text")))
  | JStr s => Ok (bool_decide (is_Some (String.index 0 "text" s)))
  | JList l =>
      Ok (existsb (λ v, match v with JStr s => bool_decide (s = "text") | _ => false end) l)
  | _ => Raise TypeError
  end.

(** The body of the loop of [load_texts]. *)
Definition load_text (idx : Z) (entry : json) (texts : list json) : result (list json) :=
  has ← contains_text entry;
  _ ← assert has ("Entry " +:+ pretty idx +:+ " missing text field");
  text ← subscript entry "text";
  Ok (texts ++ [text]).

Definition load_texts (fs : gmap string file) (source : string) : result (list json) :=
  data ← read_json fs source;
  entries ← subscript data "entries";
  items ← iterate entries;
  for_enumerate_r load_text items 1 [].

End ExportTextArray.

(** ** apply_translated_texts.py *)

Module ApplyTranslatedTexts.

(** The body of the [zip] loop of [merge_translations]. *)
Definition merge_entry (entry text : json) (merged_entries : list json)
    : result (list json) :=
  match entry with
  | JObj entry =>
      match text with
      | JStr _ =>
          let new_entry := entry in
          let new_entry := <["text" := text]> new_entry in
          Ok (merged_entries ++ [JObj new_entry])
      | _ => Raise (AssertionError "translated value must be a string")
      end
  | _ => Raise (AssertionError "entry must be a dict")
  end.

Definition merge_translations (base_map : json) (translated_values : list json)
    : result json :=
  match base_map with
  | JObj base =>
      let entries := default JNull (base !! "entries") in
      match entries with
      | JList entries =>
          _ ← assert (bool_decide (len entries = len translated_values))
                ("translated array must match entries length; "
                 +:+ pretty (len entries) +:+ " entries != "
                 +:+ pretty (len translated_values) +:+ " translated items");
          merged_entries ← for_each_r (λ '(entry, text), merge_entry entry text)
                             (zip entries translated_values) [];
          let merged := base in
          let merged := <["entries" := JList merged_entries]> merged in
          let merged := <["entry_count" := JInt (len merged_entries)]> merged in
          Ok (JObj merged)
      | _ => Raise (AssertionError "entries must be a list")
      end
  | _ => Raise AttributeError
  end.

End ApplyTranslatedTexts.

(** ** apply_text_map_to_pptx.py *)

Module ApplyTextMapToPptx.

Definition load_json (fs : gmap string file) (path : string)
    : result (gmap string json) :=
  data ← read_json fs path;
  match data with
  | JObj data =>
      _ ← assert (isinstance_list (default JNull (data !! "entries")))
            "Map JSON missing entries array";
      Ok data
  | _ => Raise (AssertionError "Map JSON must be an object")
  end.

(** [f"{idx}"] for a value that passed as a number. *)
Definition format_index (v : json) : string :=
  match v with
  | JInt n => pretty n
  | JBool true => "True"
  | JBool false => "False"
  | _ => ""
  end.

(** The loop of [resolve_shape] carries [shapes], the sequence the next
    index is looked up in, and [target], the shape found last;
    [resolve_step] is its body. *)
Definition resolve_step (chain : list json) (depth : Z) (idx : json)
    (st : list Shape * option Shape) : result (list Shape * option Shape) :=
  let cur_shapes := st.1 in
  i ← as_index idx;
  _ ← assert (bool_decide (1 ≤ i ≤ len cur_shapes))
        ("Shape index " +:+ format_index idx
         +:+ " out of range at depth " +:+ pretty depth);
  match index cur_shapes (i - 1) with
  | Some target =>
      if bool_decide (depth < len chain) then
        _ ← assert (is_group target) "Intermediate shape must be a group";
        Ok (shapes target, Some target)
      else Ok (cur_shapes, Some target)
  | None => Raise IndexError
  end.

Definition resolve_shape (slide : Slide) (chain : list json) : result Shape :=
  _ ← assert (bool_decide (chain ≠ [])) "shape_index_chain must not be empty";
  st ← for_enumerate_r (resolve_step chain) chain 1 (slide_shapes slide, None);
  match st.2 with
  | Some target => Ok target
  | None => Raise (AssertionError "Failed to resolve shape")
  end.

(** The functions below mutate the object they are handed.  An object of
    the shape tree is modelled by its value, so each of them returns the
    object as it is after the call together with how the call ended, and
    [apply_entry] puts the shape back where [resolve_shape] found it (see
    [store_shape]), whether the call returned or raised. *)

Definition set_run_text (text_frame : TextFrame) (paragraph_index run_index text : json)
    : TextFrame * result unit :=
  let paras := paragraphs text_frame in
  match
    pi ← as_index paragraph_index;
    _ ← assert (bool_decide (1 ≤ pi ≤ len paras)) "paragraph_index out of range";
    match index paras (pi - 1) with
    | Some paragraph =>
        let rs := runs paragraph in
        ri ← as_index run_index;
        _ ← assert (bool_decide (1 ≤ ri ≤ len rs)) "run_index out of range";
        match index rs (ri - 1) with
        | Some run => Ok (pi, paragraph, ri, run)
        | None => Raise IndexError
        end
    | None => Raise IndexError
    end
  with
  | Ok (pi, paragraph, ri, run) =>
      let '(run', outcome) := Run_set_text run text in
      let rs := <[Z.to_nat (ri - 1) := run']> (runs paragraph) in
      ({| paragraphs := <[Z.to_nat (pi - 1) := {| runs := rs |}]> paras |}, outcome)
  | Raise e => (text_frame, Raise e)
  end.

Definition with_text_frame (shape : Shape) (tf : TextFrame) : Shape :=
  mkShape (shape_id shape) (name shape) (shape_type shape) (Some tf)
          (table shape) (chart shape) (shapes shape).

Definition with_table (shape : Shape) (tbl : Table) : Shape :=
  mkShape (shape_id shape) (name shape) (shape_type shape) (text_frame shape)
          (Some tbl) (chart shape) (shapes shape).

Definition with_shapes (shape : Shape) (children : list Shape) : Shape :=
  mkShape (shape_id shape) (name shape) (shape_type shape) (text_frame shape)
          (table shape) (chart shape) children.

Definition apply_text_frame_entry (shape : Shape) (entry : gmap string json)
    : Shape * result unit :=
  match text_frame shape with
  | Some tf =>
      match
        paragraph_index ← getitem entry "paragraph_index";
        run_index ← getitem entry "run_index";
        text ← getitem entry "text";
        Ok (paragraph_index, run_index, text)
      with
      | Ok (paragraph_index, run_index, text) =>
          let '(tf', outcome) := set_run_text tf paragraph_index run_index text in
          (with_text_frame shape tf', outcome)
      | Raise e => (shape, Raise e)
      end
  | None => (shape, Raise (AssertionError "Shape lacks text_frame"))
  end.

Definition apply_table_cell_entry (shape : Shape) (entry : gmap string json)
    : Shape * result unit :=
  match table shape with
  | Some tbl =>
      let row_idx := default JNull (entry !! "table_row") in
      let col_idx := default JNull (entry !! "table_col") in
      match as_int row_idx, as_int col_idx with
      | Some r, Some c =>
          match
            _ ← assert (bool_decide (1 ≤ r ≤ len (rows tbl))) "table_row out of range";
            _ ← assert (bool_decide (1 ≤ c ≤ Z.of_nat (columns tbl)))
                  "table_col out of range";
            match index (rows tbl) (r - 1) with
            | Some row =>
                match index (cells row) (c - 1) with
                | Some cell =>
                    paragraph_index ← getitem entry "paragraph_index";
                    run_index ← getitem entry "run_index";
                    text ← getitem entry "text";
                    Ok (row, cell, paragraph_index, run_index, text)
                | None => Raise IndexError
                end
            | None => Raise IndexError
            end
          with
          | Ok (row, cell, paragraph_index, run_index, text) =>
              let '(tf', outcome) :=
                set_run_text (cell_text_frame cell) paragraph_index run_index text in
              let row' := {| cells :=
                <[Z.to_nat (c - 1) := {| cell_text_frame := tf' |}]> (cells row) |} in
              (with_table shape
                 {| rows := <[Z.to_nat (r - 1) := row']> (rows tbl);
                    columns := columns tbl |},
               outcome)
          | Raise e => (shape, Raise e)
          end
      | _, _ => (shape, Raise (AssertionError "Missing table indices"))
      end
  | None => (shape, Raise (AssertionError "Shape lacks table"))
  end.

(** A reference to an [a:t] element: the part it belongs to and its
    position among the part's [a:t] elements. *)
Definition NodeRef : Type := string * nat.

(** What a projection run holds in memory: the loaded presentation, which
    it mutates; [chart_cache]; and, as in the extractor, the partname of
    each [xpath] query issued.  An exception leaves the memory as it is at
    that moment. *)
Record Mem := {
  doc : Presentation;
  chart_cache : gmap string (list NodeRef);
  xpath_calls : list string
}.

Definition M (A : Type) : Type := Mem → Mem * result A.

#[global] Instance M_ret : MRet M := λ A a mem, (mem, Ok a).
#[global] Instance M_bind : MBind M := λ A B f m mem,
  match m mem with
  | (mem', Ok a) => f a mem'
  | (mem', Raise e) => (mem', Raise e)
  end.

Definition lift {A} (r : result A) : M A := λ mem, (mem, r).
Definition get_doc : M Presentation := λ mem, (mem, Ok (doc mem)).
Definition set_doc (d : Presentation) : M unit := λ mem,
  ({| doc := d; chart_cache := chart_cache mem; xpath_calls := xpath_calls mem |}, Ok tt).

(** [chart_part._element.xpath(".//a:t")]: references to the part's
    [a:t] elements, in document order. *)
Definition xpath_query (key : string) : M (list NodeRef) := λ mem,
  ({| doc := doc mem; chart_cache := chart_cache mem;
      xpath_calls := xpath_calls mem ++ [key] |},
   Ok ((λ i, (key, i)) <$> seq 0 (length (part_nodes (doc mem) key)))).

Definition get_chart_nodes (chart_part : string) : M (list NodeRef) := λ mem,
  let key := chart_part in
  match chart_cache mem !! key with
  | Some nodes => (mem, Ok nodes)
  | None =>
      match xpath_query key mem with
      | (mem, Ok nodes) =>
          ({| doc := doc mem; chart_cache := <[key := nodes]> (chart_cache mem);
              xpath_calls := xpath_calls mem |}, Ok nodes)
      | (mem, Raise e) => (mem, Raise e)
      end
  end.

(** [node.text = text] through a reference. *)
Definition set_node_text (node : NodeRef) (text : json) : M unit := λ mem,
  let '(partname, i) := node in
  let nodes := part_nodes (doc mem) partname in
  match nodes !! i with
  | Some n =>
      let '(t, outcome) := set_element_text text in
      let n' := {| node_xpath := node_xpath n; node_text := t |} in
      ((set_doc {| slides := slides (doc mem);
                   chart_parts := <[partname := <[i := n']> nodes]> (chart_parts (doc mem)) |}
                mem).1,
       outcome)
  | None => (mem, Raise IndexError)
  end.

Definition apply_chart_entry (shape : Shape) (entry : gmap string json) : M unit :=
  match chart shape with
  | Some chart_part =>
      partname ← lift (getitem entry "chart_partname");
      _ ← lift (assert (match partname with
                        | JStr s => bool_decide (chart_part = s)
                        | _ => false
                        end) "Chart part mismatch");
      nodes ← get_chart_nodes chart_part;
      chart_idx ← lift (getitem entry "chart_text_index");
      match as_int chart_idx with
      | Some k =>
          _ ← lift (assert (bool_decide (1 ≤ k)) "Invalid chart_text_index");
          _ ← lift (assert (bool_decide (k ≤ len nodes)) "chart_text_index out of range");
          text ← lift (getitem entry "text");
          match index nodes (k - 1) with
          | Some node => set_node_text node text
          | None => lift (Raise IndexError)
          end
      | None => lift (Raise (AssertionError "Invalid chart_text_index"))
      end
  | None => lift (Raise (AssertionError "Shape lacks chart"))
  end.

(** The positions a chain of 1-based indices denotes. *)
Definition positions (chain : list json) : list nat :=
  (λ v, Z.to_nat (default 0 (as_int v) - 1)) <$> chain.

(** Writing a mutated shape back at the place a chain resolved to. *)
Fixpoint store_shape (cur_shapes : list Shape) (pos : list nat) (new : Shape)
    : list Shape :=
  match pos with
  | [] => cur_shapes
  | [i] => <[i := new]> cur_shapes
  | i :: rest =>
      match cur_shapes !! i with
      | Some group =>
          <[i := with_shapes group (store_shape (shapes group) rest new)]> cur_shapes
      | None => cur_shapes
      end
  end.

Definition store (presentation : Presentation) (slide_pos : nat) (pos : list nat)
    (new : Shape) : Presentation :=
  match slides presentation !! slide_pos with
  | Some slide =>
      {| slides := <[slide_pos := {|
           slide_id := slide_id slide;
           slide_layout_name := slide_layout_name slide;
           slide_shapes := store_shape (slide_shapes slide) pos new |}]>
           (slides presentation);
         chart_parts := chart_parts presentation |}
  | None => presentation
  end.

Definition apply_entry (entry : gmap string json) : M unit :=
  presentation ← get_doc;
  slide_index ← lift (getitem entry "slide_index");
  match as_int slide_index with
  | Some si =>
      _ ← lift (assert (bool_decide (1 ≤ si ≤ len (slides presentation)))
                  "slide_index out of range");
      match index (slides presentation) (si - 1) with
      | Some slide =>
          shape_chain ← lift (getitem entry "shape_index_chain");
          match shape_chain with
          | JList shape_chain =>
              shape ← lift (resolve_shape slide shape_chain);
              container ← lift (getitem entry "container");
              match container with
              | JStr container =>
                  if bool_decide (container = "text_frame") then
                    let '(shape', outcome) := apply_text_frame_entry shape entry in
                    _ ← set_doc (store presentation (Z.to_nat (si - 1))
                                   (positions shape_chain) shape');
                    lift outcome
                  else if bool_decide (container = "table_cell") then
                    let '(shape', outcome) := apply_table_cell_entry shape entry in
                    _ ← set_doc (store presentation (Z.to_nat (si - 1))
                                   (positions shape_chain) shape');
                    lift outcome
                  else if bool_decide (container = "chart_part") then
                    apply_chart_entry shape entry
                  else
                    lift (Raise (ValueError ("Unsupported container type: " +:+ container)))
              | _ => lift (Raise (AssertionError "container must be string"))
              end
          | _ => lift (Raise (AssertionError "shape_index_chain missing"))
          end
      | None => lift (Raise IndexError)
      end
  | None => lift (Raise (AssertionError "slide_index out of range"))
  end.

(** [for entry in entries: ...], the loop of [apply_text_map]. *)
Fixpoint apply_entries (entries : list json) : M unit :=
  match entries with
  | [] => mret tt
  | entry :: rest =>
      match entry with
      | JObj entry => _ ← apply_entry entry; apply_entries rest
      | _ => lift (Raise (AssertionError "Entry must be object"))
      end
  end.

(** [apply_text_map] between loading its two inputs and saving: the
    [entry_count] check and the loop, run on the loaded presentation.
    [load_json] has checked that [entries] is a list. *)
Definition apply_loaded (text_map : gmap string json) : M unit :=
  entries ← lift (getitem text_map "entries");
  let expected_entry_count := default JNull (text_map !! "entry_count") in
  _ ← lift (match expected_entry_count with
            | JNull => Ok tt
            | _ =>
                match as_int expected_entry_count with
                | Some n =>
                    match entries with
                    | JList l =>
                        assert (bool_decide (n = len l))
                          "entry_count does not match actual number of entries"
                    | _ => Raise TypeError
                    end
                | None =>
                    Raise (AssertionError "entry_count must be an integer when present")
                end
            end);
  match entries with
  | JList entries => apply_entries entries
  | _ => lift (Raise TypeError)
  end.

(** The whole of [apply_text_map]: the file system before, the file
    system after and how the call ended.  [presentation.save(output_path)]
    is the only write. *)
Definition apply_text_map (fs : gmap string file)
    (pptx_path translated_map_path output_path : string)
    : gmap string file * result unit :=
  match load_presentation fs pptx_path with
  | Ok presentation =>
      match load_json fs translated_map_path with
      | Ok text_map =>
          match apply_loaded text_map
                  {| doc := presentation; chart_cache := ∅; xpath_calls := [] |} with
          | (mem, Ok _) => write_file fs output_path (PptxFile (doc mem))
          | (_, Raise e) => (fs, Raise e)
          end
      | Raise e => (fs, Raise e)
      end
  | Raise e => (fs, Raise e)
  end.

End ApplyTextMapToPptx.

(** ** The command lines: [main] of each script

    What [parse_args] returns is passed as arguments: a required option is a
    string, an option with no value given is [None].  A path is the string
    [str(path)] gives; the empty string, which pathlib takes for the current
    directory, is refused by every write, as is any other directory.  The
    two default output paths are computed by pathlib,
    [pptx_path.with_suffix(".text-map.json")] and
    [source.with_name(f"{source.stem}.text-values.json")]; they are taken as
    the functions [text_map_path] and [text_values_path]. *)

Module Cli.

(** [path.exists()] *)
Definition path_exists (fs : gmap string file) (path : string) : bool :=
  bool_decide (is_Some (fs !! path)).

(** [main] of build_text_map.py *)
Definition build_text_map_main (text_map_path : string → string)
    (args_pptx : string) (args_output : option string) (fs : gmap string file)
    : gmap string file * result unit :=
  let pptx_path := args_pptx in
  if path_exists fs pptx_path then
    let output_path :=
      match args_output with
      | Some output => if falsy output then text_map_path pptx_path else output
      | None => text_map_path pptx_path
      end in
    match BuildTextMap.build_text_map fs pptx_path with
    | Ok text_map => write_file fs output_path (JsonFile text_map)
    | Raise e => (fs, Raise e)
    end
  else (fs, Raise (AssertionError ("PPTX path does not exist: " +:+ pptx_path))).

(** [main] of export_text_array.py.  [--source] is not a required option:
    without it [source] is [None] and [source.exists()] raises.  The line
    printed is what a successful run returns. *)
Definition export_text_array_main (text_values_path : string → string)
    (args_source args_output : option string) (fs : gmap string file)
    : gmap string file * result string :=
  match args_source with
  | Some source =>
      if path_exists fs source then
        match ExportTextArray.load_texts fs source with
        | Ok texts =>
            let destination :=
              match args_output with
              | Some output => output
              | None => text_values_path source
              end in
            match write_file fs destination (JsonFile (JList texts)) with
            | (fs', Ok _) =>
                (fs', Ok ("Wrote " +:+ pretty (len texts) +:+ " texts to " +:+ destination))
            | (fs', Raise e) => (fs', Raise e)
            end
        | Raise e => (fs, Raise e)
        end
      else (fs, Raise (AssertionError ("Source file not found: " +:+ source)))
  | None => (fs, Raise AttributeError)
  end.

(** [main] of apply_translated_texts.py; its [load_json] is [read_json]
    and its [write_json] is [write_file] with a JSON document. *)
Definition apply_translated_texts_main
    (args_base_map args_translated_values args_output : string) (fs : gmap string file)
    : gmap string file * result unit :=
  match read_json fs args_base_map with
  | Ok base_map =>
      match read_json fs args_translated_values with
      | Ok (JList translated_values) =>
          match ApplyTranslatedTexts.merge_translations base_map translated_values with
          | Ok merged => write_file fs args_output (JsonFile merged)
          | Raise e => (fs, Raise e)
          end
      | Ok _ =>
          (fs, Raise (AssertionError "translated values file must contain a JSON array"))
      | Raise e => (fs, Raise e)
      end
  | Raise e => (fs, Raise e)
  end.

(** [main] of apply_text_map_to_pptx.py *)
Definition apply_text_map_to_pptx_main
    (args_pptx args_translated_map args_output : string) (fs : gmap string file)
    : gmap string file * result unit :=
  if path_exists fs args_pptx then
    if path_exists fs args_translated_map then
      ApplyTextMapToPptx.apply_text_map fs args_pptx args_translated_map args_output
    else (fs, Raise (AssertionError ("Translated map not found: " +:+ args_translated_map)))
  else (fs, Raise (AssertionError ("PPTX not found: " +:+ args_pptx))).

End Cli.

(** * Notions used in the statements *)

(** What the loop of [merge_translations] does to one entry. *)
Definition with_text (entry text : json) : json :=
  match entry with
  | JObj m => JObj (<["text" := text]> m)
  | _ => entry
  end.

(** The [text] field of an entry, if the entry is an object that has one. *)
Definition text_field (entry : json) : option json :=
  match entry with
  | JObj m => m !! "text"
  | _ => None
  end.

(** Address resolution, as the specification words it: each element of the
    chain is a 1-based index into the current shape sequence; after every
    element but the last the shape found must be a group, whose children
    become the current sequence; the last element gives the target. *)
Inductive resolves : list Shape → list json → Shape → Prop :=
| resolves_last cur idx i target :
    as_int idx = Some i → 1 ≤ i ≤ len cur → index cur (i - 1) = Some target →
    resolves cur [idx] target
| resolves_step cur idx i group rest target :
    as_int idx = Some i → 1 ≤ i ≤ len cur → index cur (i - 1) = Some group →
    is_group group → rest ≠ [] → resolves (shapes group) rest target →
    resolves cur (idx :: rest) target.

(** Following a prefix of a chain through groups only. *)
Inductive descends : list Shape → list json → list Shape → Prop :=
| descends_nil cur : descends cur [] cur
| descends_cons cur idx i group rest cur' :
    as_int idx = Some i → 1 ≤ i ≤ len cur → index cur (i - 1) = Some group →
    is_group group → descends (shapes group) rest cur' →
    descends cur (idx :: rest) cur'.

(** The invariant of the OOXML table grid: every row has one cell per grid
    column.  A presentation is well formed when all its tables are. *)
Definition rectangular (tbl : Table) : bool :=
  forallb (λ row, bool_decide (length (cells row) = columns tbl)) (rows tbl).

Fixpoint wf_shape (s : Shape) : bool :=
  from_option rectangular true (table s) && forallb wf_shape (shapes s).

Definition wf_presentation (p : Presentation) : bool :=
  forallb (λ slide, forallb wf_shape (slide_shapes slide)) (slides p).

(** The run an entry addresses inside a text frame, and that its [text] is
    the text of that run. *)
Definition leaf_at (tf : TextFrame) (e : gmap string json) : Prop :=
  ∃ i j p r,
    e !! "paragraph_index" = Some (JInt (Z.of_nat i + 1))
    ∧ e !! "run_index" = Some (JInt (Z.of_nat j + 1))
    ∧ paragraphs tf !! i = Some p ∧ runs p !! j = Some r
    ∧ e !! "text" = Some (JStr (run_text r)) ∧ run_text r ≠ "".

(** An entry denotes a leaf of a presentation: its address resolves, step by
    step, to a run or to a chart text node, and its [text] is the non-empty
    text found there. *)
Definition denotes (d : Presentation) (e : gmap string json) : Prop :=
  ∃ si slide chain shape,
    e !! "slide_index" = Some (JInt (Z.of_nat si + 1))
    ∧ slides d !! si = Some slide
    ∧ e !! "shape_index_chain" = Some (JList chain)
    ∧ resolves (slide_shapes slide) chain shape
    ∧ ((e !! "container" = Some (JStr "text_frame")
        ∧ ∃ tf, text_frame shape = Some tf ∧ leaf_at tf e)
       ∨ (e !! "container" = Some (JStr "table_cell")
          ∧ ∃ tbl r c row cell,
              table shape = Some tbl
              ∧ e !! "table_row" = Some (JInt (Z.of_nat r + 1))
              ∧ e !! "table_col" = Some (JInt (Z.of_nat c + 1))
              ∧ rows tbl !! r = Some row ∧ cells row !! c = Some cell
              ∧ (c < columns tbl)%nat
              ∧ leaf_at (cell_text_frame cell) e)
       ∨ (e !! "container" = Some (JStr "chart_part")
          ∧ ∃ p k node t,
              chart shape = Some p
              ∧ e !! "chart_partname" = Some (JStr p)
              ∧ e !! "chart_text_index" = Some (JInt (Z.of_nat k + 1))
              ∧ part_nodes d p !! k = Some node
              ∧ node_text node = Some t
              ∧ e !! "text" = Some (JStr t) ∧ t ≠ "")).

Definition entry_denotes (d : Presentation) (e : json) : Prop :=
  ∃ m, e = JObj m ∧ denotes d m.

(** The references a query of a part returns, and the coherence of the
    projector's cache: what it holds for a part is what a query of that part
    returns. *)
Definition fresh_refs (d : Presentation) (key : string) : list ApplyTextMapToPptx.NodeRef :=
  (λ i, (key, i)) <$> seq 0 (length (part_nodes d key)).

Definition cache_ok (mem : ApplyTextMapToPptx.Mem) : Prop :=
  ∀ key refs,
    ApplyTextMapToPptx.chart_cache mem !! key = Some refs →
    refs = fresh_refs (ApplyTextMapToPptx.doc mem) key.

(** The projector's record of queries against its cache: no part was
    queried twice, and every part queried is in the cache. *)
Definition log_ok (mem : ApplyTextMapToPptx.Mem) : Prop :=
  NoDup (ApplyTextMapToPptx.xpath_calls mem)
  ∧ ∀ key, key ∈ ApplyTextMapToPptx.xpath_calls mem →
           is_Some (ApplyTextMapToPptx.chart_cache mem !! key).

(** A computation keeps an invariant of the memory, however it ends. *)
Definition preserves {A} (I : ApplyTextMapToPptx.Mem → Prop)
    (c : ApplyTextMapToPptx.M A) : Prop :=
  ∀ mem, I mem → I (c mem).1.

(** The memory a projection starts from. *)
Definition initial (d : Presentation) : ApplyTextMapToPptx.Mem :=
  {| ApplyTextMapToPptx.doc := d;
     ApplyTextMapToPptx.chart_cache := ∅;
     ApplyTextMapToPptx.xpath_calls := [] |}.

(** A text that goes into a run or a chart text node as it is: it is XML
    compatible and holds nothing python-pptx escapes.  [plain_text] says it
    of the [text] of an entry, when that is a string. *)
Definition plain (t : string) : bool :=
  is_valid_xml_utf8 t && bool_decide (escape_ctrl_chars t = t).


(** An entry with a [text] field that is a non-empty string. *)
Definition has_nonempty_text (e : json) : Prop :=
  ∃ m t, e = JObj m ∧ m !! "text" = Some (JStr t) ∧ t ≠ "".

(** The partnames of the chart-bearing shapes a walk visits, in the order
    of the walk (a group is entered after its own chart). *)
Fixpoint chart_refs (s : Shape) : list string :=
  option_list (chart s)
  ++ (if is_group s then mjoin (chart_refs <$> shapes s) else []).

Definition chart_refs_of (p : Presentation) : list string :=
  mjoin ((λ slide, mjoin (chart_refs <$> slide_shapes slide)) <$> slides p).

(** The runs of a text frame with their positions (paragraph, run, both
    counted from 0) and texts, in document order; and those among them whose
    text is not empty. *)
Definition indexed_runs (tf : TextFrame) : list (nat * nat * string) :=
  mjoin (imap (λ i p, imap (λ j r, (i, j, run_text r)) (runs p)) (paragraphs tf)).

Definition nonempty_runs (tf : TextFrame) : list (nat * nat * string) :=
  filter (λ x, x.2 ≠ "") (indexed_runs tf).

(** The entry [record_runs] appends for a run, given the 1-based indices it
    has reached; and the same for the run at a position counted from 0. *)
Definition run_entry_at (base_entry extra_fields : gmap string json)
    (tf_segments : list string) (container : string)
    (para_idx run_idx : Z) (text : string) : json :=
  JObj (dict_update (dict_update base_entry extra_fields) (list_to_map [
    ("container", JStr container);
    ("paragraph_index", JInt para_idx);
    ("run_index", JInt run_idx);
    ("path", JStr (join "." ((tf_segments ++ ["paragraph[" +:+ pretty para_idx +:+ "]"])
                               ++ ["run[" +:+ pretty run_idx +:+ "]"])));
    ("text", JStr text)])).

Definition run_entry (base_entry extra_fields : gmap string json)
    (tf_segments : list string) (container : string) (pos : nat * nat * string) : json :=
  run_entry_at base_entry extra_fields tf_segments container
    (Z.of_nat pos.1.1 + 1) (Z.of_nat pos.1.2 + 1) pos.2.

(** ** Notions used in the further properties *)

(** The run at a position of a text frame (both indices counted from 0). *)
Definition run_at (tf : TextFrame) (i j : nat) : option Run :=
  paragraphs tf !! i ≫= λ p, runs p !! j.

(** A presentation with every text taken out: the text of every run is
    emptied and the text of every chart node dropped, and nothing else is
    changed.  Two presentations have the same structure when they are equal
    once their texts are taken out. *)
Definition blank_text_frame (tf : TextFrame) : TextFrame :=
  {| paragraphs :=
       (λ p, {| runs := (λ _, {| run_text := "" |}) <$> runs p |}) <$> paragraphs tf |}.

Definition blank_table (tbl : Table) : Table :=
  {| rows :=
       (λ row, {| cells :=
                    (λ c, {| cell_text_frame := blank_text_frame (cell_text_frame c) |})
                    <$> cells row |}) <$> rows tbl;
     columns := columns tbl |}.

Fixpoint blank_shape (s : Shape) : Shape :=
  mkShape (shape_id s) (name s) (shape_type s)
          (blank_text_frame <$> text_frame s) (blank_table <$> table s) (chart s)
          (blank_shape <$> shapes s).

Definition blank_slide (slide : Slide) : Slide :=
  {| slide_id := slide_id slide;
     slide_layout_name := slide_layout_name slide;
     slide_shapes := blank_shape <$> slide_shapes slide |}.

Definition blank_node (n : ChartNode) : ChartNode :=
  {| node_xpath := node_xpath n; node_text := None |}.

Definition blank_presentation (p : Presentation) : Presentation :=
  {| slides := blank_slide <$> slides p;
     chart_parts := (λ nodes : list ChartNode, blank_node <$> nodes) <$> chart_parts p |}.

Definition same_structure (p q : Presentation) : Prop :=
  blank_presentation p = blank_presentation q.

(** An entry addresses a leaf of a presentation: as [denotes], without
    anything said of the texts. *)
Definition slot_at (tf : TextFrame) (e : gmap string json) : Prop :=
  ∃ i j,
    e !! "paragraph_index" = Some (JInt (Z.of_nat i + 1))
    ∧ e !! "run_index" = Some (JInt (Z.of_nat j + 1))
    ∧ is_Some (run_at tf i j).

Definition addresses (d : Presentation) (e : gmap string json) : Prop :=
  ∃ si slide chain shape,
    e !! "slide_index" = Some (JInt (Z.of_nat si + 1))
    ∧ slides d !! si = Some slide
    ∧ e !! "shape_index_chain" = Some (JList chain)
    ∧ resolves (slide_shapes slide) chain shape
    ∧ ((e !! "container" = Some (JStr "text_frame")
        ∧ ∃ tf, text_frame shape = Some tf ∧ slot_at tf e)
       ∨ (e !! "container" = Some (JStr "table_cell")
          ∧ ∃ tbl r c row cell,
              table shape = Some tbl
              ∧ e !! "table_row" = Some (JInt (Z.of_nat r + 1))
              ∧ e !! "table_col" = Some (JInt (Z.of_nat c + 1))
              ∧ rows tbl !! r = Some row ∧ cells row !! c = Some cell
              ∧ (c < columns tbl)%nat
              ∧ slot_at (cell_text_frame cell) e)
       ∨ (e !! "container" = Some (JStr "chart_part")
          ∧ ∃ p k,
              chart shape = Some p
              ∧ e !! "chart_partname" = Some (JStr p)
              ∧ e !! "chart_text_index" = Some (JInt (Z.of_nat k + 1))
              ∧ is_Some (part_nodes d p !! k))).

(** An entry whose [text] is a plain string; and one that, besides,
    addresses a leaf to put it in. *)
Definition has_plain_text (e : json) : Prop :=
  ∃ m t, e = JObj m ∧ m !! "text" = Some (JStr t) ∧ plain t = true.

Definition entry_addresses (d : Presentation) (e : json) : Prop :=
  ∃ m t, e = JObj m ∧ addresses d m ∧ m !! "text" = Some (JStr t) ∧ plain t = true.

(** A computation of the projector that leaves the presentation in memory
    as it is. *)
Definition reads {A} (c : ApplyTextMapToPptx.M A) : Prop :=
  ∀ mem, ApplyTextMapToPptx.doc (c mem).1 = ApplyTextMapToPptx.doc mem.

(** The non-empty texts of a presentation, in the order of the walk: for
    each slide, for each shape, the runs of its text frame, then the runs of
    its table cells row by row, then the text nodes of its chart part, then,
    for a group, the same for each of its children. *)
Definition text_frame_texts (tf : TextFrame) : list string :=
  (λ pos, pos.2) <$> nonempty_runs tf.

Definition table_texts (tbl : Table) : list string :=
  mjoin ((λ row, mjoin ((λ c, text_frame_texts (cell_text_frame c)) <$> cells row))
         <$> rows tbl).

Definition chart_texts (nodes : list ChartNode) : list string :=
  filter (λ t, t ≠ "") (omap node_text nodes).

Fixpoint shape_texts (d : Presentation) (s : Shape) : list string :=
  from_option text_frame_texts [] (text_frame s)
  ++ from_option table_texts [] (table s)
  ++ from_option (λ p, chart_texts (part_nodes d p)) [] (chart s)
  ++ (if is_group s then mjoin (shape_texts d <$> shapes s) else []).

Definition presentation_texts (d : Presentation) : list string :=
  mjoin ((λ slide, mjoin (shape_texts d <$> slide_shapes slide)) <$> slides d).

(** The [text] of an entry when it is a string. *)
Definition entry_text (e : json) : option string :=
  match text_field e with
  | Some (JStr t) => Some t
  | _ => None
  end.

(** The keys of an entry that make its address, with [text]. *)
Definition address_keys : list string :=
  ["slide_index"; "shape_index_chain"; "container"; "paragraph_index"; "run_index";
   "table_row"; "table_col"; "chart_partname"; "chart_text_index"; "text"].

(** A place that holds a text: a run of the text frame of a shape, a run of
    a table cell of a shape, or a text node of a chart part.  A shape is
    given by the position of its slide and its positions from the top of the
    slide down, all counted from 0.  A chart text node belongs to its part,
    whichever shapes show the chart. *)
Inductive Leaf : Type :=
| RunLeaf (slide : nat) (pos : list nat) (paragraph run : nat)
| CellLeaf (slide : nat) (pos : list nat) (row col paragraph run : nat)
| NodeLeaf (partname : string) (node : nat).

#[global] Instance Leaf_eq_dec : EqDecision Leaf.
Proof. solve_decision. Defined.

(** The shape at a position of a shape tree. *)
Fixpoint shape_at (top : list Shape) (pos : list nat) : option Shape :=
  match pos with
  | [] => None
  | k :: rest =>
      match rest with
      | [] => top !! k
      | _ => top !! k ≫= λ g, shape_at (shapes g) rest
      end
  end.

(** The text a leaf holds: [None] when there is no such leaf, and for a
    chart text node without text. *)
Definition text_at (d : Presentation) (l : Leaf) : option string :=
  match l with
  | RunLeaf si pos i j =>
      slide ← slides d !! si;
      s ← shape_at (slide_shapes slide) pos;
      tf ← text_frame s;
      run_text <$> run_at tf i j
  | CellLeaf si pos r c i j =>
      slide ← slides d !! si;
      s ← shape_at (slide_shapes slide) pos;
      tbl ← table s;
      row ← rows tbl !! r;
      cell ← cells row !! c;
      run_text <$> run_at (cell_text_frame cell) i j
  | NodeLeaf p k => part_nodes d p !! k ≫= node_text
  end.

(** The leaf an entry addresses, read off its fields: every index is
    1-based in the entry. *)
Definition position_of (e : gmap string json) (key : string) : option nat :=
  n ← e !! key ≫= as_int; Some (Z.to_nat (n - 1)).

Definition leaf_of (e : gmap string json) : option Leaf :=
  match e !! "container", e !! "shape_index_chain" with
  | Some (JStr c), Some (JList chain) =>
      let pos := ApplyTextMapToPptx.positions chain in
      if decide (c = "text_frame") then
        si ← position_of e "slide_index";
        i ← position_of e "paragraph_index";
        j ← position_of e "run_index";
        Some (RunLeaf si pos i j)
      else if decide (c = "table_cell") then
        si ← position_of e "slide_index";
        r ← position_of e "table_row";
        c ← position_of e "table_col";
        i ← position_of e "paragraph_index";
        j ← position_of e "run_index";
        Some (CellLeaf si pos r c i j)
      else if decide (c = "chart_part") then
        match e !! "chart_partname" with
        | Some (JStr p) => k ← position_of e "chart_text_index"; Some (NodeLeaf p k)
        | _ => None
        end
      else None
  | _, _ => None
  end.

Definition entry_leaf (e : json) : option Leaf :=
  match e with
  | JObj m => leaf_of m
  | _ => None
  end.


(** What a leaf holds once the [text] of an entry has been assigned to it
    without error: a run the string with its control characters escaped, a
    chart text node the string as it is, or no text for [null].  And what
    the last of the entries addressing a leaf leaves there. *)
Definition stored_text (l : Leaf) (e : json) : option string :=
  match l with
  | NodeLeaf _ _ => entry_text e
  | _ => escape_ctrl_chars <$> entry_text e
  end.

Definition last_stored (es : list json) (l : Leaf) : option (option string) :=
  stored_text l <$> last (filter (λ e, entry_leaf e = Some l) es).

(** * Sample data, for running the definitions *)

Module Sample.

Definition entries : list json :=
  [JObj {[ "run_index" := JInt 1; "text" := JStr "Hello" ]};
   JObj {[ "run_index" := JInt 2; "text" := JStr "World" ]}].

Definition text_map : gmap string json :=
  {[ "source" := JStr "deck.pptx"; "slide_count" := JInt 1;
     "entry_count" := JInt 2; "entries" := JList entries ]}.

Definition translated : list json := [JStr "Bonjour"; JStr "Monde"].

Definition files : gmap string file :=
  {[ "deck.text-map.json" := JsonFile (JObj text_map) ]}.

Definition text_frame_of (l : list (list string)) : TextFrame :=
  {| paragraphs := (λ p, {| runs := (λ t, {| run_text := t |}) <$> p |}) <$> l |}.

Definition text_box (l : list (list string)) : Shape :=
  mkShape 2 "TextBox 1" (Some MSO_SHAPE_TYPE.TEXT_BOX) (Some (text_frame_of l))
          None None [].

Definition table_shape : Shape :=
  mkShape 3 "Table 1" (Some MSO_SHAPE_TYPE.TABLE) None
    (Some {| rows := [ {| cells := [ {| cell_text_frame := text_frame_of [["World"]] |} ] |} ];
             columns := 1 |})
    None [].

Definition chart_shape : Shape :=
  mkShape 4 "Chart 1" (Some MSO_SHAPE_TYPE.CHART) None None
          (Some "/ppt/charts/chart1.xml") [].

Definition group_shape : Shape :=
  mkShape 5 "Group 1" (Some MSO_SHAPE_TYPE.GROUP) None None None
          [text_box [[""; "in a group"]]; chart_shape].

(** Two slides: a text box; a table, a chart, and a group holding a text
    box and a second shape showing the same chart part. *)
Definition slide1 : Slide :=
  {| slide_id := 256; slide_layout_name := Some "Title Slide";
     slide_shapes := [text_box [["Hello"]]] |}.

Definition slide2 : Slide :=
  {| slide_id := 257; slide_layout_name := None;
     slide_shapes := [table_shape; chart_shape; group_shape] |}.

Definition deck : Presentation :=
  {| slides := [slide1; slide2];
     chart_parts :=
       {[ "/ppt/charts/chart1.xml" :=
            [ {| node_xpath := "/c:chartSpace/c:chart/c:title/a:t"; node_text := Some "Sales" |};
              {| node_xpath := "/c:chartSpace/c:chart/c:legend/a:t[1]"; node_text := None |};
              {| node_xpath := "/c:chartSpace/c:chart/c:legend/a:t[2]"; node_text := Some "Q1" |} ] ]} |}.

Definition disk : gmap string file := {[ "deck.pptx" := PptxFile deck ]}.

(** The text map of [deck], and two hand-edited copies of it: one with a
    wrong [entry_count], one whose third entry names a slide that does not
    exist. *)
Definition deck_entries : list json := BuildTextMap.entries (BuildTextMap.collect deck).

Definition deck_map : json := BuildTextMap.text_map_of "deck.pptx" deck.

Definition fields (j : json) : gmap string json :=
  match j with
  | JObj m => m
  | _ => ∅
  end.

Definition miscounted_map : gmap string json :=
  <["entry_count" := JInt 3]> (fields deck_map).

Definition misaddressed_entry : json :=
  JObj (<["slide_index" := JInt 9]> (fields (default JNull (deck_entries !! 2%nat)))).

Definition misaddressed_map : gmap string json :=
  <["entries" := JList (take 2 deck_entries ++ misaddressed_entry :: drop 3 deck_entries)]>
    (fields deck_map).

Definition miscounted_disk : gmap string file :=
  <["deck.fr.json" := JsonFile (JObj miscounted_map)]> disk.

Definition misaddressed_disk : gmap string file :=
  <["deck.fr.json" := JsonFile (JObj misaddressed_map)]> disk.

(** Merge translated values into the map of [deck], project the result
    onto [deck], extract from the file written and flatten. *)
Definition translate_deck (values : list json) : result (list json) :=
  merged ← ApplyTranslatedTexts.merge_translations deck_map values;
  let out := ApplyTextMapToPptx.apply_text_map
               (<["deck.fr.json" := JsonFile merged]> disk)
               "deck.pptx" "deck.fr.json" "deck.fr.pptx" in
  _ ← out.2;
  text_map' ← BuildTextMap.build_text_map out.1 "deck.fr.pptx";
  ExportTextArray.load_texts
    {[ "deck.fr.text-map.json" := JsonFile text_map' ]} "deck.fr.text-map.json".

(** Translations of the seven texts of [deck], the map they are merged
    into, and the disk with that map beside the deck. *)
Definition translated_texts : list string :=
  ["Bonjour"; "Monde"; "Ventes"; "T1"; "dans un groupe"; "Ventes"; "T1"].

Definition translated_map : json :=
  match ApplyTranslatedTexts.merge_translations deck_map (JStr <$> translated_texts) with
  | Ok merged => merged
  | Raise _ => JNull
  end.

Definition translated_disk : gmap string file :=
  <["deck.fr.json" := JsonFile translated_map]> disk.

(** The first entry of the map of [deck] with another text. *)
Definition retitled_entry : gmap string json :=
  <["text" := JStr "Bonjour"]> (fields (default JNull (deck_entries !! 0%nat))).

(** The same entry with a third text. *)
Definition retitled_again : gmap string json := <["text" := JStr "Salut"]> retitled_entry.

(** A disk whose map file holds a JSON array. *)
Definition array_disk : gmap string file := <["deck.fr.json" := JsonFile (JList [])]> disk.

(** The same entry after the shape was renamed and its identifier changed. *)
Definition renamed_entry : gmap string json :=
  <["shape_name" := JStr "Title 9"]> (<["shape_id" := JInt 99]> retitled_entry).

(** The same entry said to be a table cell. *)
Definition mislabelled_entry : gmap string json :=
  <["container" := JStr "table_cell"]> (fields (default JNull (deck_entries !! 0%nat))).

(** Texts with a character the XML layer has a say about: a carriage
    return, a vertical tab, and U+FFFE as UTF-8 encodes it. *)
Definition cr : string := String (Ascii.ascii_of_nat 13) "".

Definition vt : string := String (Ascii.ascii_of_nat 11) "".

Definition u_fffe : string :=
  String (Ascii.ascii_of_nat 239)
    (String (Ascii.ascii_of_nat 191) (String (Ascii.ascii_of_nat 190) "")).



(** A table whose only row has two cells over a grid of one column. *)
Definition ragged_deck : Presentation :=
  {| slides :=
       [ {| slide_id := 256; slide_layout_name := None;
            slide_shapes :=
              [ mkShape 2 "Table 1" (Some MSO_SHAPE_TYPE.TABLE) None
                  (Some {| rows := [ {| cells := [ {| cell_text_frame := text_frame_of [["a"]] |};
                                                   {| cell_text_frame := text_frame_of [["b"]] |} ] |} ];
                           columns := 1 |})
                  None [] ] |} ];
     chart_parts := ∅ |}.

End Sample.

(** * Properties *)

(** ** Generic facts about the loops and about dynamic typing *)

Lemma len_nonneg {A} (l : list A) : 0 ≤ len l.
Proof. unfold len. lia. Qed.

Lemma len_app {A} (l1 l2 : list A) : len (l1 ++ l2) = len l1 + len l2.
Proof. unfold len. rewrite length_app. lia. Qed.

Lemma index_lookup {A} (l : list A) (i : nat) : index l (Z.of_nat i) = l !! i.
Proof. unfold index. case_decide; [by rewrite Nat2Z.id | lia]. Qed.

Lemma index_in_range {A} (l : list A) (i : Z) :
  1 ≤ i ≤ len l → is_Some (index l (i - 1)).
Proof.
  intros Hi. unfold index, len in *. case_decide; [|lia].
  apply lookup_lt_is_Some. lia.
Qed.

Lemma isinstance_dict_inv v : isinstance_dict v → ∃ m, v = JObj m.
Proof. destruct v; simpl; try done. eauto. Qed.

Lemma isinstance_str_inv v : isinstance_str v → ∃ s, v = JStr s.
Proof. destruct v; simpl; try done. eauto. Qed.

(** Lookups through inserts at literal keys. *)
Ltac dict_lookup :=
  repeat first
    [ rewrite lookup_insert_eq
    | rewrite lookup_insert_ne by discriminate ].

(** ** merge_translations *)

Section merge.
Import ApplyTranslatedTexts.

Lemma merge_loop_ok es vs acc :
  length es = length vs →
  Forall (λ e, isinstance_dict e) es → Forall (λ v, isinstance_str v) vs →
  for_each_r (λ '(entry, text), merge_entry entry text) (zip es vs) acc
  = Ok (acc ++ zip_with with_text es vs).
Proof.
  intros Hlen Hes. revert vs acc Hlen.
  induction Hes as [|e es He Hes IH]; intros [|v vs] acc Hlen Hvs; simplify_eq/=.
  - by rewrite app_nil_r.
  - apply Forall_cons in Hvs as [Hv Hvs].
    apply isinstance_dict_inv in He as [m ->].
    apply isinstance_str_inv in Hv as [s ->].
    simpl. rewrite IH; [|done..]. by rewrite <- app_assoc.
Qed.

Lemma merge_loop_inv es vs acc r :
  length es = length vs →
  for_each_r (λ '(entry, text), merge_entry entry text) (zip es vs) acc = Ok r →
  Forall (λ e, isinstance_dict e) es ∧ Forall (λ v, isinstance_str v) vs.
Proof.
  revert vs acc.
  induction es as [|e es IH]; intros [|v vs] acc Hlen Hr; simplify_eq/=.
  - done.
  - destruct e; try discriminate. destruct v; try discriminate.
    simpl in Hr. apply IH in Hr as [? ?]; [|done]. split; by constructor.
Qed.

Lemma merge_translations_unfold base es vs :
  base !! "entries" = Some (JList es) →
  merge_translations (JObj base) vs =
    (_ ← assert (bool_decide (len es = len vs))
           ("translated array must match entries length; "
            +:+ pretty (len es) +:+ " entries != "
            +:+ pretty (len vs) +:+ " translated items");
     merged_entries ← for_each_r (λ '(entry, text), merge_entry entry text)
                        (zip es vs) [];
     Ok (JObj (<["entry_count" := JInt (len merged_entries)]>
                 (<["entries" := JList merged_entries]> base)))).
Proof. intros H. unfold merge_translations. by rewrite H. Qed.

End merge.

Section merge_properties.
Import ApplyTranslatedTexts.

(** C2, as stated, fails: equal lengths are not enough.  With as many
    values as entries, [merge_translations] returns no map when an entry is
    not an object, and none when a value is not a string. *)
Lemma merge_translations_needs_objects_and_strings :
  length [JStr "Bonjour"] = length [JInt 1]
  ∧ merge_translations (JObj {[ "entries" := JList [JInt 1] ]}) [JStr "Bonjour"]
    = Raise (AssertionError "entry must be a dict")
  ∧ length [JStr "Bonjour"; JNull] = length Sample.entries
  ∧ merge_translations (JObj Sample.text_map) [JStr "Bonjour"; JNull]
    = Raise (AssertionError "translated value must be a string").
Proof. split_and!; reflexivity. Qed.

(** C2, amended.  For a base map whose [entries] is a list of objects and
    a list of translated values that are all strings, of the same length,
    [merge_translations] returns a map in which entry [i] has [text] equal
    to [values[i]] and every other field as in the base entry; [source] and
    [slide_count] are those of the base map and [entry_count] is the length
    of the merged list. *)
Theorem merge_translations_positional (base : gmap string json) (es vs : list json) :
  base !! "entries" = Some (JList es) →
  Forall (λ e, isinstance_dict e) es →
  Forall (λ v, isinstance_str v) vs →
  length vs = length es →
  ∃ merged es',
    merge_translations (JObj base) vs = Ok (JObj merged) ∧
    merged !! "entries" = Some (JList es') ∧
    length es' = length es ∧
    (∀ i e v, es !! i = Some (JObj e) → vs !! i = Some v →
       ∃ e', es' !! i = Some (JObj e') ∧ e' !! "text" = Some v ∧
             ∀ k, k ≠ "text" → e' !! k = e !! k) ∧
    merged !! "source" = base !! "source" ∧
    merged !! "slide_count" = base !! "slide_count" ∧
    merged !! "entry_count" = Some (JInt (len es')).
Proof.
  intros Hentries Hes Hvs Hlen.
  rewrite (merge_translations_unfold _ es) by done.
  assert (len es = len vs) by (unfold len; lia).
  rewrite bool_decide_eq_true_2 by done. simpl.
  rewrite merge_loop_ok by done. simpl.
  eexists _, (zip_with with_text es vs). split; [done|]. split_and!.
  - by dict_lookup.
  - rewrite length_zip_with. lia.
  - intros i e v Hi Hv. exists (<["text" := v]> e). split; [|split].
    + rewrite lookup_zip_with, Hi. simpl. by rewrite Hv.
    + by dict_lookup.
    + intros k Hk. by rewrite lookup_insert_ne.
  - by dict_lookup.
  - by dict_lookup.
  - by dict_lookup.
Qed.

Lemma merge_translations_positional_witness :
  ∃ merged es',
    merge_translations (JObj Sample.text_map) Sample.translated = Ok (JObj merged) ∧
    merged !! "entries" = Some (JList es') ∧
    length es' = length Sample.entries ∧
    (∀ i e v, Sample.entries !! i = Some (JObj e) → Sample.translated !! i = Some v →
       ∃ e', es' !! i = Some (JObj e') ∧ e' !! "text" = Some v ∧
             ∀ k, k ≠ "text" → e' !! k = e !! k) ∧
    merged !! "source" = Sample.text_map !! "source" ∧
    merged !! "slide_count" = Sample.text_map !! "slide_count" ∧
    merged !! "entry_count" = Some (JInt (len es')).
Proof.
  apply (merge_translations_positional Sample.text_map Sample.entries Sample.translated).
  - reflexivity.
  - repeat constructor.
  - repeat constructor.
  - reflexivity.
Defined.

(** C8, as stated, fails: with as many values as entries, a value that is
    not a string still makes [merge_translations] fail. *)
Lemma merge_translations_fails_on_equal_lengths :
  length [JObj (∅ : gmap string json)] = length [JInt 5] ∧
  merge_translations (JObj {[ "entries" := JList [JObj ∅] ]}) [JInt 5]
  = Raise (AssertionError "translated value must be a string").
Proof. split; reflexivity. Qed.

(** C8, amended. On a base map whose [entries] is a list,
    [merge_translations] fails exactly when the two lengths differ, or
    some entry is not an object, or some value is not a string; when the
    lengths differ the failure is the count-mismatch assertion, which
    names both counts, and nothing is returned. *)
Theorem merge_translations_fails_iff (base : gmap string json) (es vs : list json) :
  base !! "entries" = Some (JList es) →
  (is_Raise (merge_translations (JObj base) vs) ↔
     length es ≠ length vs
     ∨ ¬ Forall (λ e, isinstance_dict e) es
     ∨ ¬ Forall (λ v, isinstance_str v) vs) ∧
  (length es ≠ length vs →
     merge_translations (JObj base) vs
     = Raise (AssertionError
                ("translated array must match entries length; "
                 +:+ pretty (len es) +:+ " entries != "
                 +:+ pretty (len vs) +:+ " translated items"))).
Proof.
  intros Hentries. rewrite (merge_translations_unfold _ es) by done.
  destruct (decide (length es = length vs)) as [Hlen|Hlen].
  - split; [|done].
    assert (len es = len vs) by (unfold len; lia).
    rewrite bool_decide_eq_true_2 by done. simpl.
    destruct (for_each_r _ (zip es vs) []) as [r|e] eqn:Hloop; simpl.
    + apply merge_loop_inv in Hloop as [? ?]; [|done].
      split; [intros [? ?]; discriminate|]. intros [?|[?|?]]; done.
    + split; [|by eexists]. intros _. right.
      destruct (decide (Forall (λ e, isinstance_dict e) es)) as [Hd|]; [|by left].
      destruct (decide (Forall (λ v, isinstance_str v) vs)) as [Hs|]; [|by right].
      by rewrite merge_loop_ok in Hloop.
  - assert (len es ≠ len vs) by (unfold len; lia).
    rewrite bool_decide_eq_false_2 by done. simpl.
    split; [|done]. split; [by left | by eexists].
Qed.

Lemma merge_translations_fails_iff_witness :
  (is_Raise (merge_translations (JObj Sample.text_map) [JStr "Bonjour"]) ↔
     length Sample.entries ≠ length [JStr "Bonjour"]
     ∨ ¬ Forall (λ e, isinstance_dict e) Sample.entries
     ∨ ¬ Forall (λ v, isinstance_str v) [JStr "Bonjour"]) ∧
  (length Sample.entries ≠ length [JStr "Bonjour"] →
     merge_translations (JObj Sample.text_map) [JStr "Bonjour"]
     = Raise (AssertionError
                ("translated array must match entries length; "
                 +:+ pretty (len Sample.entries) +:+ " entries != "
                 +:+ pretty (len [JStr "Bonjour"]) +:+ " translated items"))).
Proof.
  apply (merge_translations_fails_iff Sample.text_map Sample.entries [JStr "Bonjour"]).
  reflexivity.
Defined.

End merge_properties.


(** ** load_texts *)

Section flatten.
Import ExportTextArray.

Lemma load_text_ok idx e texts v :
  text_field e = Some v → load_text idx e texts = Ok (texts ++ [v]).
Proof.
  destruct e as [| | | | |m]; try discriminate. simpl. intros Hv.
  unfold load_text. simpl.
  rewrite bool_decide_eq_true_2 by (by rewrite Hv). simpl.
  unfold getitem. by rewrite Hv.
Qed.

Lemma load_text_raise idx e texts :
  text_field e = None → is_Raise (load_text idx e texts).
Proof.
  unfold load_text.
  destruct e as [| | |s|l|m]; simpl; intros Hv; try (by eexists).
  - destruct (bool_decide _); simpl; by eexists.
  - destruct (existsb _ l); simpl; by eexists.
  - rewrite bool_decide_eq_false_2 by (rewrite Hv; by intros [? ?]).
    simpl. by eexists.
Qed.

Lemma load_texts_loop_ok es start acc :
  Forall (λ e, is_Some (text_field e)) es →
  ∃ texts, for_enumerate_r load_text es start acc = Ok (acc ++ texts)
           ∧ Forall2 (λ e t, text_field e = Some t) es texts.
Proof.
  intros Hes. revert start acc.
  induction Hes as [|e es [v Hv] Hes IH]; intros start acc; simpl.
  - exists []. by rewrite app_nil_r.
  - rewrite (load_text_ok _ _ _ v) by done.
    destruct (IH (start + 1) (acc ++ [v])) as (texts & -> & Hall).
    exists (v :: texts). split; [by rewrite <- app_assoc | by constructor].
Qed.

Lemma load_texts_loop_raise es start acc :
  (∃ e, e ∈ es ∧ text_field e = None) →
  is_Raise (for_enumerate_r load_text es start acc).
Proof.
  intros (e & Hin & He). revert start acc.
  induction es as [|x es IH]; intros start acc; [by apply elem_of_nil in Hin|].
  simpl. destruct (text_field x) as [v|] eqn:Hx.
  - rewrite (load_text_ok _ _ _ v) by done. apply IH.
    apply elem_of_cons in Hin as [->|?]; [congruence | done].
  - destruct (load_text_raise start x acc Hx) as [err ->]. by eexists.
Qed.

Lemma load_texts_unfold fs source data es :
  fs !! source = Some (JsonFile (JObj data)) →
  data !! "entries" = Some (JList es) →
  load_texts fs source = for_enumerate_r load_text es 1 [].
Proof.
  intros Hfs Hes. unfold load_texts, read_json. rewrite Hfs. simpl.
  unfold getitem. by rewrite Hes.
Qed.

Lemma load_texts_ok fs source (data : gmap string json) es :
  fs !! source = Some (JsonFile (JObj data)) →
  data !! "entries" = Some (JList es) →
  Forall (λ e, is_Some (text_field e)) es →
  ∃ texts, load_texts fs source = Ok texts
           ∧ Forall2 (λ e t, text_field e = Some t) es texts.
Proof.
  intros Hfs Hes Hall. rewrite (load_texts_unfold _ _ data es) by done.
  apply (load_texts_loop_ok es 1 [] Hall).
Qed.

(** C9. On a text map whose [entries] is a list in which every entry is an
    object with a [text] field, [load_texts] returns the [text] values in
    the order of the entries, one per entry; on a list of entries it fails
    exactly when some entry has no [text] field. *)
Theorem load_texts_flatten (fs : gmap string file) (source : string)
    (data : gmap string json) (es : list json) :
  fs !! source = Some (JsonFile (JObj data)) →
  data !! "entries" = Some (JList es) →
  (Forall (λ e, is_Some (text_field e)) es →
     ∃ texts, load_texts fs source = Ok texts
              ∧ length texts = length es
              ∧ Forall2 (λ e t, text_field e = Some t) es texts)
  ∧ (is_Raise (load_texts fs source) ↔ ∃ e, e ∈ es ∧ text_field e = None).
Proof.
  intros Hfs Hes. split.
  - intros Hall. destruct (load_texts_ok _ _ _ _ Hfs Hes Hall) as (texts & Hrun & H2).
    exists texts. split_and!; [done | | done].
    symmetry. by eapply Forall2_length.
  - rewrite (load_texts_unfold _ _ data es) by done.
    split; [|apply load_texts_loop_raise].
    intros [err Herr].
    destruct (decide (Forall (λ e, is_Some (text_field e)) es)) as [Hall|Hnot].
    + destruct (load_texts_loop_ok es 1 [] Hall) as (texts & Hrun & _). congruence.
    + apply not_Forall_Exists in Hnot; [|apply _].
      apply Exists_exists in Hnot as (e & Hin & He).
      exists e. split; [done|]. by apply eq_None_not_Some.
Qed.

Lemma load_texts_flatten_witness :
  (Forall (λ e, is_Some (text_field e)) Sample.entries →
     ∃ texts, load_texts Sample.files "deck.text-map.json" = Ok texts
              ∧ length texts = length Sample.entries
              ∧ Forall2 (λ e t, text_field e = Some t) Sample.entries texts)
  ∧ (is_Raise (load_texts Sample.files "deck.text-map.json")
     ↔ ∃ e, e ∈ Sample.entries ∧ text_field e = None).
Proof.
  apply (load_texts_flatten Sample.files "deck.text-map.json"
           Sample.text_map Sample.entries); reflexivity.
Defined.

End flatten.


(** ** Extraction: the paragraph and run walk *)

Section record_runs.
Import BuildTextMap.

Lemma for_enumerate_ext {A S} (body body' : Z → A → S → S) (l : list A) start st :
  (∀ i x st, body i x st = body' i x st) →
  for_enumerate body l start st = for_enumerate body' l start st.
Proof.
  intros Hext. revert start st. induction l as [|x l IH]; intros start st; simpl; [done|].
  by rewrite Hext, IH.
Qed.

(** A loop that only appends is the concatenation of what each round appends. *)
Lemma for_enumerate_concat {A B} (g : Z → A → list B) (l : list A) start acc :
  for_enumerate (λ i x acc, acc ++ g i x) l start acc
  = acc ++ mjoin (imap (λ k x, g (Z.of_nat k + start) x) l).
Proof.
  revert start acc g. induction l as [|x l IH]; intros start acc g; simpl.
  - by rewrite app_nil_r.
  - rewrite IH, <- app_assoc. do 3 f_equal.
    apply imap_ext. intros k y _. simpl. f_equal. lia.
Qed.

Lemma join_imap_filter_fmap {A B C} (P : C → Prop) `{!∀ c, Decision (P c)}
    (h : C → B) (mk : nat → A → C) (l : list A) :
  mjoin (imap (λ k x, if decide (P (mk k x)) then [h (mk k x)] else []) l)
  = h <$> filter P (imap mk l).
Proof.
  revert mk. induction l as [|x l IH]; intros mk; [done|].
  rewrite !imap_cons, filter_cons. specialize (IH (mk ∘ S)).
  change (mjoin (?a :: ?r)) with (a ++ mjoin r).
  destruct (decide (P (mk 0%nat x))); rewrite ?fmap_cons; simpl; f_equal; apply IH.
Qed.

Lemma fmap_filter_join_imap {A B C} (P : C → Prop) `{!∀ c, Decision (P c)}
    (h : C → B) (mk : nat → A → list C) (l : list A) :
  mjoin (imap (λ k x, h <$> filter P (mk k x)) l)
  = h <$> filter P (mjoin (imap mk l)).
Proof.
  revert mk. induction l as [|x l IH]; intros mk; [done|].
  rewrite !imap_cons. change (mjoin (?a :: ?r)) with (a ++ mjoin r).
  rewrite filter_app, fmap_app. f_equal. apply (IH (mk ∘ S)).
Qed.

Lemma record_runs_inner base extra segs container para_idx rs start acc :
  for_enumerate (λ run_idx run entries,
        let text := run_text run in
        if falsy text then entries
        else
          let run_segments := ((segs ++ [container]) ++ ["paragraph[" +:+ pretty para_idx +:+ "]"])
                              ++ ["run[" +:+ pretty run_idx +:+ "]"] in
          let entry := base in
          let entry := dict_update entry extra in
          let entry := dict_update entry (list_to_map [
            ("container", JStr container);
            ("paragraph_index", JInt para_idx);
            ("run_index", JInt run_idx);
            ("path", JStr (join "." run_segments));
            ("text", JStr text)]) in
          entries ++ [JObj entry]) rs start acc
  = acc ++ mjoin (imap (λ k r,
             if decide (run_text r ≠ "")
             then [run_entry_at base extra (segs ++ [container]) container
                     para_idx (Z.of_nat k + start) (run_text r)]
             else []) rs).
Proof.
  rewrite <- (for_enumerate_concat (λ j r,
             if decide (run_text r ≠ "")
             then [run_entry_at base extra (segs ++ [container]) container
                     para_idx j (run_text r)]
             else [])).
  apply for_enumerate_ext. intros j r acc'. cbv zeta. unfold falsy.
  case_bool_decide as Hr; destruct (decide (run_text r ≠ "")) as [Hr'|Hr'].
  - contradiction.
  - symmetry. apply app_nil_r.
  - reflexivity.
  - contradiction.
Qed.

Lemma record_runs_eq tf base segs container extra entries :
  record_runs tf base segs container extra entries
  = entries ++ (run_entry base (default ∅ extra) (segs ++ [container]) container
                  <$> nonempty_runs tf).
Proof.
  unfold record_runs, nonempty_runs, indexed_runs. cbv zeta.
  etrans.
  { apply for_enumerate_ext. intros i p acc. apply record_runs_inner. }
  rewrite (for_enumerate_concat (λ i p, mjoin (imap _ (runs p)))). f_equal.
  rewrite <- fmap_filter_join_imap. f_equal.
  apply imap_ext. intros i p _. cbv beta.
  rewrite <- (join_imap_filter_fmap (λ x, x.2 ≠ "")). reflexivity.
Qed.

(** Reading a key of a dict after [update] with a literal dict. *)
Lemma dict_update_lookup_l (d other : gmap string json) k v :
  other !! k = Some v → dict_update d other !! k = Some v.
Proof. intros H. unfold dict_update. by apply lookup_union_Some_l. Qed.

Lemma dict_update_lookup_r (d other : gmap string json) k :
  other !! k = None → dict_update d other !! k = d !! k.
Proof. intros H. unfold dict_update. by apply lookup_union_r. Qed.

Lemma run_entry_at_fields base extra segs container pi ri text :
  ∃ m, run_entry_at base extra segs container pi ri text = JObj m
       ∧ m !! "container" = Some (JStr container)
       ∧ m !! "paragraph_index" = Some (JInt pi)
       ∧ m !! "run_index" = Some (JInt ri)
       ∧ m !! "text" = Some (JStr text)
       ∧ ∀ k, k ∉ ["container"; "paragraph_index"; "run_index"; "path"; "text"] →
              m !! k = dict_update base extra !! k.
Proof.
  eexists. split; [reflexivity|].
  split_and!; try (apply dict_update_lookup_l; reflexivity).
  intros k Hk. apply dict_update_lookup_r.
  cbn [list_to_map foldr uncurry fst snd].
  rewrite !lookup_insert_ne; [apply lookup_empty|..];
    intros <-; apply Hk; repeat constructor.
Qed.

Lemma nonempty_runs_spec tf i j t :
  (i, j, t) ∈ nonempty_runs tf ↔
  ∃ p r, paragraphs tf !! i = Some p ∧ runs p !! j = Some r ∧ run_text r = t ∧ t ≠ "".
Proof.
  unfold nonempty_runs, indexed_runs.
  rewrite list_elem_of_filter, list_elem_of_join. simpl. split.
  - intros (Ht & l & Hin & Hl).
    apply elem_of_lookup_imap in Hl as (i' & p & -> & Hp).
    apply elem_of_lookup_imap in Hin as (j' & r & [= -> -> ->] & Hr).
    by exists p, r.
  - intros (p & r & Hp & Hr & <- & Ht). split; [done|].
    eexists. split; [|by apply elem_of_lookup_imap_2].
    by apply (elem_of_lookup_imap_2 (λ j r, (i, j, run_text r))).
Qed.

Lemma indexed_runs_NoDup tf : NoDup (indexed_runs tf).
Proof.
  unfold indexed_runs.
  enough (∀ (f : nat → nat) ps, Inj (=) (=) f →
            NoDup (mjoin (imap (λ i p, imap (λ j r, (f i, j, run_text r)) (runs p)) ps)))
    as H by apply (H id _ _).
  intros f ps. revert f. induction ps as [|p ps IH]; intros f Hf; [constructor|].
  rewrite imap_cons. change (mjoin (?a :: ?r)) with (a ++ mjoin r).
  apply NoDup_app. split_and!.
  - apply NoDup_alt. intros j1 j2 x H1 H2.
    rewrite list_lookup_imap in H1, H2.
    destruct (runs p !! j1) eqn:E1, (runs p !! j2) eqn:E2; simplify_eq/=. done.
  - intros x Hx Hx'.
    apply elem_of_lookup_imap in Hx as (j & r & -> & _).
    apply list_elem_of_join in Hx' as (l & Hin & Hl).
    apply elem_of_lookup_imap in Hl as (i' & p' & -> & _).
    apply elem_of_lookup_imap in Hin as (j' & r' & Heq & _).
    simpl in Heq. injection Heq as H0 _ _. by apply Hf in H0.
  - apply (IH (f ∘ S)). intros a b Hab. apply Hf in Hab. by injection Hab.
Qed.

(** C5. [record_runs] appends one entry for each run whose text is not
    empty, in document order, and none for a run whose text is empty; the
    entry of the run at position [(i, j)] of the text frame (counted from 0
    over all paragraphs and all runs, empty ones included) carries
    [paragraph_index = i + 1], [run_index = j + 1] and the run's text. *)
Theorem record_runs_true_positions (tf : TextFrame) (base : gmap string json)
    (segs : list string) (container : string) (extra : option (gmap string json))
    (entries : list json) :
  ∃ new,
    BuildTextMap.record_runs tf base segs container extra entries = entries ++ new
    ∧ Forall2 (λ e pos, ∃ m, e = JObj m
                 ∧ m !! "paragraph_index" = Some (JInt (Z.of_nat pos.1.1 + 1))
                 ∧ m !! "run_index" = Some (JInt (Z.of_nat pos.1.2 + 1))
                 ∧ m !! "text" = Some (JStr pos.2))
              new (nonempty_runs tf)
    ∧ NoDup (nonempty_runs tf)
    ∧ ∀ i j t, (i, j, t) ∈ nonempty_runs tf ↔
               ∃ p r, paragraphs tf !! i = Some p ∧ runs p !! j = Some r
                      ∧ run_text r = t ∧ t ≠ "".
Proof.
  eexists. split; [apply record_runs_eq|]. split_and!.
  - apply Forall2_fmap_l, Forall_Forall2_diag, Forall_forall. intros pos _.
    destruct (run_entry_at_fields base (default ∅ extra) (segs ++ [container]) container
                (Z.of_nat pos.1.1 + 1) (Z.of_nat pos.1.2 + 1) pos.2)
      as (m & Hm & _ & Hp & Hr & Ht & _).
    exists m. by split_and!.
  - apply NoDup_filter, indexed_runs_NoDup.
  - apply nonempty_runs_spec.
Qed.

(** The example of the specification: an empty run followed by a run with
    text gives one entry, with [run_index] 2. *)
Example record_runs_skips_empty_run :
  ∃ m,
    BuildTextMap.record_runs
      {| paragraphs := [ {| runs := [ {| run_text := "" |}; {| run_text := "Hi" |} ] |} ] |}
      ∅ ["slide[1]"; "shape[1]"] "text_frame" None []
    = [JObj m]
    ∧ m !! "paragraph_index" = Some (JInt 1)
    ∧ m !! "run_index" = Some (JInt 2)
    ∧ m !! "text" = Some (JStr "Hi").
Proof. eexists. split; [reflexivity|]. split_and!; reflexivity. Qed.

End record_runs.


(** ** resolve_shape *)

Section resolve.
Import ApplyTextMapToPptx.

Lemma as_index_Some idx i : as_int idx = Some i → as_index idx = Ok i.
Proof. unfold as_index. by intros ->. Qed.

Lemma resolve_step_out_of_range chain d idx i cur tgt :
  as_int idx = Some i → ¬ (1 ≤ i ≤ len cur) →
  resolve_step chain d idx (cur, tgt)
  = Raise (AssertionError ("Shape index " +:+ format_index idx
                           +:+ " out of range at depth " +:+ pretty d)).
Proof.
  intros Hi Hr. unfold resolve_step. rewrite (as_index_Some _ i) by done.
  cbn [mbind result_bind fst]. rewrite (bool_decide_eq_false_2 (1 ≤ i ≤ len cur)) by done. reflexivity.
Qed.

Lemma resolve_step_last chain d idx i cur tgt target :
  as_int idx = Some i → 1 ≤ i ≤ len cur → index cur (i - 1) = Some target →
  ¬ d < len chain →
  resolve_step chain d idx (cur, tgt) = Ok (cur, Some target).
Proof.
  intros Hi Hr Ht Hd. unfold resolve_step. rewrite (as_index_Some _ i) by done.
  cbn [mbind result_bind fst]. rewrite (bool_decide_eq_true_2 (1 ≤ i ≤ len cur)) by done.
  cbn [assert mbind result_bind]. rewrite Ht. by rewrite bool_decide_eq_false_2.
Qed.

Lemma resolve_step_inner chain d idx i cur tgt target :
  as_int idx = Some i → 1 ≤ i ≤ len cur → index cur (i - 1) = Some target →
  d < len chain →
  resolve_step chain d idx (cur, tgt)
  = if is_group target then Ok (shapes target, Some target)
    else Raise (AssertionError "Intermediate shape must be a group").
Proof.
  intros Hi Hr Ht Hd. unfold resolve_step. rewrite (as_index_Some _ i) by done.
  cbn [mbind result_bind fst]. rewrite (bool_decide_eq_true_2 (1 ≤ i ≤ len cur)) by done.
  cbn [assert mbind result_bind]. rewrite Ht. rewrite bool_decide_eq_true_2 by done.
  by destruct (is_group target).
Qed.

Lemma len_cons {A} (x : A) l : len (x :: l) = 1 + len l.
Proof. unfold len. simpl length. lia. Qed.

Lemma len_pos_nonempty {A} (l : list A) : l ≠ [] ↔ 0 < len l.
Proof. destruct l; [|rewrite len_cons; pose proof (len_nonneg l)]; split; try done; try lia. Qed.

Lemma resolve_loop_complete chain rest d cur tgt t :
  d + len rest = len chain + 1 → resolves cur rest t →
  ∃ c, for_enumerate_r (resolve_step chain) rest d (cur, tgt) = Ok (c, Some t).
Proof.
  intros Hd Hres. revert d tgt Hd.
  induction Hres as [cur idx i target Hi Hr Ht
                    |cur idx i group rest target Hi Hr Hg Hgrp Hne Hres IH];
    intros d tgt Hd; cbn [for_enumerate_r].
  - rewrite (resolve_step_last _ _ _ i _ _ target) by (try done; rewrite len_cons in Hd;
      change (len (@nil json)) with 0 in Hd; lia).
    by eexists.
  - apply len_pos_nonempty in Hne. rewrite len_cons in Hd.
    rewrite (resolve_step_inner _ _ _ i _ _ group) by (try done; lia).
    destruct (is_group group); [|done]. apply IH. lia.
Qed.

Lemma resolve_loop_sound chain rest d cur tgt c o :
  rest ≠ [] → d + len rest = len chain + 1 →
  for_enumerate_r (resolve_step chain) rest d (cur, tgt) = Ok (c, o) →
  ∃ t, o = Some t ∧ resolves cur rest t.
Proof.
  revert d cur tgt. induction rest as [|idx rest IH]; intros d cur tgt Hne Hd Hrun; [done|].
  cbn [for_enumerate_r] in Hrun. rewrite len_cons in Hd.
  destruct (as_int idx) as [i|] eqn:Hi;
    [|unfold resolve_step, as_index in Hrun; by rewrite Hi in Hrun].
  destruct (decide (1 ≤ i ≤ len cur)) as [Hr|Hr];
    [|by rewrite (resolve_step_out_of_range _ _ _ i) in Hrun].
  destruct (index_in_range cur i Hr) as [target Ht].
  destruct rest as [|idx' rest].
  - rewrite (resolve_step_last _ _ _ i _ _ target) in Hrun
      by (try done; change (len (@nil json)) with 0 in Hd; lia).
    simplify_eq/=. exists target. split; [done|]. by eapply resolves_last.
  - rewrite (resolve_step_inner _ _ _ i _ _ target) in Hrun
      by (try done; rewrite len_cons in Hd; pose proof (len_nonneg rest); lia).
    destruct (is_group target) eqn:Hgrp; [|done].
    apply IH in Hrun as (t & -> & Hres); [|done|lia].
    exists t. split; [done|]. eapply resolves_step; try done. by rewrite Hgrp.
Qed.

Lemma resolve_loop_descends chain pre suf d cur cur' tgt :
  descends cur pre cur' → suf ≠ [] → d + len pre + len suf = len chain + 1 →
  ∃ tgt', for_enumerate_r (resolve_step chain) (pre ++ suf) d (cur, tgt)
          = for_enumerate_r (resolve_step chain) suf (d + len pre) (cur', tgt').
Proof.
  intros Hdesc Hne. revert d tgt.
  induction Hdesc as [cur|cur idx i group rest cur' Hi Hr Hg Hgrp Hdesc IH]; intros d tgt Hd.
  - exists tgt. simpl. change (len (@nil json)) with 0. by rewrite Z.add_0_r.
  - apply len_pos_nonempty in Hne. rewrite len_cons in Hd. pose proof (len_nonneg rest).
    cbn [app for_enumerate_r].
    rewrite (resolve_step_inner _ _ _ i _ _ group) by (try done; lia).
    destruct (is_group group); [|done].
    destruct (IH (d + 1) (Some group)) as [tgt' ->]; [lia|].
    exists tgt'. f_equal. rewrite len_cons. lia.
Qed.

Lemma resolve_shape_unfold slide chain :
  chain ≠ [] →
  resolve_shape slide chain =
    (st ← for_enumerate_r (resolve_step chain) chain 1 (slide_shapes slide, None);
     match st.2 with
     | Some target => Ok target
     | None => Raise (AssertionError "Failed to resolve shape")
     end).
Proof. intros H. unfold resolve_shape. by rewrite bool_decide_eq_true_2. Qed.

Lemma resolves_nonempty cur chain t : resolves cur chain t → chain ≠ [].
Proof. by destruct 1. Qed.

Lemma resolve_shape_iff slide chain target :
  resolve_shape slide chain = Ok target ↔ resolves (slide_shapes slide) chain target.
Proof.
  split.
  - intros Hrun. destruct chain as [|idx rest]; [done|].
    rewrite resolve_shape_unfold in Hrun by done.
    destruct (for_enumerate_r _ _ _ _) as [[c o]|] eqn:Hloop; [|done].
    apply resolve_loop_sound in Hloop as (t & -> & Hres); [|done|lia].
    simpl in Hrun. by simplify_eq.
  - intros Hres. rewrite resolve_shape_unfold by by eapply resolves_nonempty.
    destruct (resolve_loop_complete chain chain 1 (slide_shapes slide) None target)
      as [c ->]; [lia|done|done].
Qed.

(** C7. [resolve_shape] returns a shape exactly when the chain resolves as
    the specification says: every element a valid 1-based index into the
    current shape sequence, every shape found before the last a group, the
    last one the target.  At any depth reached, an index out of range fails
    with the out-of-range assertion for that depth, and a shape that is not
    a group, with elements of the chain still to come, fails with
    "Intermediate shape must be a group": no element is skipped. *)
Theorem resolve_shape_checked (slide : Slide) (chain : list json) :
  (∀ target, resolve_shape slide chain = Ok target
             ↔ resolves (slide_shapes slide) chain target)
  ∧ (∀ pre idx rest cur i,
       chain = pre ++ idx :: rest →
       descends (slide_shapes slide) pre cur →
       as_int idx = Some i →
       (¬ (1 ≤ i ≤ len cur) →
          resolve_shape slide chain
          = Raise (AssertionError ("Shape index " +:+ format_index idx
                                   +:+ " out of range at depth " +:+ pretty (len pre + 1))))
       ∧ (∀ s, 1 ≤ i ≤ len cur → index cur (i - 1) = Some s → rest ≠ [] → ¬ is_group s →
            resolve_shape slide chain
            = Raise (AssertionError "Intermediate shape must be a group"))).
Proof.
  split; [intros target; apply resolve_shape_iff|].
  intros pre idx rest cur i -> Hdesc Hi.
  assert (Hne : pre ++ idx :: rest ≠ []) by by destruct pre.
  rewrite resolve_shape_unfold by done.
  destruct (resolve_loop_descends (pre ++ idx :: rest) pre (idx :: rest) 1
              (slide_shapes slide) cur None Hdesc) as [tgt' ->];
    [done | rewrite len_app; lia |].
  cbn [for_enumerate_r]. split.
  - intros Hr. rewrite (resolve_step_out_of_range _ _ _ i) by done.
    simpl. by rewrite (Z.add_comm 1).
  - intros s Hr Hs Hrest Hgrp. apply len_pos_nonempty in Hrest.
    rewrite (resolve_step_inner _ _ _ i _ _ s)
      by (try done; rewrite len_app, len_cons; pose proof (len_nonneg pre); lia).
    by destruct (is_group s).
Qed.

Lemma resolve_shape_checked_witness :
  resolve_shape Sample.slide2 [JInt 3; JInt 1] = Ok (Sample.text_box [[""; "in a group"]])
  ∧ resolve_shape Sample.slide2 [JInt 3; JInt 5]
    = Raise (AssertionError "Shape index 5 out of range at depth 2")
  ∧ resolve_shape Sample.slide2 [JInt 1; JInt 1]
    = Raise (AssertionError "Intermediate shape must be a group").
Proof.
  split_and!.
  - apply (proj1 (resolve_shape_checked Sample.slide2 [JInt 3; JInt 1])).
    eapply (resolves_step _ _ 3 Sample.group_shape);
      [reflexivity | vm_compute; split; discriminate | reflexivity | exact I
      | discriminate |].
    eapply (resolves_last _ _ 1);
      [reflexivity | vm_compute; split; discriminate | reflexivity].
  - apply (proj2 (resolve_shape_checked Sample.slide2 [JInt 3; JInt 5])
             [JInt 3] (JInt 5) [] (shapes Sample.group_shape) 5).
    + reflexivity.
    + eapply (descends_cons _ _ 3 Sample.group_shape);
        [reflexivity | vm_compute; split; discriminate | reflexivity | exact I
        | constructor].
    + reflexivity.
    + vm_compute. intros [_ H]. by apply H.
  - apply (proj2 (proj2 (resolve_shape_checked Sample.slide2 [JInt 1; JInt 1])
                    [] (JInt 1) [JInt 1] (slide_shapes Sample.slide2) 1
                    eq_refl (descends_nil _) eq_refl)
             Sample.table_shape).
    + vm_compute. split; discriminate.
    + reflexivity.
    + discriminate.
    + intros H. exact H.
Defined.

End resolve.


(** ** Extraction: the walk over the shape tree *)

Section walk.
Import BuildTextMap.

(** Induction on a shape with the children as hypotheses. *)
Lemma Shape_ind' (P : Shape → Prop) :
  (∀ s, Forall P (shapes s) → P s) → ∀ s, P s.
Proof.
  intros H. fix IH 1. intros s. apply H.
  destruct s as [? ? ? ? ? ? children]. simpl.
  induction children as [|c children IHc]; constructor; [apply IH | apply IHc].
Qed.

Lemma for_enumerate_invariant {A St} (I : St → Prop) (body : Z → A → St → St)
    (l : list A) start st :
  (∀ k x st, l !! k = Some x → I st → I (body (Z.of_nat k + start) x st)) →
  I st → I (for_enumerate body l start st).
Proof.
  revert start st. induction l as [|x l IH]; intros start st Hbody Hst; simpl; [done|].
  apply IH.
  - intros k y st' Hk Hst'.
    replace (Z.of_nat k + (start + 1)) with (Z.of_nat (S k) + start) by lia.
    by apply Hbody.
  - by apply (Hbody 0%nat).
Qed.

Lemma walk_shape_unfold pkg slide_meta path_segments index_chain shape_idx shape st :
  walk_shape pkg slide_meta path_segments index_chain shape_idx shape st =
    let shape_segments := path_segments ++ ["shape[" +:+ pretty shape_idx +:+ "]"] in
    let chain := index_chain ++ [shape_idx] in
    let base_entry : gmap string json := list_to_map [
      ("slide_index", JInt (slide_index slide_meta));
      ("slide_id", JInt (meta_slide_id slide_meta));
      ("slide_layout", slide_layout slide_meta);
      ("shape_id", JInt (shape_id shape));
      ("shape_name", JStr (name shape));
      ("shape_type", JStr (shape_type_name shape));
      ("shape_index_chain", JList (JInt <$> chain));
      ("shape_path", JStr (join "." shape_segments))] in
    let st :=
      match text_frame shape with
      | Some tf =>
          on_entries (record_runs tf base_entry shape_segments "text_frame" None) st
      | None => st
      end in
    let st :=
      match table shape with
      | Some tbl =>
          let table_segments := shape_segments ++ ["table"] in
          for_enumerate (λ row_idx row,
            for_enumerate (λ col_idx cell,
              let cell_segments := table_segments ++
                ["cell[" +:+ pretty row_idx +:+ "," +:+ pretty col_idx +:+ "]"] in
              let extra : gmap string json := list_to_map [
                ("table_row", JInt row_idx);
                ("table_col", JInt col_idx)] in
              on_entries (record_runs (cell_text_frame cell) base_entry
                            cell_segments "table_cell" (Some extra)))
              (cells row) 1)
            (rows tbl) 1 st
      | None => st
      end in
    let st := record_chart_text pkg shape base_entry st in
    if is_group shape then walk_shapes pkg (shapes shape) shape_segments chain slide_meta st
    else st.
Proof. by destruct shape. Qed.

(** *** The queries extraction makes *)

Lemma record_chart_text_calls pkg shape base st :
  xpath_calls (record_chart_text pkg shape base st)
  = xpath_calls st ++ option_list (chart shape).
Proof.
  unfold record_chart_text. destruct (chart shape) as [p|]; simpl; [|by rewrite app_nil_r].
  apply (for_enumerate_invariant
           (λ st', xpath_calls st' = xpath_calls st ++ [p])); [|done].
  by intros k x st' _ <-.
Qed.

Lemma walk_shape_calls pkg meta shape :
  ∀ path chain idx st,
    xpath_calls (walk_shape pkg meta path chain idx shape st)
    = xpath_calls st ++ chart_refs shape.
Proof.
  induction shape as [shape IH] using Shape_ind'. intros path chain idx st.
  rewrite walk_shape_unfold. cbv zeta.
  set (segs := path ++ _). set (chain' := chain ++ _). set (base := list_to_map _).
  set (st1 := match text_frame shape with Some _ => _ | None => st end).
  set (st2 := match table shape with Some _ => _ | None => st1 end).
  assert (H1 : xpath_calls st1 = xpath_calls st) by (subst st1; by destruct (text_frame shape)).
  assert (H2 : xpath_calls st2 = xpath_calls st).
  { subst st2. destruct (table shape) as [tbl|]; [|done].
    apply (for_enumerate_invariant (λ st', xpath_calls st' = xpath_calls st)); [|done].
    intros k row st' _ Hst'.
    apply (for_enumerate_invariant (λ st', xpath_calls st' = xpath_calls st)); [|done].
    by intros k' cell st'' _ Hst''. }
  assert (Hunf : chart_refs shape = option_list (chart shape)
            ++ (if is_group shape then mjoin (chart_refs <$> shapes shape) else []))
    by by destruct shape.
  rewrite Hunf, app_assoc, <- H2, <- (record_chart_text_calls pkg shape base st2).
  generalize (record_chart_text pkg shape base st2). intros st3.
  destruct (is_group shape); [|by rewrite app_nil_r].
  unfold walk_shapes. generalize 1. revert st3.
  clear Hunf H1 H2. induction IH as [|c cs Hc Hcs IHcs]; intros st3 start; simpl.
  - by rewrite app_nil_r.
  - rewrite IHcs, Hc. by rewrite <- app_assoc.
Qed.

Lemma walk_shapes_calls pkg meta l path chain st :
  xpath_calls (walk_shapes pkg l path chain meta st)
  = xpath_calls st ++ mjoin (chart_refs <$> l).
Proof.
  unfold walk_shapes. generalize 1. revert st.
  induction l as [|c cs IH]; intros st start; simpl.
  - by rewrite app_nil_r.
  - rewrite IH, walk_shape_calls. by rewrite <- app_assoc.
Qed.

Lemma collect_calls (p : Presentation) : xpath_calls (collect p) = chart_refs_of p.
Proof.
  unfold collect, chart_refs_of.
  change (mjoin ((λ slide, mjoin (chart_refs <$> slide_shapes slide)) <$> slides p))
    with (xpath_calls {| entries := []; xpath_calls := [] |}
          ++ mjoin ((λ slide, mjoin (chart_refs <$> slide_shapes slide)) <$> slides p)).
  generalize {| entries := []; xpath_calls := [] |}. generalize 1.
  induction (slides p) as [|sl sls IH]; intros start st; simpl.
  - by rewrite app_nil_r.
  - rewrite IH, walk_shapes_calls. by rewrite <- app_assoc.
Qed.

(** *** Every entry extraction emits denotes a leaf of the presentation *)

Ltac literal_notin :=
  repeat (apply not_elem_of_cons; split; [discriminate|]); apply not_elem_of_nil.

Lemma resolves_snoc top c g idx i child :
  resolves top c g → is_group g →
  as_int idx = Some i → 1 ≤ i ≤ len (shapes g) → index (shapes g) (i - 1) = Some child →
  resolves top (c ++ [idx]) child.
Proof.
  intros Hres Hgrp Hi Hr Hc.
  induction Hres as [cur idx0 i0 target Hi0 Hr0 Ht0
                    |cur idx0 i0 group rest target Hi0 Hr0 Hg0 Hgrp0 Hne Hres IH]; simpl.
  - eapply resolves_step; try done. by eapply resolves_last.
  - eapply resolves_step; try done; [by destruct rest | by apply IH].
Qed.

Lemma run_entry_leaf tf base extra segs container pos :
  pos ∈ nonempty_runs tf →
  ∃ m, run_entry base extra segs container pos = JObj m
       ∧ leaf_at tf m
       ∧ m !! "container" = Some (JStr container)
       ∧ ∀ k, k ∉ ["container"; "paragraph_index"; "run_index"; "path"; "text"] →
              m !! k = dict_update base extra !! k.
Proof.
  destruct pos as [[i j] t]. intros (p & r & Hp & Hr & <- & Ht)%nonempty_runs_spec.
  destruct (run_entry_at_fields base extra segs container
              (Z.of_nat i + 1) (Z.of_nat j + 1) (run_text r))
    as (m & Hm & Hc & Hpi & Hri & Htext & Hother).
  exists m. split_and!; try done. by exists i, j, p, r.
Qed.

Section in_slide.
Context (d : Presentation) (si : nat) (slide : Slide).
Hypothesis Hslide : slides d !! si = Some slide.

Lemma record_runs_denotes_text_frame shape chain tf base segs acc :
  resolves (slide_shapes slide) chain shape →
  text_frame shape = Some tf →
  base !! "slide_index" = Some (JInt (Z.of_nat si + 1)) →
  base !! "shape_index_chain" = Some (JList chain) →
  Forall (entry_denotes d) acc →
  Forall (entry_denotes d) (record_runs tf base segs "text_frame" None acc).
Proof.
  intros Hres Htf Hb1 Hb2 Hacc. rewrite record_runs_eq.
  apply Forall_app. split; [done|]. apply Forall_fmap, Forall_forall. intros pos Hpos.
  destruct (run_entry_leaf tf base (default ∅ None) (segs ++ ["text_frame"]) "text_frame"
              pos Hpos) as (m & Hm & Hleaf & Hc & Hother).
  exists m. split; [done|]. exists si, slide, chain, shape. split_and!; try done.
  - rewrite Hother by literal_notin. by rewrite dict_update_lookup_r.
  - rewrite Hother by literal_notin. by rewrite dict_update_lookup_r.
  - left. split; [done|]. by exists tf.
Qed.

Lemma record_runs_denotes_table_cell shape chain tbl r c row cell base segs acc :
  resolves (slide_shapes slide) chain shape →
  table shape = Some tbl →
  rows tbl !! r = Some row → cells row !! c = Some cell → (c < columns tbl)%nat →
  base !! "slide_index" = Some (JInt (Z.of_nat si + 1)) →
  base !! "shape_index_chain" = Some (JList chain) →
  Forall (entry_denotes d) acc →
  Forall (entry_denotes d)
    (record_runs (cell_text_frame cell) base segs "table_cell"
       (Some (list_to_map [("table_row", JInt (Z.of_nat r + 1));
                           ("table_col", JInt (Z.of_nat c + 1))])) acc).
Proof.
  intros Hres Htbl Hrow Hcell Hcol Hb1 Hb2 Hacc. rewrite record_runs_eq.
  apply Forall_app. split; [done|]. apply Forall_fmap, Forall_forall. intros pos Hpos.
  edestruct (run_entry_leaf (cell_text_frame cell) base) as (m & Hm & Hleaf & Hc & Hother);
    [exact Hpos|].
  exists m. split; [exact Hm|]. exists si, slide, chain, shape. split_and!; try done.
  - rewrite Hother by literal_notin. by rewrite dict_update_lookup_r.
  - rewrite Hother by literal_notin. by rewrite dict_update_lookup_r.
  - right. left. split; [done|]. exists tbl, r, c, row, cell. split_and!; try done.
    + rewrite Hother by literal_notin. by apply dict_update_lookup_l.
    + rewrite Hother by literal_notin. by apply dict_update_lookup_l.
Qed.

Lemma record_chart_text_denotes shape chain base st :
  resolves (slide_shapes slide) chain shape →
  base !! "slide_index" = Some (JInt (Z.of_nat si + 1)) →
  base !! "shape_index_chain" = Some (JList chain) →
  Forall (entry_denotes d) (entries st) →
  Forall (entry_denotes d) (entries (record_chart_text d shape base st)).
Proof.
  intros Hres Hb1 Hb2 Hst. unfold record_chart_text.
  destruct (chart shape) as [p|] eqn:Hchart; [|done].
  apply (for_enumerate_invariant (λ st', Forall (entry_denotes d) (entries st'))); [|done].
  intros k node st' Hk Hst'. unfold on_entries. cbn [entries].
  destruct (node_text node) as [t|] eqn:Ht; [|done].
  unfold falsy. case_bool_decide as Hne; [done|].
  apply Forall_app. split; [done|]. apply Forall_singleton.
  eexists. split; [reflexivity|]. exists si, slide, chain, shape. split_and!; try done.
  - by rewrite dict_update_lookup_r.
  - by rewrite dict_update_lookup_r.
  - right. right. split; [by apply dict_update_lookup_l|].
    exists p, k, node, t. split_and!; try done; by apply dict_update_lookup_l.
Qed.

Lemma wf_shape_unfold s :
  wf_shape s = from_option rectangular true (table s) && forallb wf_shape (shapes s).
Proof. by destruct s. Qed.

Lemma index_succ {A} (l : list A) (k : nat) x :
  l !! k = Some x →
  1 ≤ Z.of_nat k + 1 ≤ len l ∧ index l (Z.of_nat k + 1 - 1) = Some x.
Proof.
  intros Hk. pose proof (lookup_lt_Some _ _ _ Hk). unfold len. split; [lia|].
  replace (Z.of_nat k + 1 - 1) with (Z.of_nat k) by lia. by rewrite index_lookup.
Qed.

Lemma walk_shape_denotes meta shape :
  slide_index meta = Z.of_nat si + 1 →
  ∀ path chain idx st,
    wf_shape shape →
    resolves (slide_shapes slide) (JInt <$> (chain ++ [idx])) shape →
    Forall (entry_denotes d) (entries st) →
    Forall (entry_denotes d) (entries (walk_shape d meta path chain idx shape st)).
Proof.
  intros Hmeta. induction shape as [shape IH] using Shape_ind'.
  intros path chain idx st Hwf Hres Hst.
  rewrite walk_shape_unfold. cbv zeta.
  set (segs := path ++ _). set (chain' := chain ++ _) in *. set (base := list_to_map _).
  assert (Hb1 : base !! "slide_index" = Some (JInt (Z.of_nat si + 1)))
    by (rewrite <- Hmeta; reflexivity).
  assert (Hb2 : base !! "shape_index_chain" = Some (JList (JInt <$> chain')))
    by reflexivity.
  rewrite wf_shape_unfold in Hwf. apply andb_prop_elim in Hwf as [Hrect Hchildren].
  set (st1 := match text_frame shape with Some _ => _ | None => st end).
  assert (H1 : Forall (entry_denotes d) (entries st1)).
  { subst st1. destruct (text_frame shape) as [tf|] eqn:Htf; [|done].
    by eapply record_runs_denotes_text_frame. }
  set (st2 := match table shape with Some _ => _ | None => st1 end).
  assert (H2 : Forall (entry_denotes d) (entries st2)).
  { subst st2. destruct (table shape) as [tbl|] eqn:Htbl; [|done].
    simpl in Hrect. apply Is_true_eq_true in Hrect.
    apply (for_enumerate_invariant (λ st', Forall (entry_denotes d) (entries st'))); [|done].
    intros r row st' Hrow Hst'.
    apply (for_enumerate_invariant (λ st', Forall (entry_denotes d) (entries st'))); [|done].
    intros c cell st'' Hcell Hst''. cbv zeta.
    eapply record_runs_denotes_table_cell; try done.
    unfold rectangular in Hrect. rewrite forallb_forall in Hrect.
    assert (Hin : In row (rows tbl)) by (apply list_elem_of_In; by eapply list_elem_of_lookup_2).
    apply Hrect, bool_decide_eq_true_1 in Hin. rewrite <- Hin.
    by eapply lookup_lt_Some. }
  pose proof (record_chart_text_denotes shape _ base st2 Hres Hb1 Hb2 H2) as H3.
  generalize dependent (record_chart_text d shape base st2). intros st3 H3.
  destruct (is_group shape) eqn:Hgrp; [|done].
  unfold walk_shapes.
  apply (for_enumerate_invariant (λ st', Forall (entry_denotes d) (entries st'))); [|done].
  intros k child st' Hk Hst'.
  rewrite Forall_lookup in IH. apply (IH k child Hk); [| |done].
  - apply Is_true_eq_true in Hchildren. rewrite forallb_forall in Hchildren.
    apply Is_true_eq_left, Hchildren, list_elem_of_In. by eapply list_elem_of_lookup_2.
  - rewrite fmap_app. destruct (index_succ _ _ _ Hk) as [Hr Hi].
    eapply resolves_snoc; try done. by rewrite Hgrp.
Qed.

End in_slide.

Lemma collect_denotes (d : Presentation) :
  wf_presentation d = true → Forall (entry_denotes d) (entries (collect d)).
Proof.
  intros Hwf%Is_true_eq_left. unfold collect.
  apply (for_enumerate_invariant (λ st', Forall (entry_denotes d) (entries st')));
    [|by constructor].
  intros si slide st Hslide Hst. cbv zeta. unfold walk_shapes.
  apply (for_enumerate_invariant (λ st', Forall (entry_denotes d) (entries st'))); [|done].
  intros k shape st' Hk Hst'.
  apply (walk_shape_denotes d si slide Hslide); try done.
  - apply Is_true_eq_true in Hwf. unfold wf_presentation in Hwf.
    rewrite forallb_forall in Hwf.
    assert (Hin : In slide (slides d))
      by (apply list_elem_of_In; by eapply list_elem_of_lookup_2).
    apply Hwf in Hin. rewrite forallb_forall in Hin.
    apply Is_true_eq_left, Hin, list_elem_of_In. by eapply list_elem_of_lookup_2.
  - destruct (index_succ _ _ _ Hk) as [Hr Hi]. simpl. by eapply resolves_last.
Qed.

(** *** No entry has an empty text *)

Lemma record_runs_nonempty tf base segs container extra acc :
  Forall has_nonempty_text acc →
  Forall has_nonempty_text (record_runs tf base segs container extra acc).
Proof.
  intros Hacc. rewrite record_runs_eq.
  apply Forall_app. split; [done|]. apply Forall_fmap, Forall_forall. intros pos Hpos.
  destruct (run_entry_leaf tf base (default ∅ extra) (segs ++ [container]) container
              pos Hpos) as (m & Hm & (i & j & p & r & _ & _ & _ & _ & Ht & Hne) & _).
  by exists m, (run_text r).
Qed.

Lemma record_chart_text_nonempty pkg shape base st :
  Forall has_nonempty_text (entries st) →
  Forall has_nonempty_text (entries (record_chart_text pkg shape base st)).
Proof.
  intros Hst. unfold record_chart_text. destruct (chart shape) as [p|]; [|done].
  apply (for_enumerate_invariant (λ st', Forall has_nonempty_text (entries st'))); [|done].
  intros k node st' _ Hst'. unfold on_entries. cbn [entries].
  destruct (node_text node) as [t|]; [|done].
  unfold falsy. case_bool_decide as Hne; [done|].
  apply Forall_app. split; [done|]. apply Forall_singleton.
  eexists _, t. split; [reflexivity|]. split; [|done]. by apply dict_update_lookup_l.
Qed.

Lemma walk_shape_nonempty pkg meta shape :
  ∀ path chain idx st,
    Forall has_nonempty_text (entries st) →
    Forall has_nonempty_text (entries (walk_shape pkg meta path chain idx shape st)).
Proof.
  induction shape as [shape IH] using Shape_ind'. intros path chain idx st Hst.
  rewrite walk_shape_unfold. cbv zeta.
  set (segs := path ++ _). set (chain' := chain ++ _). set (base := list_to_map _).
  set (st1 := match text_frame shape with Some _ => _ | None => st end).
  assert (H1 : Forall has_nonempty_text (entries st1)).
  { subst st1. destruct (text_frame shape); [|done]. by apply record_runs_nonempty. }
  set (st2 := match table shape with Some _ => _ | None => st1 end).
  assert (H2 : Forall has_nonempty_text (entries st2)).
  { subst st2. destruct (table shape) as [tbl|]; [|done].
    apply (for_enumerate_invariant (λ st', Forall has_nonempty_text (entries st'))); [|done].
    intros r row st' _ Hst'.
    apply (for_enumerate_invariant (λ st', Forall has_nonempty_text (entries st'))); [|done].
    intros c cell st'' _ Hst''. by apply record_runs_nonempty. }
  pose proof (record_chart_text_nonempty pkg shape base st2 H2) as H3.
  generalize dependent (record_chart_text pkg shape base st2). intros st3 H3.
  destruct (is_group shape); [|done].
  apply (for_enumerate_invariant (λ st', Forall has_nonempty_text (entries st'))); [|done].
  intros k child st' Hk Hst'. rewrite Forall_lookup in IH. by apply (IH k child Hk).
Qed.

Lemma collect_nonempty (p : Presentation) :
  Forall has_nonempty_text (entries (collect p)).
Proof.
  apply (for_enumerate_invariant (λ st', Forall has_nonempty_text (entries st')));
    [|by constructor].
  intros si slide st _ Hst.
  apply (for_enumerate_invariant (λ st', Forall has_nonempty_text (entries st'))); [|done].
  intros k shape st' _ Hst'. by apply walk_shape_nonempty.
Qed.

(** C10. The text map [build_text_map] returns for a presentation file has
    an [entries] list in which every entry is an object whose [text] is a
    non-empty string, whichever container the entry comes from. *)
Theorem build_text_map_texts_nonempty (fs : gmap string file) (pptx_path : string)
    (p : Presentation) :
  fs !! pptx_path = Some (PptxFile p) →
  ∃ text_map es,
    build_text_map fs pptx_path = Ok (JObj text_map)
    ∧ text_map !! "entries" = Some (JList es)
    ∧ Forall has_nonempty_text es.
Proof.
  intros Hfs. unfold build_text_map, load_presentation. rewrite Hfs.
  eexists _, _. split; [reflexivity|]. split; [reflexivity|]. apply collect_nonempty.
Qed.

End walk.


(** ** Projection of an entry onto the leaf it denotes *)

Section project_own.
Import ApplyTextMapToPptx.

Lemma getitem_Some (m : gmap string json) k v : m !! k = Some v → getitem m k = Ok v.
Proof. unfold getitem. by intros ->. Qed.

Lemma to_nat_succ_pred (k : nat) : Z.to_nat (Z.of_nat k + 1 - 1) = k.
Proof. lia. Qed.

Lemma plain_valid t : plain t = true → is_valid_xml_utf8 t = true.
Proof. unfold plain. by intros [? _]%andb_prop. Qed.

Lemma plain_escape t : plain t = true → escape_ctrl_chars t = t.
Proof. unfold plain. by intros [_ ?%bool_decide_eq_true]%andb_prop. Qed.

(** A plain text is stored as it is. *)
Lemma Run_set_text_plain r t :
  plain t = true → Run_set_text r (JStr t) = ({| run_text := t |}, Ok tt).
Proof.
  intros Ht. unfold Run_set_text, set_element_text.
  by rewrite (plain_escape _ Ht), (plain_valid _ Ht).
Qed.

(** [set_run_text] at a run there is: the assignment to that run. *)
Lemma set_run_text_at tf i j p r text :
  paragraphs tf !! i = Some p → runs p !! j = Some r →
  set_run_text tf (JInt (Z.of_nat i + 1)) (JInt (Z.of_nat j + 1)) text
  = ({| paragraphs :=
          <[i := {| runs := <[j := (Run_set_text r text).1]> (runs p) |}]> (paragraphs tf) |},
     (Run_set_text r text).2).
Proof.
  intros Hp Hr. unfold set_run_text.
  destruct (index_succ _ _ _ Hp) as [Hpr Hpi]. destruct (index_succ _ _ _ Hr) as [Hrr Hri].
  cbn [as_index as_int mbind result_bind].
  rewrite (bool_decide_eq_true_2 _ Hpr). cbn [assert]. rewrite Hpi.
  cbn [as_index as_int mbind result_bind].
  rewrite (bool_decide_eq_true_2 _ Hrr). cbn [assert]. rewrite Hri.
  cbn [mbind result_bind]. rewrite !to_nat_succ_pred. by destruct (Run_set_text r text).
Qed.





Lemma store_shape_cons cur i rest new :
  rest ≠ [] →
  store_shape cur (i :: rest) new =
    match cur !! i with
    | Some group => <[i := with_shapes group (store_shape (shapes group) rest new)]> cur
    | None => cur
    end.
Proof. by destruct rest. Qed.

(** Storing a shape where the chain found it changes nothing. *)
Lemma store_shape_own top chain shape :
  resolves top chain shape → store_shape top (positions chain) shape = top.
Proof.
  induction 1 as [cur idx i target Hi Hr Ht
                 |cur idx i group rest target Hi Hr Hg Hgrp Hne Hres IH].
  - simpl. rewrite Hi. simpl. apply list_insert_id.
    unfold index in Ht. case_decide; [done|lia].
  - unfold positions in *. rewrite fmap_cons, Hi. cbn [from_option id].
    unfold index in Hg. case_decide; [|lia].
    rewrite store_shape_cons by by destruct rest.
    rewrite Hg, IH. apply list_insert_id. rewrite Hg. f_equal. by destruct group.
Qed.

Lemma store_own d si slide chain shape :
  slides d !! si = Some slide → resolves (slide_shapes slide) chain shape →
  store d si (positions chain) shape = d.
Proof.
  intros Hslide Hres. unfold store. rewrite Hslide, store_shape_own by done.
  destruct d as [sls parts]. simpl in *. f_equal.
  apply list_insert_id. rewrite Hslide. f_equal. by destruct slide.
Qed.

Lemma get_chart_nodes_ok key mem :
  cache_ok mem →
  ∃ mem', get_chart_nodes key mem = (mem', Ok (fresh_refs (doc mem) key))
          ∧ doc mem' = doc mem ∧ cache_ok mem'.
Proof.
  intros Hok. unfold get_chart_nodes.
  destruct (chart_cache mem !! key) as [refs|] eqn:Hc.
  - exists mem. by rewrite (Hok _ _ Hc).
  - eexists. split; [reflexivity|]. split; [done|].
    intros k refs. cbn [chart_cache doc].
    destruct (decide (key = k)) as [<-|Hne].
    + rewrite lookup_insert_eq. by intros [= <-].
    + rewrite lookup_insert_ne by done. apply Hok.
Qed.

Lemma fresh_refs_lookup d key k node :
  part_nodes d key !! k = Some node →
  len (fresh_refs d key) = len (part_nodes d key)
  ∧ fresh_refs d key !! k = Some (key, k).
Proof.
  intros Hk. unfold fresh_refs, len. rewrite length_fmap, length_seq. split; [done|].
  rewrite list_lookup_fmap, lookup_seq_lt; [done|]. by eapply lookup_lt_Some.
Qed.







End project_own.


(** ** The round trip *)

Section round_trip.
Import BuildTextMap ExportTextArray ApplyTranslatedTexts ApplyTextMapToPptx.






Lemma text_map_of_fields pptx_path d :
  ∃ tm, text_map_of pptx_path d = JObj tm
        ∧ tm !! "entries" = Some (JList (entries (collect d)))
        ∧ tm !! "entry_count" = Some (JInt (len (entries (collect d))))
        ∧ tm !! "slide_count" = Some (JInt (len (slides d)))
        ∧ tm !! "source" = Some (JStr pptx_path)
        ∧ ∀ other_path,
            text_map_of other_path d = JObj (<["source" := JStr other_path]> tm).
Proof.
  eexists. split; [reflexivity|]. split_and!; reflexivity.
Qed.

Lemma build_text_map_texts_nonempty_witness :
  ∃ text_map es,
    build_text_map Sample.disk "deck.pptx" = Ok (JObj text_map)
    ∧ text_map !! "entries" = Some (JList es)
    ∧ Forall has_nonempty_text es.
Proof.
  apply (build_text_map_texts_nonempty Sample.disk "deck.pptx" Sample.deck). reflexivity.
Defined.

End round_trip.


(** ** The projector's cache of chart text nodes *)

Section cache.
Import ApplyTextMapToPptx.

Lemma preserves_bind {A B} I (m : M A) (f : A → M B) :
  preserves I m → (∀ a, preserves I (f a)) → preserves I (m ≫= f).
Proof.
  intros Hm Hf mem Hmem. unfold mbind, M_bind.
  specialize (Hm mem Hmem). destruct (m mem) as [mem' [a|e]]; [|done].
  by apply Hf.
Qed.

Lemma preserves_lift {A} I (r : result A) : preserves I (lift r).
Proof. by intros mem Hmem. Qed.

Lemma preserves_get_doc I : preserves I get_doc.
Proof. by intros mem Hmem. Qed.

Lemma preserves_set_doc d : preserves log_ok (set_doc d).
Proof. by intros mem Hmem. Qed.

Lemma preserves_set_node_text node text : preserves log_ok (set_node_text node text).
Proof.
  intros mem Hmem. unfold set_node_text. destruct node as [p i].
  destruct (part_nodes (doc mem) p !! i); [|done]. by destruct (set_element_text text).
Qed.

Lemma preserves_get_chart_nodes key : preserves log_ok (get_chart_nodes key).
Proof.
  intros mem [Hnodup Hcached]. unfold get_chart_nodes.
  destruct (chart_cache mem !! key) as [refs|] eqn:Hc; [done|].
  cbn [xpath_query fst]. split; cbn [xpath_calls chart_cache doc].
  - apply NoDup_app. split_and!; [done| |apply NoDup_singleton].
    intros k Hk ->%list_elem_of_singleton. apply Hcached in Hk as [? ?]. congruence.
  - intros k [Hk| ->%list_elem_of_singleton]%elem_of_app.
    + destruct (decide (key = k)) as [->|Hne]; [by rewrite lookup_insert_eq|].
      rewrite lookup_insert_ne by done. by apply Hcached.
    + by rewrite lookup_insert_eq.
Qed.

Ltac preserves_step :=
  first
    [ apply preserves_bind; [|intros ?]
    | match goal with
      | |- preserves _ (let '(_, _) := ?x in _) => destruct x
      end
    | apply preserves_lift
    | apply preserves_get_doc
    | apply preserves_set_doc
    | apply preserves_set_node_text
    | apply preserves_get_chart_nodes
    | match goal with
      | |- preserves _ (match ?x with _ => _ end) => destruct x
      end ].

Lemma preserves_apply_chart_entry shape e : preserves log_ok (apply_chart_entry shape e).
Proof. unfold apply_chart_entry. repeat preserves_step. Qed.

Lemma preserves_apply_entry e : preserves log_ok (apply_entry e).
Proof.
  unfold apply_entry. repeat preserves_step; apply preserves_apply_chart_entry.
Qed.

Lemma preserves_apply_entries es : preserves log_ok (apply_entries es).
Proof.
  induction es as [|e es IH]; [by intros mem Hmem|]. cbn [apply_entries].
  destruct e; try apply preserves_lift.
  apply preserves_bind; [apply preserves_apply_entry | by intros _].
Qed.

Lemma log_ok_initial d : log_ok (initial d).
Proof. split; [constructor|]. by intros k Hk%elem_of_nil. Qed.

Lemma preserves_apply_loaded tm : preserves log_ok (apply_loaded tm).
Proof.
  unfold apply_loaded. repeat preserves_step; apply preserves_apply_entries.
Qed.

(** C4, as stated, fails: extraction has no cache.  In the sample deck two
    shapes show the same chart part, and the part is queried once for each
    of them. *)
Lemma collect_queries_shared_part_twice :
  BuildTextMap.xpath_calls (BuildTextMap.collect Sample.deck)
  = ["/ppt/charts/chart1.xml"; "/ppt/charts/chart1.xml"]
  ∧ ¬ NoDup (BuildTextMap.xpath_calls (BuildTextMap.collect Sample.deck)).
Proof.
  split; [reflexivity|].
  change (BuildTextMap.xpath_calls (BuildTextMap.collect Sample.deck))
    with ["/ppt/charts/chart1.xml"; "/ppt/charts/chart1.xml"].
  intros [Hnotin _]%NoDup_cons. apply Hnotin. by left.
Qed.

(** C4, amended.  Extraction queries the backing part afresh at every
    chart-bearing shape it visits, one query per such shape.  The cache by
    partname is the projector's: [get_chart_nodes] returns the cached list
    without a query when the part is in the cache, queries and caches it
    otherwise, and over a whole projection no part is queried twice. *)
Theorem chart_nodes_cached_by_projector_only :
  (∀ d, BuildTextMap.xpath_calls (BuildTextMap.collect d) = chart_refs_of d)
  ∧ (∀ key refs mem,
       chart_cache mem !! key = Some refs → get_chart_nodes key mem = (mem, Ok refs))
  ∧ (∀ key mem,
       chart_cache mem !! key = None →
       get_chart_nodes key mem
       = ({| doc := doc mem;
             chart_cache := <[key := fresh_refs (doc mem) key]> (chart_cache mem);
             xpath_calls := xpath_calls mem ++ [key] |},
          Ok (fresh_refs (doc mem) key)))
  ∧ (∀ d tm, NoDup (xpath_calls (apply_loaded tm (initial d)).1)).
Proof.
  split_and!.
  - apply collect_calls.
  - intros key refs mem Hc. unfold get_chart_nodes. by rewrite Hc.
  - intros key mem Hc. unfold get_chart_nodes. by rewrite Hc.
  - intros d tm. apply (preserves_apply_loaded tm (initial d)), log_ok_initial.
Qed.

End cache.


(** ** Fail-fast projection *)

Section atomic.
Import ApplyTextMapToPptx.

Lemma apply_entries_app pre post mem :
  apply_entries (pre ++ post) mem =
    match apply_entries pre mem with
    | (mem1, Ok _) => apply_entries post mem1
    | (mem1, Raise e) => (mem1, Raise e)
    end.
Proof.
  revert mem. induction pre as [|e pre IH]; intros mem; [done|].
  cbn [app apply_entries]. destruct e; try done.
  unfold mbind, M_bind. destruct (apply_entry m mem) as [mem1 [[]|err]]; [apply IH | done].
Qed.

(** After the [entry_count] check, [apply_text_map] is its loop. *)
Lemma apply_loaded_cases (tm : gmap string json) es mem :
  tm !! "entries" = Some (JList es) →
  apply_loaded tm mem = apply_entries es mem
  ∨ ∃ msg, apply_loaded tm mem = (mem, Raise (AssertionError msg)).
Proof.
  intros Hes. unfold apply_loaded. rewrite (getitem_Some _ _ _ Hes).
  unfold mbind, M_bind, lift. cbv beta iota.
  destruct (default JNull (tm !! "entry_count")) as [|b|n|s|l|m] eqn:Hec;
    cbn [as_int]; try (by left); try (right; by eexists).
  - case_bool_decide; cbn [assert]; [by left | right; by eexists].
  - case_bool_decide; cbn [assert]; [by left | right; by eexists].
Qed.

Lemma load_json_entries fs path tm :
  load_json fs path = Ok tm → ∃ es, tm !! "entries" = Some (JList es).
Proof.
  unfold load_json. destruct (read_json fs path) as [[| | | | |data]|]; try done.
  cbn [mbind result_bind]. destruct (data !! "entries") as [[| | | |es|]|] eqn:Hes; try done.
  cbn [from_option id isinstance_list assert mbind result_bind]. intros [= <-]. by exists es.
Qed.

(** C6. [apply_text_map] writes its output only when every entry has been
    applied: when it returns, the file system is the one it started from
    with, at [output_path], the presentation in memory after the loop ran
    over all the entries; when it raises, the file system is unchanged; and
    it raises whenever some entry of the map fails, whatever comes after that
    entry. *)
Theorem apply_text_map_atomic (fs : gmap string file)
    (pptx_path map_path output_path : string) :
  let res := apply_text_map fs pptx_path map_path output_path in
  (res.2 = Ok tt →
     ∃ d tm es mem,
       load_presentation fs pptx_path = Ok d
       ∧ load_json fs map_path = Ok tm
       ∧ tm !! "entries" = Some (JList es)
       ∧ apply_entries es (initial d) = (mem, Ok tt)
       ∧ res.1 = <[output_path := PptxFile (doc mem)]> fs)
  ∧ (is_Raise res.2 → res.1 = fs)
  ∧ (∀ d tm es pre e post mem1 mem2 err,
       load_presentation fs pptx_path = Ok d →
       load_json fs map_path = Ok tm →
       tm !! "entries" = Some (JList es) →
       es = pre ++ e :: post →
       apply_entries pre (initial d) = (mem1, Ok tt) →
       apply_entries [e] mem1 = (mem2, Raise err) →
       is_Raise res.2 ∧ res.1 = fs).
Proof.
  cbv zeta. unfold apply_text_map.
  destruct (load_presentation fs pptx_path) as [d|e0] eqn:Hd;
    [|split_and!; [done|done|by intros]].
  destruct (load_json fs map_path) as [tm|e0] eqn:Htm;
    [|split_and!; [done|done|by intros]].
  change {| doc := d; chart_cache := ∅; xpath_calls := [] |} with (initial d).
  destruct (load_json_entries _ _ _ Htm) as [es Hes].
  destruct (apply_loaded_cases tm es (initial d) Hes) as [Hrun|[msg Hrun]]; rewrite Hrun.
  - destruct (apply_entries es (initial d)) as [mem [[]|e0]] eqn:Hloop; cbn [fst snd].
    + unfold write_file. destruct (is_dir fs output_path); cbn [fst snd].
      { split_and!; [done|done|]. intros. split; [by eexists | done]. }
      split_and!; [|by intros [? ?]|].
      * intros _. by exists d, tm, es, mem.
      * intros d' tm' es' pre e post mem1 mem2 err [= <-] [= <-] Hes' -> Hpre He.
        rewrite Hes in Hes'. injection Hes' as ->.
        rewrite apply_entries_app, Hpre in Hloop.
        change (e :: post) with ([e] ++ post) in Hloop.
        rewrite apply_entries_app, He in Hloop. done.
    + split_and!; [done|done|]. intros. split; [by eexists | done].
  - cbn [fst snd]. split_and!; [done|done|]. intros. split; [by eexists | done].
Qed.

Lemma apply_text_map_atomic_witness :
  let res := apply_text_map Sample.misaddressed_disk
               "deck.pptx" "deck.fr.json" "deck.fr.pptx" in
  is_Raise res.2 ∧ res.1 = Sample.misaddressed_disk.
Proof.
  apply (proj2 (proj2 (apply_text_map_atomic Sample.misaddressed_disk
                         "deck.pptx" "deck.fr.json" "deck.fr.pptx"))
           Sample.deck Sample.misaddressed_map
           (take 2 Sample.deck_entries
            ++ Sample.misaddressed_entry :: drop 3 Sample.deck_entries)
           (take 2 Sample.deck_entries) Sample.misaddressed_entry
           (drop 3 Sample.deck_entries)
           (initial Sample.deck) (initial Sample.deck)
           (AssertionError "slide_index out of range")).
  - reflexivity.
  - reflexivity.
  - reflexivity.
  - reflexivity.
  - vm_compute. reflexivity.
  - vm_compute. reflexivity.
Defined.

End atomic.


(** ** Who checks [entry_count] *)

Section entry_count.
Import ExportTextArray ApplyTranslatedTexts ApplyTextMapToPptx.

(** C3, as stated, fails: [merge_translations] and [load_texts] accept a
    map whose [entry_count] is not the number of its entries. *)
Lemma merge_and_flatten_accept_wrong_entry_count :
  (<["entry_count" := JInt 7]> Sample.text_map) !! "entries" = Some (JList Sample.entries)
  ∧ (<["entry_count" := JInt 7]> Sample.text_map) !! "entry_count" = Some (JInt 7)
  ∧ len Sample.entries = 2
  ∧ is_Ok (merge_translations (JObj (<["entry_count" := JInt 7]> Sample.text_map))
             Sample.translated)
  ∧ load_texts {[ "deck.text-map.json" :=
                    JsonFile (JObj (<["entry_count" := JInt 7]> Sample.text_map)) ]}
      "deck.text-map.json"
    = Ok [JStr "Hello"; JStr "World"].
Proof. split_and!; try reflexivity. eexists. reflexivity. Qed.

Lemma merge_translations_ignores_entry_count (base : gmap string json) v vs :
  merge_translations (JObj (<["entry_count" := v]> base)) vs
  = merge_translations (JObj base) vs.
Proof.
  unfold merge_translations. rewrite lookup_insert_ne by done.
  destruct (default JNull (base !! "entries")) as [| | | |es|]; try done.
  destruct (assert _ _); [|done]. cbn [mbind result_bind].
  destruct (for_each_r _ _ _) as [merged|]; [|done]. cbn [mbind result_bind].
  do 2 f_equal. rewrite (insert_insert_ne base) by done. by rewrite insert_insert_eq.
Qed.

Lemma load_texts_ignores_entry_count (fs : gmap string file) source
    (data : gmap string json) v :
  load_texts (<[source := JsonFile (JObj (<["entry_count" := v]> data))]> fs) source
  = load_texts (<[source := JsonFile (JObj data)]> fs) source.
Proof.
  unfold load_texts, read_json. rewrite !lookup_insert_eq.
  cbn [mbind result_bind subscript]. unfold getitem. by rewrite lookup_insert_ne.
Qed.

(** C3, amended.  Of the consumers of a text map only the projector looks
    at [entry_count]: when the field is present and not null and is not an
    integer equal to the number of entries, [apply_text_map] raises an
    assertion error before it touches the presentation in memory and writes
    no file.  [merge_translations] overwrites the field without reading it
    and [load_texts] never reads it. *)
Theorem entry_count_checked_by_projector :
  (∀ fs pptx_path map_path output_path d (tm : gmap string json) es v,
     fs !! pptx_path = Some (PptxFile d) →
     fs !! map_path = Some (JsonFile (JObj tm)) →
     tm !! "entries" = Some (JList es) →
     tm !! "entry_count" = Some v →
     v ≠ JNull →
     as_int v ≠ Some (len es) →
     ∃ msg,
       apply_loaded tm (initial d) = (initial d, Raise (AssertionError msg))
       ∧ apply_text_map fs pptx_path map_path output_path
         = (fs, Raise (AssertionError msg)))
  ∧ (∀ (base : gmap string json) v vs,
       merge_translations (JObj (<["entry_count" := v]> base)) vs
       = merge_translations (JObj base) vs)
  ∧ (∀ (fs : gmap string file) source (data : gmap string json) v,
       load_texts (<[source := JsonFile (JObj (<["entry_count" := v]> data))]> fs) source
       = load_texts (<[source := JsonFile (JObj data)]> fs) source).
Proof.
  split_and!;
    [|apply merge_translations_ignores_entry_count|apply load_texts_ignores_entry_count].
  intros fs pptx_path map_path output_path d tm es v Hp Hm Hes Hec Hnull Hne.
  assert (Hloaded : ∃ msg, apply_loaded tm (initial d)
                           = (initial d, Raise (AssertionError msg))).
  { unfold apply_loaded. rewrite (getitem_Some _ _ _ Hes), Hec.
    unfold mbind, M_bind, lift. cbv beta iota. cbn [from_option id].
    destruct v as [|b|n|s|l|m]; cbn [as_int] in *; try done; try by eexists.
    - rewrite bool_decide_eq_false_2 by congruence. by eexists.
    - rewrite bool_decide_eq_false_2 by congruence. by eexists. }
  destruct Hloaded as [msg Hloaded]. exists msg. split; [done|].
  unfold apply_text_map, load_presentation, load_json, read_json. rewrite Hp, Hm.
  cbn [mbind result_bind]. rewrite Hes.
  cbn [from_option id isinstance_list assert mbind result_bind].
  change {| doc := d; chart_cache := ∅; xpath_calls := [] |} with (initial d).
  by rewrite Hloaded.
Qed.

Lemma entry_count_checked_by_projector_witness :
  ∃ msg,
    apply_loaded Sample.miscounted_map (initial Sample.deck)
    = (initial Sample.deck, Raise (AssertionError msg))
    ∧ apply_text_map Sample.miscounted_disk "deck.pptx" "deck.fr.json" "deck.fr.pptx"
      = (Sample.miscounted_disk, Raise (AssertionError msg)).
Proof.
  apply (proj1 entry_count_checked_by_projector
           Sample.miscounted_disk "deck.pptx" "deck.fr.json" "deck.fr.pptx"
           Sample.deck Sample.miscounted_map Sample.deck_entries (JInt 3)).
  - reflexivity.
  - reflexivity.
  - reflexivity.
  - reflexivity.
  - discriminate.
  - vm_compute. discriminate.
Defined.

End entry_count.


(** ** The definitions at work on the sample deck *)

Section examples.
Import BuildTextMap ExportTextArray ApplyTranslatedTexts ApplyTextMapToPptx.

(** The scenario of the specification, on a deck that also has a chart and
    a group: the texts come out in walk order, and after merging translated
    values and projecting, extraction reads the translations back.  The
    chart part is shown by two shapes, so its nodes appear twice among the
    entries and the later values are the ones that stay. *)
Example deck_texts :
  load_texts {[ "deck.text-map.json" := JsonFile Sample.deck_map ]} "deck.text-map.json"
  = Ok [JStr "Hello"; JStr "World"; JStr "Sales"; JStr "Q1"; JStr "in a group";
        JStr "Sales"; JStr "Q1"].
Proof. reflexivity. Qed.

Example deck_translated :
  Sample.translate_deck
    [JStr "Bonjour"; JStr "Monde"; JStr "Ventes"; JStr "T1"; JStr "dans un groupe";
     JStr "Ventes"; JStr "T1"]
  = Ok [JStr "Bonjour"; JStr "Monde"; JStr "Ventes"; JStr "T1"; JStr "dans un groupe";
        JStr "Ventes"; JStr "T1"].
Proof. vm_compute. reflexivity. Qed.

(** A map with a wrong [entry_count] is rejected and nothing is written. *)
Example miscounted_map_rejected :
  let out := apply_text_map Sample.miscounted_disk
               "deck.pptx" "deck.fr.json" "deck.fr.pptx" in
  out.2 = Raise (AssertionError "entry_count does not match actual number of entries")
  ∧ out.1 !! "deck.fr.pptx" = None.
Proof. split; vm_compute; reflexivity. Qed.

(** An entry with a slide index out of range, after two entries that apply,
    aborts the projection and nothing is written. *)
Example misaddressed_map_rejected :
  let out := apply_text_map Sample.misaddressed_disk
               "deck.pptx" "deck.fr.json" "deck.fr.pptx" in
  out.2 = Raise (AssertionError "slide_index out of range")
  ∧ out.1 !! "deck.fr.pptx" = None.
Proof. split; vm_compute; reflexivity. Qed.

(** The extractor walks the cells of a row, the projector checks the
    column against the grid: on a row with more cells than grid columns the
    entry of the extra cell is refused. *)
Example ragged_table_refused :
  wf_presentation Sample.ragged_deck = false
  ∧ (apply_text_map
       {[ "ragged.pptx" := PptxFile Sample.ragged_deck;
          "ragged.json" := JsonFile (text_map_of "ragged.pptx" Sample.ragged_deck) ]}
       "ragged.pptx" "ragged.json" "out.pptx").2
    = Raise (AssertionError "table_col out of range").
Proof. split; vm_compute; reflexivity. Qed.

End examples.


(** * Further properties of the scripts *)

(** ** Merging and flattening together *)

Section merge_flatten.
Import ExportTextArray ApplyTranslatedTexts.

Lemma load_texts_loop_exact es texts start acc :
  Forall2 (λ e t, text_field e = Some t) es texts →
  for_enumerate_r load_text es start acc = Ok (acc ++ texts).
Proof.
  intros H. revert start acc.
  induction H as [|e t es ts Het _ IH]; intros start acc; simpl.
  - by rewrite app_nil_r.
  - rewrite (load_text_ok _ _ _ t) by done. rewrite IH. by rewrite <- app_assoc.
Qed.

Lemma text_field_with_text e v : isinstance_dict e → text_field (with_text e v) = Some v.
Proof. intros [m ->]%isinstance_dict_inv. simpl. apply lookup_insert_eq. Qed.

Lemma merged_texts es vs :
  length es = length vs → Forall (λ e, isinstance_dict e) es →
  Forall2 (λ e t, text_field e = Some t) (zip_with with_text es vs) vs.
Proof.
  intros Hlen Hes. revert vs Hlen.
  induction Hes as [|e es He _ IH]; intros [|v vs] Hlen; simplify_eq/=; constructor.
  - by apply text_field_with_text.
  - by apply IH.
Qed.

Lemma merge_translations_ok (base : gmap string json) es vs :
  base !! "entries" = Some (JList es) →
  Forall (λ e, isinstance_dict e) es →
  Forall (λ v, isinstance_str v) vs →
  length vs = length es →
  merge_translations (JObj base) vs
  = Ok (JObj (<["entry_count" := JInt (len es)]>
               (<["entries" := JList (zip_with with_text es vs)]> base))).
Proof.
  intros Hentries Hes Hvs Hlen.
  rewrite (merge_translations_unfold _ es) by done.
  assert (len es = len vs) by (unfold len; lia).
  rewrite bool_decide_eq_true_2 by done. cbn [assert mbind result_bind].
  rewrite merge_loop_ok by done. cbn [mbind result_bind app].
  do 4 f_equal. unfold len. rewrite length_zip_with; lia.
Qed.

(** X1. Flattening what [merge_translations] returns gives back the
    translated values: the merge keeps every value, in order, as the [text]
    of the entry at the same position. *)
Theorem load_texts_of_merged (base : gmap string json) (es vs : list json)
    (fs : gmap string file) (path : string) :
  base !! "entries" = Some (JList es) →
  Forall (λ e, isinstance_dict e) es →
  Forall (λ v, isinstance_str v) vs →
  length vs = length es →
  ∃ merged,
    merge_translations (JObj base) vs = Ok merged
    ∧ load_texts (<[path := JsonFile merged]> fs) path = Ok vs.
Proof.
  intros Hentries Hes Hvs Hlen.
  set (merged := <["entry_count" := JInt (len es)]>
                   (<["entries" := JList (zip_with with_text es vs)]> base)).
  exists (JObj merged). split; [by apply merge_translations_ok|].
  rewrite (load_texts_unfold _ _ merged (zip_with with_text es vs)).
  - apply (load_texts_loop_exact _ vs 1 []). by apply merged_texts.
  - apply lookup_insert_eq.
  - unfold merged. rewrite lookup_insert_ne by done. apply lookup_insert_eq.
Qed.

Lemma load_texts_of_merged_witness :
  ∃ merged,
    merge_translations (JObj Sample.text_map) Sample.translated = Ok merged
    ∧ load_texts (<["fr.json" := JsonFile merged]> Sample.files) "fr.json"
      = Ok Sample.translated.
Proof.
  apply (load_texts_of_merged Sample.text_map Sample.entries Sample.translated
           Sample.files "fr.json").
  - reflexivity.
  - repeat constructor.
  - repeat constructor.
  - reflexivity.
Defined.

Lemma zip_with_with_text_twice es vs ws :
  length es = length vs →
  zip_with with_text (zip_with with_text es vs) ws = zip_with with_text es ws.
Proof.
  revert vs ws. induction es as [|e es IH]; intros [|v vs] [|w ws] Hlen; simplify_eq/=;
    try done.
  f_equal; [|by apply IH]. destruct e; try done. simpl. by rewrite insert_insert_eq.
Qed.

Lemma with_text_dict es vs :
  Forall (λ e, isinstance_dict e) es →
  Forall (λ e, isinstance_dict e) (zip_with with_text es vs).
Proof.
  intros Hes. revert vs. induction Hes as [|e es He _ IH]; intros [|v vs]; simpl;
    constructor; [|apply IH].
  by apply isinstance_dict_inv in He as [m ->].
Qed.

(** X2. A second merge overrides the first: merging new values into an
    already merged map gives what merging them into the base map gives, so
    only the last translation stays and nothing of the earlier one is left. *)
Theorem merge_translations_override (base : gmap string json) (es vs ws : list json) :
  base !! "entries" = Some (JList es) →
  Forall (λ e, isinstance_dict e) es →
  Forall (λ v, isinstance_str v) vs → length vs = length es →
  Forall (λ w, isinstance_str w) ws → length ws = length es →
  ∃ merged,
    merge_translations (JObj base) vs = Ok merged
    ∧ merge_translations merged ws = merge_translations (JObj base) ws.
Proof.
  intros Hentries Hes Hvs Hlenv Hws Hlenw. eexists.
  split; [by apply merge_translations_ok|].
  rewrite (merge_translations_ok _ (zip_with with_text es vs) ws);
    [| rewrite lookup_insert_ne by done; apply lookup_insert_eq
     | by apply with_text_dict | done | rewrite length_zip_with; lia].
  rewrite (merge_translations_ok base es ws) by done.
  rewrite zip_with_with_text_twice by lia.
  assert (Hl : len (zip_with with_text es vs) = len es)
    by (unfold len; rewrite length_zip_with; lia).
  rewrite Hl. do 2 f_equal. apply map_eq. intros k.
  destruct (decide (k = "entry_count")) as [->|Hk1]; [by rewrite !lookup_insert_eq|].
  rewrite !(lookup_insert_ne _ "entry_count") by done.
  destruct (decide (k = "entries")) as [->|Hk2]; [by rewrite !lookup_insert_eq|].
  by rewrite !lookup_insert_ne by done.
Qed.

Lemma merge_translations_override_witness :
  ∃ merged,
    merge_translations (JObj Sample.text_map) Sample.translated = Ok merged
    ∧ merge_translations merged [JStr "Hallo"; JStr "Welt"]
      = merge_translations (JObj Sample.text_map) [JStr "Hallo"; JStr "Welt"].
Proof.
  apply (merge_translations_override Sample.text_map Sample.entries Sample.translated
           [JStr "Hallo"; JStr "Welt"]).
  - reflexivity.
  - repeat constructor.
  - repeat constructor.
  - reflexivity.
  - repeat constructor.
  - reflexivity.
Defined.

Lemma for_enumerate_r_app {A St} (body : Z → A → St → result St) l1 l2 start st :
  for_enumerate_r body (l1 ++ l2) start st =
    match for_enumerate_r body l1 start st with
    | Ok st' => for_enumerate_r body l2 (start + len l1) st'
    | Raise e => Raise e
    end.
Proof.
  revert start st. induction l1 as [|x l1 IH]; intros start st; simpl.
  - change (len (@nil A)) with 0. by rewrite Z.add_0_r.
  - destruct (body start x st) as [st'|e]; [|done].
    rewrite IH, len_cons. by replace (start + 1 + len l1) with (start + (1 + len l1)) by lia.
Qed.

(** X3. When an entry object has no [text] key and all the entries before
    it have one, [load_texts] fails with the assertion that names the 1-based
    position of that entry, whatever comes after it. *)
Theorem load_texts_names_first_missing (fs : gmap string file) (source : string)
    (data : gmap string json) (pre post : list json) (entry : gmap string json) :
  fs !! source = Some (JsonFile (JObj data)) →
  data !! "entries" = Some (JList (pre ++ JObj entry :: post)) →
  Forall (λ e, is_Some (text_field e)) pre →
  entry !! "text" = None →
  load_texts fs source
  = Raise (AssertionError ("Entry " +:+ pretty (len pre + 1) +:+ " missing text field")).
Proof.
  intros Hfs Hes Hpre Hentry.
  rewrite (load_texts_unfold _ _ data _ Hfs Hes), for_enumerate_r_app.
  destruct (load_texts_loop_ok pre 1 [] Hpre) as (texts & -> & _).
  cbn [for_enumerate_r]. unfold load_text at 1. cbn [contains_text mbind result_bind].
  rewrite bool_decide_eq_false_2 by (rewrite Hentry; by intros [? ?]).
  cbn [assert mbind result_bind]. by rewrite (Z.add_comm 1).
Qed.

Lemma load_texts_names_first_missing_witness :
  load_texts {[ "broken.json" :=
                  JsonFile (JObj {[ "entries" :=
                    JList (Sample.entries ++ JObj {[ "run_index" := JInt 3 ]}
                                          :: Sample.entries) ]}) ]}
    "broken.json"
  = Raise (AssertionError ("Entry " +:+ pretty (len Sample.entries + 1)
                           +:+ " missing text field")).
Proof.
  apply (load_texts_names_first_missing _ "broken.json"
           {[ "entries" := JList (Sample.entries ++ JObj {[ "run_index" := JInt 3 ]}
                                                 :: Sample.entries) ]}
           Sample.entries Sample.entries {[ "run_index" := JInt 3 ]}).
  - reflexivity.
  - reflexivity.
  - repeat constructor; by eexists.
  - reflexivity.
Defined.

End merge_flatten.


(** ** What [set_run_text] writes *)

Section set_run_text.
Import ApplyTextMapToPptx.

Lemma index_to_nat {A} (l : list A) (i : Z) :
  1 ≤ i → index l (i - 1) = l !! Z.to_nat (i - 1).
Proof. intros Hi. unfold index. case_decide; [done | lia]. Qed.

(** An assignment to a run that returns has stored the escaped string. *)
Lemma Run_set_text_Ok r text r' :
  Run_set_text r text = (r', Ok tt) →
  ∃ t, text = JStr t ∧ is_valid_xml_utf8 (escape_ctrl_chars t) = true
       ∧ r' = {| run_text := escape_ctrl_chars t |}.
Proof.
  destruct text as [| | |t| |]; try done. unfold Run_set_text, set_element_text.
  destruct (is_valid_xml_utf8 (escape_ctrl_chars t)) eqn:Hv; [|done].
  intros [= <-]. by exists t.
Qed.

(** [set_run_text] either raises before it touches the text frame, or is
    the assignment to the run its indices name. *)
Lemma set_run_text_cases tf pi ri text :
  (∃ e, set_run_text tf pi ri text = (tf, Raise e))
  ∨ ∃ i j p r,
      as_int pi = Some (Z.of_nat i + 1) ∧ as_int ri = Some (Z.of_nat j + 1)
      ∧ paragraphs tf !! i = Some p ∧ runs p !! j = Some r
      ∧ set_run_text tf pi ri text
        = ({| paragraphs :=
                <[i := {| runs := <[j := (Run_set_text r text).1]> (runs p) |}]>
                  (paragraphs tf) |},
           (Run_set_text r text).2).
Proof.
  unfold set_run_text, as_index.
  destruct (as_int pi) as [piz|] eqn:Hpi; [|left; by eexists]. cbn [mbind result_bind].
  unfold assert.
  destruct (bool_decide_reflect (1 ≤ piz ≤ len (paragraphs tf))) as [Hpr|];
    [|left; by eexists].
  cbn [mbind result_bind]. rewrite index_to_nat by lia.
  destruct (paragraphs tf !! Z.to_nat (piz - 1)) as [p|] eqn:Hp; [|left; by eexists].
  destruct (as_int ri) as [riz|] eqn:Hri; [|left; by eexists]. cbn [mbind result_bind].
  destruct (bool_decide_reflect (1 ≤ riz ≤ len (runs p))) as [Hrr|]; [|left; by eexists].
  cbn [mbind result_bind]. rewrite index_to_nat by lia.
  destruct (runs p !! Z.to_nat (riz - 1)) as [r|] eqn:Hr; [|left; by eexists].
  right. exists (Z.to_nat (piz - 1)), (Z.to_nat (riz - 1)), p, r.
  split_and!; try done; try (f_equal; lia). by destruct (Run_set_text r text).
Qed.

Lemma set_run_text_Ok tf pi ri text tf' :
  set_run_text tf pi ri text = (tf', Ok tt) →
  ∃ i j p t,
    as_int pi = Some (Z.of_nat i + 1) ∧ as_int ri = Some (Z.of_nat j + 1)
    ∧ text = JStr t ∧ is_valid_xml_utf8 (escape_ctrl_chars t) = true
    ∧ paragraphs tf !! i = Some p ∧ (j < length (runs p))%nat
    ∧ tf' = {| paragraphs :=
                 <[i := {| runs := <[j := {| run_text := escape_ctrl_chars t |}]> (runs p) |}]>
                   (paragraphs tf) |}.
Proof.
  intros Hset.
  destruct (set_run_text_cases tf pi ri text)
    as [[e He]|(i & j & p & r & Hpi & Hri & Hp & Hr & Hrun)]; [congruence|].
  rewrite Hrun in Hset. destruct (Run_set_text r text) as [r' o] eqn:Hassign.
  cbn [fst snd] in Hset. injection Hset as <- ->.
  apply Run_set_text_Ok in Hassign as (t & -> & Hvalid & ->).
  exists i, j, p, t. split_and!; try done. by eapply lookup_lt_Some.
Qed.

Lemma run_at_insert tf i j p r' i' j' :
  paragraphs tf !! i = Some p → (j < length (runs p))%nat →
  run_at {| paragraphs := <[i := {| runs := <[j := r']> (runs p) |}]> (paragraphs tf) |}
         i' j'
  = if decide (i' = i ∧ j' = j) then Some r' else run_at tf i' j'.
Proof.
  intros Hp Hj. unfold run_at. cbn [paragraphs].
  pose proof (lookup_lt_Some _ _ _ Hp) as Hi.
  destruct (decide (i' = i)) as [->|Hi'].
  - rewrite list_lookup_insert_eq by done. rewrite Hp. cbn [mbind option_bind runs].
    destruct (decide (j' = j)) as [->|Hj'].
    + rewrite list_lookup_insert_eq by done. by rewrite decide_True.
    + rewrite list_lookup_insert_ne by done. by rewrite decide_False by (by intros [_ ?]).
  - rewrite list_lookup_insert_ne by done. by rewrite decide_False by (by intros [? _]).
Qed.

Lemma blank_text_frame_insert tf i j p r' :
  paragraphs tf !! i = Some p → (j < length (runs p))%nat →
  blank_text_frame
    {| paragraphs := <[i := {| runs := <[j := r']> (runs p) |}]> (paragraphs tf) |}
  = blank_text_frame tf.
Proof.
  intros Hp Hj. unfold blank_text_frame. cbn [paragraphs]. f_equal.
  rewrite list_fmap_insert. apply list_insert_id.
  rewrite list_lookup_fmap, Hp. cbn [fmap option_fmap option_map runs]. do 2 f_equal.
  rewrite list_fmap_insert. symmetry. apply list_insert_id.
  rewrite list_lookup_fmap. by destruct (lookup_lt_is_Some_2 _ _ Hj) as [r ->].
Qed.

(** X4. [set_run_text] checks the paragraph index, then the run index,
    each 1-based against the actual length, and fails with the assertion of
    the first that is out of range, the text frame untouched.  When both are
    in range the call is the assignment [run.text = text] to that one run:
    every other run is as before and no paragraph or run is added or removed,
    however the assignment ends.  The assignment itself ends in one of three
    ways.  A string is stored with its control characters escaped (tab and
    line feed apart) when what is left is XML compatible, so a plain string
    is stored as it is.  A string that is not XML compatible once escaped
    (one with U+FFFE, say) raises [ValueError], and the run is left with the
    empty text: the old text is gone.  A value that is not a string raises
    [TypeError] and leaves the run as it was. *)
Theorem set_run_text_effect (tf : TextFrame) (pi ri : Z) (text : json) :
  let res := set_run_text tf (JInt pi) (JInt ri) text in
  let i := Z.to_nat (pi - 1) in
  let j := Z.to_nat (ri - 1) in
  (¬ (1 ≤ pi ≤ len (paragraphs tf)) →
     res = (tf, Raise (AssertionError "paragraph_index out of range")))
  ∧ (∀ p, 1 ≤ pi ≤ len (paragraphs tf) → paragraphs tf !! i = Some p →
          ¬ (1 ≤ ri ≤ len (runs p)) →
          res = (tf, Raise (AssertionError "run_index out of range")))
  ∧ (∀ p, 1 ≤ pi ≤ len (paragraphs tf) → paragraphs tf !! i = Some p →
          1 ≤ ri ≤ len (runs p) →
          (∀ i' j', ¬ (i' = i ∧ j' = j) → run_at res.1 i' j' = run_at tf i' j')
          ∧ blank_text_frame res.1 = blank_text_frame tf
          ∧ (∀ t, text = JStr t → is_valid_xml_utf8 (escape_ctrl_chars t) = true →
                  res.2 = Ok tt
                  ∧ run_at res.1 i j = Some {| run_text := escape_ctrl_chars t |})
          ∧ (∀ t, text = JStr t → plain t = true →
                  res.2 = Ok tt ∧ run_at res.1 i j = Some {| run_text := t |})
          ∧ (∀ t, text = JStr t → is_valid_xml_utf8 (escape_ctrl_chars t) = false →
                  res.2 = Raise xml_incompatible
                  ∧ run_at res.1 i j = Some {| run_text := "" |})
          ∧ (isinstance_str text = false → res = (tf, Raise TypeError))).
Proof.
  intros res i j. split_and!.
  - intros Hpi. subst res. unfold set_run_text. cbn [as_index as_int mbind result_bind].
    by rewrite (bool_decide_eq_false_2 _ Hpi).
  - intros p Hpi Hp Hri. subst res i. unfold set_run_text.
    cbn [as_index as_int mbind result_bind].
    rewrite (bool_decide_eq_true_2 _ Hpi). cbn [assert].
    rewrite index_to_nat, Hp by lia. cbn [as_index as_int mbind result_bind].
    by rewrite (bool_decide_eq_false_2 _ Hri).
  - intros p Hpi Hp Hri.
    assert (Hj : (j < length (runs p))%nat) by (unfold len in Hri; lia).
    destruct (lookup_lt_is_Some_2 _ _ Hj) as [r Hr].
    assert (Hres : res
                   = ({| paragraphs :=
                           <[i := {| runs := <[j := (Run_set_text r text).1]> (runs p) |}]>
                             (paragraphs tf) |},
                      (Run_set_text r text).2)).
    { subst res. replace (JInt pi) with (JInt (Z.of_nat i + 1)) by (f_equal; lia).
      replace (JInt ri) with (JInt (Z.of_nat j + 1)) by (f_equal; lia).
      by apply set_run_text_at. }
    rewrite Hres. cbn [fst snd]. split_and!.
    + intros i' j' Hij. rewrite run_at_insert by done. by rewrite decide_False.
    + by apply blank_text_frame_insert.
    + intros t -> Hvalid. unfold Run_set_text, set_element_text. rewrite Hvalid.
      cbn [fst snd default from_option id]. split; [done|].
      rewrite run_at_insert by done. by rewrite decide_True.
    + intros t -> Hplain. rewrite (Run_set_text_plain _ _ Hplain). cbn [fst snd].
      split; [done|]. rewrite run_at_insert by done. by rewrite decide_True.
    + intros t -> Hvalid. unfold Run_set_text, set_element_text. rewrite Hvalid.
      cbn [fst snd default from_option id]. split; [done|].
      rewrite run_at_insert by done. by rewrite decide_True.
    + intros Htext. destruct text as [| | |t| |]; try done; cbn [Run_set_text fst snd];
        f_equal; destruct tf as [ps]; cbn [paragraphs] in *; f_equal;
        apply list_insert_id; rewrite Hp; f_equal; destruct p as [rs]; cbn [runs] in *;
        f_equal; symmetry; by apply list_insert_id.
Qed.

(** A carriage return is stored as seven characters of plain text; U+FFFE
    is refused, and the text the run had is lost. *)
Example carriage_return_is_escaped :
  set_run_text (Sample.text_frame_of [["Hello"]]) (JInt 1) (JInt 1)
    (JStr ("a" +:+ Sample.cr +:+ "b"))
  = (Sample.text_frame_of [["a_x000D_b"]], Ok tt).
Proof. reflexivity. Qed.

Example noncharacter_is_refused :
  set_run_text (Sample.text_frame_of [["Hello"]]) (JInt 1) (JInt 1) (JStr Sample.u_fffe)
  = (Sample.text_frame_of [[""]], Raise xml_incompatible).
Proof. reflexivity. Qed.

End set_run_text.


(** ** How an entry is applied, step by step *)

Section entry_cases.
Import ApplyTextMapToPptx.

Lemma reads_lift {A} (r : result A) : reads (lift r).
Proof. by intros mem. Qed.

Lemma reads_get_doc : reads get_doc.
Proof. by intros mem. Qed.

Lemma reads_get_chart_nodes key : reads (get_chart_nodes key).
Proof.
  intros mem. unfold get_chart_nodes. by destruct (chart_cache mem !! key).
Qed.

(** Each function either raises before it touches the shape, or is the
    call of [set_run_text] it leads to. *)
Lemma apply_text_frame_entry_cases shape (e : gmap string json) :
  (∃ err, apply_text_frame_entry shape e = (shape, Raise err))
  ∨ ∃ tf pi ri text,
      text_frame shape = Some tf
      ∧ e !! "paragraph_index" = Some pi ∧ e !! "run_index" = Some ri
      ∧ e !! "text" = Some text
      ∧ apply_text_frame_entry shape e
        = (with_text_frame shape (set_run_text tf pi ri text).1,
           (set_run_text tf pi ri text).2).
Proof.
  unfold apply_text_frame_entry, getitem.
  destruct (text_frame shape) as [tf|] eqn:Htf; [|left; by eexists].
  destruct (e !! "paragraph_index") as [pi|]; [|left; by eexists].
  destruct (e !! "run_index") as [ri|]; [|left; by eexists].
  destruct (e !! "text") as [text|]; [|left; by eexists]. cbn [mbind result_bind].
  right. exists tf, pi, ri, text. split_and!; try done.
  by destruct (set_run_text tf pi ri text).
Qed.

Lemma apply_text_frame_entry_Ok shape (e : gmap string json) shape' :
  apply_text_frame_entry shape e = (shape', Ok tt) →
  ∃ tf pi ri text tf',
    text_frame shape = Some tf
    ∧ e !! "paragraph_index" = Some pi ∧ e !! "run_index" = Some ri
    ∧ e !! "text" = Some text
    ∧ set_run_text tf pi ri text = (tf', Ok tt)
    ∧ shape' = with_text_frame shape tf'.
Proof.
  intros Happ.
  destruct (apply_text_frame_entry_cases shape e)
    as [[err Herr]|(tf & pi & ri & text & Htf & Hpi & Hri & Ht & Hrun)]; [congruence|].
  rewrite Hrun in Happ. destruct (set_run_text tf pi ri text) as [tf' o] eqn:Hset.
  cbn [fst snd] in Happ. injection Happ as <- ->.
  by exists tf, pi, ri, text, tf'.
Qed.

Lemma apply_table_cell_entry_cases shape (e : gmap string json) :
  (∃ err, apply_table_cell_entry shape e = (shape, Raise err))
  ∨ ∃ tbl r c row cell vr vc pi ri text,
      table shape = Some tbl
      ∧ e !! "table_row" = Some vr ∧ as_int vr = Some (Z.of_nat r + 1)
      ∧ e !! "table_col" = Some vc ∧ as_int vc = Some (Z.of_nat c + 1)
      ∧ rows tbl !! r = Some row ∧ cells row !! c = Some cell ∧ (c < columns tbl)%nat
      ∧ e !! "paragraph_index" = Some pi ∧ e !! "run_index" = Some ri
      ∧ e !! "text" = Some text
      ∧ apply_table_cell_entry shape e
        = (with_table shape
             {| rows :=
                  <[r := {| cells :=
                              <[c := {| cell_text_frame :=
                                          (set_run_text (cell_text_frame cell) pi ri text).1 |}]>
                                (cells row) |}]> (rows tbl);
                columns := columns tbl |},
           (set_run_text (cell_text_frame cell) pi ri text).2).
Proof.
  unfold apply_table_cell_entry.
  destruct (table shape) as [tbl|] eqn:Htbl; [|left; by eexists].
  destruct (e !! "table_row") as [vr|] eqn:Hvr; cbn [from_option id as_int];
    [|left; by eexists].
  destruct (as_int vr) as [r|] eqn:Hr; [|left; by eexists].
  destruct (e !! "table_col") as [vc|] eqn:Hvc; cbn [from_option id as_int];
    [|left; by eexists].
  destruct (as_int vc) as [c|] eqn:Hc; [|left; by eexists].
  unfold assert.
  destruct (bool_decide_reflect (1 ≤ r ≤ len (rows tbl))) as [Hrr|]; [|left; by eexists].
  cbn [mbind result_bind].
  destruct (bool_decide_reflect (1 ≤ c ≤ Z.of_nat (columns tbl))) as [Hcr|];
    [|left; by eexists].
  cbn [mbind result_bind].
  rewrite index_to_nat by lia.
  destruct (rows tbl !! Z.to_nat (r - 1)) as [row|] eqn:Hrow; [|left; by eexists].
  rewrite index_to_nat by lia.
  destruct (cells row !! Z.to_nat (c - 1)) as [cell|] eqn:Hcell; [|left; by eexists].
  unfold getitem.
  destruct (e !! "paragraph_index") as [pi|]; [|left; by eexists].
  destruct (e !! "run_index") as [ri|]; [|left; by eexists].
  destruct (e !! "text") as [text|]; [|left; by eexists]. cbn [mbind result_bind].
  right.
  exists tbl, (Z.to_nat (r - 1)), (Z.to_nat (c - 1)), row, cell, vr, vc, pi, ri, text.
  split_and!; try done; [rewrite Hr; f_equal; lia | rewrite Hc; f_equal; lia | lia |].
  by destruct (set_run_text (cell_text_frame cell) pi ri text).
Qed.

Lemma apply_table_cell_entry_Ok shape (e : gmap string json) shape' :
  apply_table_cell_entry shape e = (shape', Ok tt) →
  ∃ tbl r c row cell vr vc pi ri t tf',
    table shape = Some tbl
    ∧ e !! "table_row" = Some vr ∧ as_int vr = Some (Z.of_nat r + 1)
    ∧ e !! "table_col" = Some vc ∧ as_int vc = Some (Z.of_nat c + 1)
    ∧ rows tbl !! r = Some row ∧ cells row !! c = Some cell ∧ (c < columns tbl)%nat
    ∧ e !! "paragraph_index" = Some pi ∧ e !! "run_index" = Some ri
    ∧ e !! "text" = Some t
    ∧ set_run_text (cell_text_frame cell) pi ri t = (tf', Ok tt)
    ∧ shape' = with_table shape
                 {| rows := <[r := {| cells := <[c := {| cell_text_frame := tf' |}]>
                                                  (cells row) |}]> (rows tbl);
                    columns := columns tbl |}.
Proof.
  intros Happ.
  destruct (apply_table_cell_entry_cases shape e)
    as [[err Herr]|(tbl & r & c & row & cell & vr & vc & pi & ri & text & Htbl & Hvr & Hr
                    & Hvc & Hc & Hrow & Hcell & Hcol & Hpi & Hri & Ht & Hrun)];
    [congruence|].
  rewrite Hrun in Happ.
  destruct (set_run_text (cell_text_frame cell) pi ri text) as [tf' o] eqn:Hset.
  cbn [fst snd] in Happ. injection Happ as <- ->.
  by exists tbl, r, c, row, cell, vr, vc, pi, ri, text, tf'.
Qed.

(** [apply_entry] either raises with the memory as it was, or has found
    the shape and is the call for the container the entry names, the shape
    put back where it was found. *)
Lemma apply_entry_cases (e : gmap string json) mem :
  (∃ err, apply_entry e mem = (mem, Raise err))
  ∨ ∃ si v slide chain shape c,
      e !! "slide_index" = Some v ∧ as_int v = Some (Z.of_nat si + 1)
      ∧ slides (doc mem) !! si = Some slide
      ∧ e !! "shape_index_chain" = Some (JList chain)
      ∧ resolve_shape slide chain = Ok shape
      ∧ e !! "container" = Some (JStr c)
      ∧ ((c = "text_frame"
          ∧ apply_entry e mem
            = ((set_doc (store (doc mem) si (positions chain)
                           (apply_text_frame_entry shape e).1) mem).1,
               (apply_text_frame_entry shape e).2))
         ∨ (c = "table_cell"
            ∧ apply_entry e mem
              = ((set_doc (store (doc mem) si (positions chain)
                             (apply_table_cell_entry shape e).1) mem).1,
                 (apply_table_cell_entry shape e).2))
         ∨ (c = "chart_part" ∧ apply_entry e mem = apply_chart_entry shape e mem)).
Proof.
  destruct (apply_entry e mem) as [mem' o] eqn:Hrun. revert Hrun.
  unfold apply_entry, getitem. unfold mbind at 1 2, M_bind at 1 2, get_doc, lift at 1.
  cbv beta iota.
  destruct (e !! "slide_index") as [v|] eqn:Hv; [|intros [= <- <-]; left; by eexists].
  destruct (as_int v) as [siz|] eqn:Hsiz; [|intros [= <- <-]; left; by eexists].
  unfold mbind at 1, M_bind at 1, lift at 1, assert.
  case_bool_decide as Hr; [|intros [= <- <-]; left; by eexists]. cbv beta iota.
  destruct (index (slides (doc mem)) (siz - 1)) as [slide|] eqn:Hslide;
    [|intros [= <- <-]; left; by eexists].
  unfold mbind at 1, M_bind at 1, lift at 1. cbv beta iota.
  destruct (e !! "shape_index_chain") as [[| | | |chain|]|] eqn:Hchain;
    try (intros [= <- <-]; left; by eexists).
  unfold mbind at 1 2, M_bind at 1 2, lift at 1 2. cbv beta iota.
  destruct (resolve_shape slide chain) as [shape|] eqn:Hshape;
    [|intros [= <- <-]; left; by eexists].
  destruct (e !! "container") as [[| | |c| |]|] eqn:Hc;
    try (intros [= <- <-]; left; by eexists).
  rewrite index_to_nat in Hslide by lia.
  repeat case_bool_decide; subst; [| | |intros [= <- <-]; left; by eexists];
    intros Hrun; right;
    exists (Z.to_nat (siz - 1)), v, slide, chain, shape;
    replace (Z.of_nat (Z.to_nat (siz - 1)) + 1) with siz by lia.
  - exists "text_frame". split_and!; try done. left. split; [done|].
    destruct (apply_text_frame_entry shape e) as [shape' outcome].
    by injection Hrun as <- <-.
  - exists "table_cell". split_and!; try done. right. left. split; [done|].
    destruct (apply_table_cell_entry shape e) as [shape' outcome].
    by injection Hrun as <- <-.
  - exists "chart_part". split_and!; try done. right. right. done.
Qed.

(** What a successful [apply_entry] has gone through. *)
Lemma apply_entry_Ok (e : gmap string json) mem mem' :
  apply_entry e mem = (mem', Ok tt) →
  ∃ si v slide chain shape c,
    e !! "slide_index" = Some v ∧ as_int v = Some (Z.of_nat si + 1)
    ∧ slides (doc mem) !! si = Some slide
    ∧ e !! "shape_index_chain" = Some (JList chain)
    ∧ resolve_shape slide chain = Ok shape
    ∧ e !! "container" = Some (JStr c)
    ∧ ((c = "text_frame"
        ∧ ∃ shape', apply_text_frame_entry shape e = (shape', Ok tt)
                    ∧ mem' = (set_doc (store (doc mem) si (positions chain) shape') mem).1)
       ∨ (c = "table_cell"
          ∧ ∃ shape', apply_table_cell_entry shape e = (shape', Ok tt)
                      ∧ mem' = (set_doc (store (doc mem) si (positions chain) shape') mem).1)
       ∨ (c = "chart_part" ∧ apply_chart_entry shape e mem = (mem', Ok tt))).
Proof.
  intros Hrun.
  destruct (apply_entry_cases e mem)
    as [[err Herr]|(si & v & slide & chain & shape & c & Hv & Hsi & Hslide & Hchain
                    & Hshape & Hc & Hcase)]; [congruence|].
  exists si, v, slide, chain, shape, c. split_and!; try done.
  destruct Hcase as [[-> Happ]|[[-> Happ]|[-> Happ]]]; rewrite Happ in Hrun.
  - left. split; [done|]. destruct (apply_text_frame_entry shape e) as [shape' o].
    cbn [fst snd] in Hrun. injection Hrun as <- ->. by exists shape'.
  - right. left. split; [done|]. destruct (apply_table_cell_entry shape e) as [shape' o].
    cbn [fst snd] in Hrun. injection Hrun as <- ->. by exists shape'.
  - right. right. done.
Qed.

End entry_cases.


(** ** Projection changes texts and nothing else *)

Section structure.
Import ApplyTextMapToPptx.

Local Ltac same_list :=
  first [apply list_insert_id | symmetry; apply list_insert_id].

Lemma set_run_text_structure tf pi ri text :
  blank_text_frame (set_run_text tf pi ri text).1 = blank_text_frame tf.
Proof.
  destruct (set_run_text_cases tf pi ri text)
    as [[e ->]|(i & j & p & r & _ & _ & Hp & Hr & ->)]; [done|].
  cbn [fst]. apply blank_text_frame_insert; [done | by eapply lookup_lt_Some].
Qed.

Lemma blank_shape_unfold s :
  blank_shape s
  = mkShape (shape_id s) (name s) (shape_type s)
            (blank_text_frame <$> text_frame s) (blank_table <$> table s) (chart s)
            (blank_shape <$> shapes s).
Proof. by destruct s. Qed.

Lemma apply_text_frame_entry_structure shape e :
  blank_shape (apply_text_frame_entry shape e).1 = blank_shape shape.
Proof.
  destruct (apply_text_frame_entry_cases shape e)
    as [[err ->]|(tf & pi & ri & text & Htf & _ & _ & _ & ->)]; [done|].
  cbn [fst]. rewrite !blank_shape_unfold. unfold with_text_frame. cbn. rewrite Htf. cbn.
  by rewrite set_run_text_structure.
Qed.

Lemma apply_table_cell_entry_structure shape e :
  blank_shape (apply_table_cell_entry shape e).1 = blank_shape shape.
Proof.
  destruct (apply_table_cell_entry_cases shape e)
    as [[err ->]|(tbl & r & c & row & cell & vr & vc & pi & ri & text & Htbl & _ & _ & _ & _
                  & Hrow & Hcell & _ & _ & _ & _ & ->)]; [done|].
  cbn [fst]. rewrite !blank_shape_unfold. unfold with_table. cbn. rewrite Htbl. cbn.
  do 2 f_equal. unfold blank_table. cbn [rows columns]. f_equal.
  rewrite list_fmap_insert. same_list.
  rewrite list_lookup_fmap, Hrow. cbn [fmap option_fmap option_map cells]. do 2 f_equal.
  rewrite list_fmap_insert. same_list.
  rewrite list_lookup_fmap, Hcell. cbn. by rewrite set_run_text_structure.
Qed.

Lemma store_shape_structure top chain shape shape' :
  resolves top chain shape → blank_shape shape' = blank_shape shape →
  blank_shape <$> store_shape top (positions chain) shape' = blank_shape <$> top.
Proof.
  intros Hres Hblank.
  induction Hres as [cur idx i target Hi Hr Ht
                    |cur idx i group rest target Hi Hr Hg Hgrp Hne Hres IH].
  - simpl. rewrite Hi. simpl. rewrite index_to_nat in Ht by lia.
    rewrite list_fmap_insert. same_list.
    by rewrite list_lookup_fmap, Ht, Hblank.
  - unfold positions in *. rewrite fmap_cons, Hi. cbn [from_option id].
    rewrite index_to_nat in Hg by lia.
    rewrite store_shape_cons by by destruct rest.
    rewrite Hg, list_fmap_insert. same_list.
    rewrite list_lookup_fmap, Hg. cbn [fmap option_fmap option_map]. f_equal.
    rewrite !blank_shape_unfold. unfold with_shapes. cbn. by rewrite IH.
Qed.

Lemma store_structure d si slide chain shape shape' :
  slides d !! si = Some slide → resolves (slide_shapes slide) chain shape →
  blank_shape shape' = blank_shape shape →
  blank_presentation (store d si (positions chain) shape') = blank_presentation d.
Proof.
  intros Hslide Hres Hblank. unfold store. rewrite Hslide.
  unfold blank_presentation. cbn [slides chart_parts]. f_equal.
  rewrite list_fmap_insert. same_list.
  rewrite list_lookup_fmap, Hslide. cbn [fmap option_fmap option_map]. f_equal.
  unfold blank_slide. cbn. by rewrite (store_shape_structure _ _ shape).
Qed.

Lemma set_node_text_structure node text mem :
  blank_presentation (doc (set_node_text node text mem).1) = blank_presentation (doc mem).
Proof.
  unfold set_node_text. destruct node as [p i]. unfold part_nodes.
  destruct (chart_parts (doc mem) !! p) as [nodes|] eqn:Hp; cbn [from_option id default];
    [|by rewrite lookup_nil].
  destruct (nodes !! i) as [n|] eqn:Hn; [|done].
  destruct (set_element_text text) as [t outcome].
  cbn [set_doc fst doc]. unfold blank_presentation. cbn [slides chart_parts]. f_equal.
  rewrite fmap_insert. apply insert_id.
  rewrite lookup_fmap, Hp. cbn [fmap option_fmap option_map]. f_equal.
  rewrite list_fmap_insert. same_list.
  by rewrite list_lookup_fmap, Hn.
Qed.

Lemma apply_chart_entry_structure shape e mem :
  blank_presentation (doc (apply_chart_entry shape e mem).1)
  = blank_presentation (doc mem).
Proof.
  unfold apply_chart_entry. destruct (chart shape) as [p|]; [|done].
  unfold mbind, M_bind, lift. cbv beta iota.
  destruct (getitem e "chart_partname") as [pn|]; [|done].
  destruct (assert _ _); [|done].
  pose proof (reads_get_chart_nodes p mem) as Hget.
  destruct (get_chart_nodes p mem) as [mem1 [nodes|]]; cbn [fst] in Hget |- *;
    [|by rewrite Hget].
  rewrite <- Hget.
  destruct (getitem e "chart_text_index") as [ci|]; [|done].
  destruct (as_int ci) as [k|]; [|done].
  destruct (assert _ _); [|done]. destruct (assert _ _); [|done].
  destruct (getitem e "text") as [t|]; [|done].
  destruct (index nodes (k - 1)) as [node|]; [|done].
  apply set_node_text_structure.
Qed.

(** Whatever the entry and however the call ends, the structure stays. *)
Lemma apply_entry_structure e mem :
  blank_presentation (doc (apply_entry e mem).1) = blank_presentation (doc mem).
Proof.
  destruct (apply_entry_cases e mem)
    as [[err ->]|(si & v & slide & chain & shape & c & _ & _ & Hslide & _ & Hshape & _
                  & Hcase)]; [done|].
  apply resolve_shape_iff in Hshape.
  destruct Hcase as [[_ ->]|[[_ ->]|[_ ->]]].
  - cbn [set_doc fst doc]. eapply store_structure; try done.
    apply apply_text_frame_entry_structure.
  - cbn [set_doc fst doc]. eapply store_structure; try done.
    apply apply_table_cell_entry_structure.
  - apply apply_chart_entry_structure.
Qed.

Lemma apply_entries_structure es mem :
  blank_presentation (doc (apply_entries es mem).1) = blank_presentation (doc mem).
Proof.
  revert mem. induction es as [|e es IH]; intros mem; [done|].
  cbn [apply_entries]. destruct e as [| | | | |m]; try done.
  unfold mbind, M_bind. pose proof (apply_entry_structure m mem) as H.
  destruct (apply_entry m mem) as [mem1 [[]|err]]; cbn [fst] in *; [|done].
  by rewrite IH.
Qed.

(** X6. Projection changes texts and nothing else: when [apply_text_map]
    returns, the presentation it has written has the structure of the one it
    read, that is the same slides, shapes, tables, paragraphs, runs and chart
    text nodes once every text is taken out, whatever the entries of the map
    were. *)
Theorem apply_text_map_same_structure (fs : gmap string file)
    (pptx_path map_path output_path : string) :
  (apply_text_map fs pptx_path map_path output_path).2 = Ok tt →
  ∃ d d',
    fs !! pptx_path = Some (PptxFile d)
    ∧ (apply_text_map fs pptx_path map_path output_path).1
      = <[output_path := PptxFile d']> fs
    ∧ same_structure d' d.
Proof.
  unfold apply_text_map, load_presentation.
  destruct (fs !! pptx_path) as [[d| |]|] eqn:Hd; try done.
  destruct (load_json fs map_path) as [tm|] eqn:Htm; [|done].
  destruct (load_json_entries _ _ _ Htm) as [es Hes].
  set (mem := {| doc := d; chart_cache := ∅; xpath_calls := [] |}).
  destruct (apply_loaded_cases tm es mem Hes) as [Hrun|[msg Hrun]]; rewrite Hrun; [|done].
  pose proof (apply_entries_structure es mem) as Hs.
  destruct (apply_entries es mem) as [mem' [[]|err]]; [|done].
  unfold write_file. destruct (is_dir fs output_path); [done|].
  intros _. by exists d, (doc mem').
Qed.

Lemma apply_text_map_same_structure_witness :
  ∃ d d',
    Sample.translated_disk !! "deck.pptx" = Some (PptxFile d)
    ∧ (apply_text_map Sample.translated_disk "deck.pptx" "deck.fr.json" "deck.fr.pptx").1
      = <["deck.fr.pptx" := PptxFile d']> Sample.translated_disk
    ∧ same_structure d' d.
Proof.
  apply (apply_text_map_same_structure Sample.translated_disk
           "deck.pptx" "deck.fr.json" "deck.fr.pptx").
  vm_compute. reflexivity.
Defined.

End structure.


(** ** An entry with a plain text is applied whole or not at all *)

Section entry_atomic.
Import ApplyTextMapToPptx.

Lemma set_run_text_plain_raise tf pi ri t :
  plain t = true → is_Raise (set_run_text tf pi ri (JStr t)).2 →
  (set_run_text tf pi ri (JStr t)).1 = tf.
Proof.
  intros Hplain.
  destruct (set_run_text_cases tf pi ri (JStr t))
    as [[e ->]|(i & j & p & r & _ & _ & _ & _ & ->)]; [done|].
  rewrite (Run_set_text_plain _ _ Hplain). by intros [e He].
Qed.

Lemma apply_text_frame_entry_plain_raise shape (e : gmap string json) t :
  e !! "text" = Some (JStr t) → plain t = true →
  is_Raise (apply_text_frame_entry shape e).2 → (apply_text_frame_entry shape e).1 = shape.
Proof.
  intros Ht Hplain.
  destruct (apply_text_frame_entry_cases shape e)
    as [[err ->]|(tf & pi & ri & text & Htf & _ & _ & Htext & ->)]; [done|].
  rewrite Ht in Htext. injection Htext as <-. cbn [fst snd]. intros Hraise.
  rewrite (set_run_text_plain_raise _ _ _ _ Hplain Hraise).
  destruct shape; cbn in *. by subst.
Qed.

Lemma apply_table_cell_entry_plain_raise shape (e : gmap string json) t :
  e !! "text" = Some (JStr t) → plain t = true →
  is_Raise (apply_table_cell_entry shape e).2 → (apply_table_cell_entry shape e).1 = shape.
Proof.
  intros Ht Hplain.
  destruct (apply_table_cell_entry_cases shape e)
    as [[err ->]|(tbl & r & c & row & cell & vr & vc & pi & ri & text & Htbl & _ & _ & _ & _
                  & Hrow & Hcell & _ & _ & _ & Htext & ->)]; [done|].
  rewrite Ht in Htext. injection Htext as <-. cbn [fst snd]. intros Hraise.
  rewrite (set_run_text_plain_raise _ _ _ _ Hplain Hraise).
  replace {| cell_text_frame := cell_text_frame cell |} with cell by by destruct cell.
  rewrite (list_insert_id _ _ _ Hcell).
  replace {| cells := cells row |} with row by by destruct row.
  rewrite (list_insert_id _ _ _ Hrow).
  destruct shape as [? ? ? ? tb ? ?]; cbn in *. subst tb. unfold with_table. cbn.
  by destruct tbl.
Qed.

Lemma apply_chart_entry_plain_raise shape (e : gmap string json) t mem :
  e !! "text" = Some (JStr t) → plain t = true →
  is_Raise (apply_chart_entry shape e mem).2 →
  doc (apply_chart_entry shape e mem).1 = doc mem.
Proof.
  intros Ht Hplain. unfold apply_chart_entry. destruct (chart shape) as [p|]; [|done].
  unfold mbind, M_bind, lift. cbv beta iota.
  destruct (getitem e "chart_partname") as [pn|]; [|done].
  destruct (assert _ _); [|done].
  pose proof (reads_get_chart_nodes p mem) as Hget.
  destruct (get_chart_nodes p mem) as [mem1 [nodes|]]; cbn [fst] in Hget |- *; [|done].
  rewrite <- Hget.
  destruct (getitem e "chart_text_index") as [ci|]; [|done].
  destruct (as_int ci) as [k|]; [|done].
  destruct (assert _ _); [|done]. destruct (assert _ _); [|done].
  rewrite (getitem_Some _ _ _ Ht).
  destruct (index nodes (k - 1)) as [[pn' i]|]; [|done].
  unfold set_node_text, set_element_text. rewrite (plain_valid _ Hplain).
  destruct (part_nodes (doc mem1) pn' !! i); [|done]. by intros [err Herr].
Qed.

Lemma apply_entry_plain_raise (e : gmap string json) t mem :
  e !! "text" = Some (JStr t) → plain t = true →
  is_Raise (apply_entry e mem).2 → doc (apply_entry e mem).1 = doc mem.
Proof.
  intros Ht Hplain.
  destruct (apply_entry_cases e mem)
    as [[err ->]|(si & v & slide & chain & shape & c & _ & _ & Hslide & _ & Hshape & _
                  & Hcase)]; [done|].
  apply resolve_shape_iff in Hshape.
  destruct Hcase as [[_ ->]|[[_ ->]|[_ ->]]]; cbn [fst snd set_doc doc].
  - intros Hraise. rewrite (apply_text_frame_entry_plain_raise _ _ _ Ht Hplain Hraise).
    by eapply store_own.
  - intros Hraise. rewrite (apply_table_cell_entry_plain_raise _ _ _ Ht Hplain Hraise).
    by eapply store_own.
  - by apply (apply_chart_entry_plain_raise _ _ t).
Qed.

Lemma apply_entries_failure es mem mem' err :
  apply_entries es mem = (mem', Raise err) →
  ∃ pre e post mem1,
    es = pre ++ e :: post
    ∧ apply_entries pre mem = (mem1, Ok tt)
    ∧ apply_entries [e] mem1 = (mem', Raise err)
    ∧ same_structure (doc mem') (doc mem1)
    ∧ (has_plain_text e → doc mem' = doc mem1).
Proof.
  revert mem. induction es as [|e es IH]; intros mem Hrun; [done|].
  destruct (apply_entries [e] mem) as [m1 [[]|err1]] eqn:He.
  - change (e :: es) with ([e] ++ es) in Hrun. rewrite apply_entries_app, He in Hrun.
    destruct (IH m1 Hrun) as (pre & e' & post & mem1 & -> & Hpre & He' & Hs & Hdoc).
    exists (e :: pre), e', post, mem1. split_and!; try done.
    change (e :: pre) with ([e] ++ pre). by rewrite apply_entries_app, He.
  - change (e :: es) with ([e] ++ es) in Hrun. rewrite apply_entries_app, He in Hrun.
    injection Hrun as <- <-.
    exists [], e, es, mem. split_and!; try done.
    + pose proof (apply_entries_structure [e] mem) as Hs. by rewrite He in Hs.
    + intros (m & t & -> & Ht & Hplain). cbn [apply_entries] in He.
      unfold mbind, M_bind in He.
      pose proof (apply_entry_plain_raise m t mem Ht Hplain) as Hat.
      destruct (apply_entry m mem) as [m2 [[]|err2]]; [done|].
      injection He as <- _. apply Hat. by eexists.
Qed.

(** X5. An entry whose text is a plain string is applied whole or not at
    all: when [apply_entry] raises on it, the presentation in memory is as it
    was before the call (every check of an entry comes before its one
    assignment, and the assignment takes a plain string).  Whatever an entry
    holds and however the call ends, the presentation keeps its structure.
    So when the loop of [apply_text_map] stops on an exception, the
    presentation in memory has the structure the entries before the failing
    one left, and is exactly what they made of it when the text of the
    failing entry is a plain string. *)
Theorem apply_entry_all_or_nothing :
  (∀ e t mem,
     e !! "text" = Some (JStr t) → plain t = true →
     is_Raise (apply_entry e mem).2 → doc (apply_entry e mem).1 = doc mem)
  ∧ (∀ e mem, same_structure (doc (apply_entry e mem).1) (doc mem))
  ∧ (∀ es mem mem' err,
       apply_entries es mem = (mem', Raise err) →
       ∃ pre e post mem1,
         es = pre ++ e :: post
         ∧ apply_entries pre mem = (mem1, Ok tt)
         ∧ apply_entries [e] mem1 = (mem', Raise err)
         ∧ same_structure (doc mem') (doc mem1)
         ∧ (has_plain_text e → doc mem' = doc mem1)).
Proof.
  split_and!;
    [apply apply_entry_plain_raise | apply apply_entry_structure | apply apply_entries_failure].
Qed.

(** A text the assignment refuses is not applied, and is not harmless
    either: the leaf loses the text it had.  On the sample deck, the first
    entry with U+FFFE for text raises and leaves the run of the title empty;
    the third entry with a vertical tab for text, which a chart text node
    does not take, raises and leaves the node without text. *)
Example refused_text_drops_run_text :
  let mem := initial Sample.deck in
  let res := apply_entry (<["text" := JStr Sample.u_fffe]> Sample.retitled_entry) mem in
  text_at (doc mem) (RunLeaf 0 [0%nat] 0 0) = Some "Hello"
  ∧ res.2 = Raise xml_incompatible
  ∧ text_at (doc res.1) (RunLeaf 0 [0%nat] 0 0) = Some "".
Proof. split_and!; vm_compute; reflexivity. Qed.

Example refused_text_drops_node_text :
  let mem := initial Sample.deck in
  let res := apply_entry
               (<["text" := JStr Sample.vt]>
                  (Sample.fields (default JNull (Sample.deck_entries !! 2%nat)))) mem in
  text_at (doc mem) (NodeLeaf "/ppt/charts/chart1.xml" 0) = Some "Sales"
  ∧ res.2 = Raise xml_incompatible
  ∧ text_at (doc res.1) (NodeLeaf "/ppt/charts/chart1.xml" 0) = None.
Proof. split_and!; vm_compute; reflexivity. Qed.

End entry_atomic.


(** ** Entries that address a leaf are applied, whatever plain text they carry *)

Section addressed.
Import BuildTextMap ApplyTranslatedTexts ApplyTextMapToPptx.

Lemma blank_shape_fields s s' :
  blank_shape s' = blank_shape s →
  shape_type s' = shape_type s ∧ chart s' = chart s
  ∧ blank_text_frame <$> text_frame s' = blank_text_frame <$> text_frame s
  ∧ blank_table <$> table s' = blank_table <$> table s
  ∧ blank_shape <$> shapes s' = blank_shape <$> shapes s.
Proof. rewrite !blank_shape_unfold. intros [=]. done. Qed.

Lemma fmap_lookup_structure {A B} (f : A → B) (l l' : list A) k x :
  f <$> l' = f <$> l → l !! k = Some x → ∃ x', l' !! k = Some x' ∧ f x' = f x.
Proof.
  intros H Hk. apply (f_equal (λ l, l !! k)) in H. rewrite !list_lookup_fmap, Hk in H.
  destruct (l' !! k) as [x'|]; [|done]. exists x'. split; [done|]. by injection H.
Qed.

Lemma fmap_len_structure {A B} (f : A → B) (l l' : list A) :
  f <$> l' = f <$> l → len l' = len l.
Proof.
  intros H. apply (f_equal length) in H. rewrite !length_fmap in H. unfold len. lia.
Qed.

Lemma resolves_structure top top' chain shape :
  blank_shape <$> top' = blank_shape <$> top → resolves top chain shape →
  ∃ shape', resolves top' chain shape' ∧ blank_shape shape' = blank_shape shape.
Proof.
  intros Htop Hres. revert top' Htop.
  induction Hres as [cur idx i target Hi Hr Ht
                    |cur idx i group rest target Hi Hr Hg Hgrp Hne Hres IH];
    intros top' Htop; pose proof (fmap_len_structure _ _ _ Htop) as Hlen.
  - rewrite index_to_nat in Ht by lia.
    destruct (fmap_lookup_structure _ _ _ _ _ Htop Ht) as (t' & Ht' & Hb).
    exists t'. split; [|done]. apply (resolves_last _ _ i); [done|lia|].
    by rewrite index_to_nat by lia.
  - rewrite index_to_nat in Hg by lia.
    destruct (fmap_lookup_structure _ _ _ _ _ Htop Hg) as (g' & Hg' & Hb).
    destruct (blank_shape_fields _ _ Hb) as (Hty & _ & _ & _ & Hsh).
    destruct (IH _ Hsh) as (s' & Hres' & Hb').
    exists s'. split; [|done]. apply (resolves_step _ _ i g'); try done; [lia| |].
    + by rewrite index_to_nat by lia.
    + unfold is_group in *. by rewrite Hty.
Qed.

Lemma run_at_structure tf tf' i j :
  blank_text_frame tf' = blank_text_frame tf →
  is_Some (run_at tf i j) → is_Some (run_at tf' i j).
Proof.
  unfold blank_text_frame, run_at. intros [= H] [r Hr].
  destruct (paragraphs tf !! i) as [p|] eqn:Hp; [|done]. cbn [mbind option_bind] in Hr.
  destruct (fmap_lookup_structure _ _ _ _ _ H Hp) as (p' & -> & Hb).
  cbn [mbind option_bind]. injection Hb as Hb.
  apply (f_equal length) in Hb. rewrite !length_fmap in Hb.
  apply lookup_lt_is_Some. rewrite Hb. by eapply lookup_lt_Some.
Qed.

Lemma slot_at_structure tf tf' e :
  blank_text_frame tf' = blank_text_frame tf → slot_at tf e → slot_at tf' e.
Proof.
  intros H (i & j & Hpi & Hri & Hrun). exists i, j. split_and!; try done.
  by eapply run_at_structure.
Qed.

Lemma table_structure tbl tbl' r c row cell :
  blank_table tbl' = blank_table tbl →
  rows tbl !! r = Some row → cells row !! c = Some cell →
  ∃ row' cell',
    rows tbl' !! r = Some row' ∧ cells row' !! c = Some cell'
    ∧ blank_text_frame (cell_text_frame cell') = blank_text_frame (cell_text_frame cell)
    ∧ columns tbl' = columns tbl.
Proof.
  unfold blank_table. intros [= Hrows Hcols] Hrow Hcell.
  destruct (fmap_lookup_structure _ _ _ _ _ Hrows Hrow) as (row' & Hrow' & Hb).
  injection Hb as Hb.
  destruct (fmap_lookup_structure _ _ _ _ _ Hb Hcell) as (cell' & Hcell' & Hc).
  injection Hc as Hc. exists row', cell'. split_and!; try done.
  unfold blank_text_frame. by rewrite Hc.
Qed.

Lemma part_nodes_structure d d' key :
  same_structure d' d → length (part_nodes d' key) = length (part_nodes d key).
Proof.
  unfold same_structure, blank_presentation. intros [= _ H].
  apply (f_equal (λ m, m !! key)) in H. rewrite !lookup_fmap in H. unfold part_nodes.
  destruct (chart_parts d' !! key) as [l'|], (chart_parts d !! key) as [l|];
    simplify_eq/=; try done.
  apply (f_equal length) in H. by rewrite !length_fmap in H.
Qed.

Lemma fresh_refs_structure d d' key :
  same_structure d' d → fresh_refs d' key = fresh_refs d key.
Proof. intros H. unfold fresh_refs. by rewrite (part_nodes_structure d d'). Qed.

Lemma cache_ok_structure mem mem' :
  cache_ok mem → chart_cache mem' = chart_cache mem →
  same_structure (doc mem') (doc mem) → cache_ok mem'.
Proof.
  intros Hok Hc Hs key refs Hrefs. rewrite Hc in Hrefs.
  rewrite (fresh_refs_structure (doc mem)) by done. by apply Hok.
Qed.

(** An address valid in a presentation is valid in every presentation of
    the same structure. *)
Lemma addresses_structure d d' e :
  same_structure d' d → addresses d e → addresses d' e.
Proof.
  intros Hs (si & slide & chain & shape & Hsi & Hslide & Hchain & Hres & Hcases).
  pose proof Hs as Hs'. unfold same_structure, blank_presentation in Hs'.
  injection Hs' as Hslides _.
  destruct (fmap_lookup_structure _ _ _ _ _ Hslides Hslide) as (slide' & Hslide' & Hb).
  unfold blank_slide in Hb. injection Hb as _ _ Hshapes.
  destruct (resolves_structure _ _ _ _ Hshapes Hres) as (shape' & Hres' & Hb').
  destruct (blank_shape_fields _ _ Hb') as (_ & Hchart & Htf & Htbl & _).
  exists si, slide', chain, shape'. split_and!; try done.
  destruct Hcases as [[Hc (tf & Htf1 & Hslot)]
                     |[[Hc (tbl & r & c & row & cell & Htbl1 & Her & Hec & Hrow & Hcell
                            & Hcol & Hslot)]
                      |[Hc (p & k & Hch & Hpn & Hidx & Hk)]]].
  - left. split; [done|]. rewrite Htf1 in Htf.
    destruct (text_frame shape') as [tf'|]; [|done]. apply (inj Some) in Htf.
    exists tf'. split; [done|]. by eapply slot_at_structure.
  - right. left. split; [done|]. rewrite Htbl1 in Htbl.
    destruct (table shape') as [tbl'|]; [|done]. apply (inj Some) in Htbl.
    destruct (table_structure _ _ _ _ _ _ Htbl Hrow Hcell)
      as (row' & cell' & Hrow' & Hcell' & Hb & Hcols).
    exists tbl', r, c, row', cell'. split_and!; try done; [by rewrite Hcols|].
    by eapply slot_at_structure.
  - right. right. split; [done|]. exists p, k. rewrite Hchart. split_and!; try done.
    apply lookup_lt_is_Some. rewrite (part_nodes_structure d d') by done.
    by apply lookup_lt_is_Some.
Qed.

(** After a shape is stored where a chain resolved, the chain resolves to
    the shape stored. *)
Lemma resolves_store top chain shape shape' :
  resolves top chain shape →
  resolves (store_shape top (positions chain) shape') chain shape'.
Proof.
  induction 1 as [cur idx i target Hi Hr Ht
                 |cur idx i group rest target Hi Hr Hg Hgrp Hne Hres IH].
  - simpl. rewrite Hi. cbn [from_option id]. rewrite index_to_nat in Ht by lia.
    pose proof (lookup_lt_Some _ _ _ Ht) as Hlt.
    apply (resolves_last _ _ i); [done| |].
    + unfold len in *. by rewrite length_insert.
    + rewrite index_to_nat by lia. by apply list_lookup_insert_eq.
  - unfold positions in *. rewrite fmap_cons, Hi. cbn [from_option id].
    rewrite index_to_nat in Hg by lia.
    pose proof (lookup_lt_Some _ _ _ Hg) as Hlt.
    rewrite store_shape_cons by by destruct rest.
    rewrite Hg.
    apply (resolves_step _ _ i
             (with_shapes group (store_shape (shapes group)
                ((λ v, Z.to_nat (default 0 (as_int v) - 1)) <$> rest) shape')));
      try done.
    + unfold len in *. by rewrite length_insert.
    + rewrite index_to_nat by lia. by apply list_lookup_insert_eq.
Qed.

Lemma store_lookup d si slide pos new :
  slides d !! si = Some slide →
  slides (store d si pos new) !! si
  = Some {| slide_id := slide_id slide;
            slide_layout_name := slide_layout_name slide;
            slide_shapes := store_shape (slide_shapes slide) pos new |}
  ∧ chart_parts (store d si pos new) = chart_parts d.
Proof.
  intros Hslide. unfold store. rewrite Hslide. cbn [slides chart_parts]. split; [|done].
  apply list_lookup_insert_eq. by eapply lookup_lt_Some.
Qed.

Lemma set_run_text_slot tf (e : gmap string json) t :
  slot_at tf e → e !! "text" = Some (JStr t) → plain t = true →
  ∃ pi ri tf',
    e !! "paragraph_index" = Some pi ∧ e !! "run_index" = Some ri
    ∧ set_run_text tf pi ri (JStr t) = (tf', Ok tt)
    ∧ (t ≠ "" → leaf_at tf' e).
Proof.
  intros (i & j & Hpi & Hri & [r Hr]) Ht Hplain. unfold run_at in Hr.
  destruct (paragraphs tf !! i) as [p|] eqn:Hp; [|done]. cbn [mbind option_bind] in Hr.
  pose proof (lookup_lt_Some _ _ _ Hp) as Hi. pose proof (lookup_lt_Some _ _ _ Hr) as Hj.
  eexists _, _, _. split_and!; [done|done| |].
  - rewrite (set_run_text_at _ _ _ _ _ _ Hp Hr), (Run_set_text_plain _ _ Hplain).
    reflexivity.
  - intros Hne. cbn [fst].
    exists i, j, {| runs := <[j := {| run_text := t |}]> (runs p) |}, {| run_text := t |}.
    split_and!; try done.
    + cbn [paragraphs]. by apply list_lookup_insert_eq.
    + cbn [runs]. by apply list_lookup_insert_eq.
Qed.

Lemma apply_text_frame_entry_slot shape tf (e : gmap string json) t :
  text_frame shape = Some tf → slot_at tf e → e !! "text" = Some (JStr t) →
  plain t = true →
  ∃ shape' tf',
    apply_text_frame_entry shape e = (shape', Ok tt)
    ∧ text_frame shape' = Some tf' ∧ (t ≠ "" → leaf_at tf' e).
Proof.
  intros Htf Hslot Ht Hplain.
  destruct (set_run_text_slot _ _ _ Hslot Ht Hplain)
    as (pi & ri & tf' & Hpi & Hri & Hset & Hleaf).
  exists (with_text_frame shape tf'), tf'. split_and!; [|done|done].
  unfold apply_text_frame_entry.
  rewrite Htf, (getitem_Some _ _ _ Hpi), (getitem_Some _ _ _ Hri), (getitem_Some _ _ _ Ht).
  cbn [mbind result_bind]. by rewrite Hset.
Qed.

Lemma apply_table_cell_entry_slot shape tbl r c row cell (e : gmap string json) t :
  table shape = Some tbl →
  e !! "table_row" = Some (JInt (Z.of_nat r + 1)) →
  e !! "table_col" = Some (JInt (Z.of_nat c + 1)) →
  rows tbl !! r = Some row → cells row !! c = Some cell → (c < columns tbl)%nat →
  slot_at (cell_text_frame cell) e → e !! "text" = Some (JStr t) → plain t = true →
  ∃ shape' tbl' row' cell',
    apply_table_cell_entry shape e = (shape', Ok tt)
    ∧ table shape' = Some tbl'
    ∧ rows tbl' !! r = Some row' ∧ cells row' !! c = Some cell'
    ∧ columns tbl' = columns tbl
    ∧ (t ≠ "" → leaf_at (cell_text_frame cell') e).
Proof.
  intros Htbl Her Hec Hrow Hcell Hcol Hslot Ht Hplain.
  destruct (set_run_text_slot _ _ _ Hslot Ht Hplain)
    as (pi & ri & tf' & Hpi & Hri & Hset & Hleaf).
  destruct (index_succ _ _ _ Hrow) as [Hrr Hrowi].
  destruct (index_succ _ _ _ Hcell) as [Hcr Hcelli].
  pose proof (lookup_lt_Some _ _ _ Hrow) as Hr. pose proof (lookup_lt_Some _ _ _ Hcell) as Hc.
  eexists _, _, _, _. split_and!.
  - unfold apply_table_cell_entry. rewrite Htbl, Her, Hec. cbn [from_option as_int id].
    rewrite (bool_decide_eq_true_2 _ Hrr).
    rewrite (bool_decide_eq_true_2 (1 ≤ Z.of_nat c + 1 ≤ Z.of_nat (columns tbl))) by lia.
    cbn [assert mbind result_bind]. rewrite Hrowi, Hcelli.
    rewrite (getitem_Some _ _ _ Hpi), (getitem_Some _ _ _ Hri), (getitem_Some _ _ _ Ht).
    cbn [mbind result_bind]. rewrite Hset.
    rewrite !to_nat_succ_pred. reflexivity.
  - reflexivity.
  - cbn [rows]. by apply list_lookup_insert_eq.
  - cbn [cells]. by apply list_lookup_insert_eq.
  - done.
  - done.
Qed.

Lemma apply_chart_entry_slot shape (e : gmap string json) p k t mem :
  chart shape = Some p →
  e !! "chart_partname" = Some (JStr p) →
  e !! "chart_text_index" = Some (JInt (Z.of_nat k + 1)) →
  is_Some (part_nodes (doc mem) p !! k) →
  e !! "text" = Some (JStr t) → plain t = true →
  cache_ok mem →
  ∃ mem' node,
    apply_chart_entry shape e mem = (mem', Ok tt)
    ∧ cache_ok mem'
    ∧ slides (doc mem') = slides (doc mem)
    ∧ part_nodes (doc mem') p !! k = Some node ∧ node_text node = Some t.
Proof.
  intros Hchart Hpn Hidx [n Hk] Htext Hplain Hok.
  destruct (get_chart_nodes_ok p mem Hok) as (mem1 & Hget & Hdoc & Hok1).
  destruct (fresh_refs_lookup _ _ _ _ Hk) as [Hlen Href].
  destruct (index_succ _ _ _ Hk) as [Hr _].
  destruct (index_succ _ _ _ Href) as [_ Hi].
  assert (Hrun : apply_chart_entry shape e mem = set_node_text (p, k) (JStr t) mem1).
  { unfold apply_chart_entry. rewrite Hchart.
    rewrite (getitem_Some _ _ _ Hpn), (getitem_Some _ _ _ Hidx), (getitem_Some _ _ _ Htext).
    unfold mbind, M_bind, lift. cbn [assert]. rewrite bool_decide_eq_true_2 by done.
    rewrite Hget. cbn [as_int].
    rewrite (bool_decide_eq_true_2 (1 ≤ Z.of_nat k + 1)) by lia.
    rewrite (bool_decide_eq_true_2 (Z.of_nat k + 1 ≤ len (fresh_refs (doc mem) p))) by lia.
    cbn [assert]. unfold NodeRef in *. by rewrite Hi. }
  pose proof (set_node_text_structure (p, k) (JStr t) mem1) as Hs.
  rewrite Hrun. unfold set_node_text, set_element_text, set_doc in *.
  rewrite (plain_valid _ Hplain), Hdoc, Hk in *.
  cbn [fst doc] in *.
  eexists _, {| node_xpath := node_xpath n; node_text := Some t |}.
  split_and!; [reflexivity| |done| |done].
  - apply (cache_ok_structure mem1); [done|done|]. cbn [doc].
    unfold same_structure. by rewrite Hdoc.
  - cbn [doc]. unfold part_nodes at 1. cbn [chart_parts].
    rewrite lookup_insert_eq. cbn [from_option id].
    apply list_lookup_insert_eq. by eapply lookup_lt_Some.
Qed.

Lemma apply_entry_addressed (e : gmap string json) t mem :
  addresses (doc mem) e → e !! "text" = Some (JStr t) → plain t = true → cache_ok mem →
  ∃ mem', apply_entry e mem = (mem', Ok tt) ∧ cache_ok mem'
          ∧ (t ≠ "" → denotes (doc mem') e).
Proof.
  intros (si & slide & chain & shape & Hsi & Hslide & Hchain & Hres & Hcases) Ht Hplain Hok.
  destruct (index_succ _ _ _ Hslide) as [Hr Hi].
  apply resolve_shape_iff in Hres as Hrun.
  pose proof (apply_entry_structure e mem) as Hs.
  unfold apply_entry in *.
  rewrite (getitem_Some _ _ _ Hsi), (getitem_Some _ _ _ Hchain) in *.
  unfold mbind, M_bind, get_doc, lift in *. cbv beta iota in *. cbn [as_int] in *.
  rewrite (bool_decide_eq_true_2 _ Hr) in *. cbn [assert] in *. rewrite Hi, Hrun in *.
  rewrite to_nat_succ_pred in *.
  destruct Hcases as [[Hc (tf & Htf & Hslot)]
                     |[[Hc (tbl & r & c & row & cell & Htbl & Her & Hec & Hrow & Hcell
                            & Hcol & Hslot)]
                      |[Hc (p & k & Hchart & Hpn & Hidx & Hk)]]];
    rewrite (getitem_Some _ _ _ Hc) in *.
  - rewrite bool_decide_eq_true_2 in * by done.
    destruct (apply_text_frame_entry_slot _ _ _ _ Htf Hslot Ht Hplain)
      as (shape' & tf' & Happ & Htf' & Hleaf).
    rewrite Happ in *. cbn [set_doc fst doc] in Hs.
    destruct (store_lookup _ _ _ (positions chain) shape' Hslide) as [Hslide' _].
    eexists. split; [reflexivity|]. split.
    + by apply (cache_ok_structure mem).
    + intros Hne. cbn [doc]. eexists si, _, chain, shape'.
      split_and!; [done|exact Hslide'|done|by apply (resolves_store _ _ shape)|].
      left. split; [done|]. exists tf'. by split; [|apply Hleaf].
  - rewrite bool_decide_eq_false_2 in * by done.
    rewrite bool_decide_eq_true_2 in * by done.
    destruct (apply_table_cell_entry_slot _ _ _ _ _ _ _ _ Htbl Her Hec Hrow Hcell Hcol
                Hslot Ht Hplain)
      as (shape' & tbl' & row' & cell' & Happ & Htbl' & Hrow' & Hcell' & Hcols & Hleaf).
    rewrite Happ in *. cbn [set_doc fst doc] in Hs.
    destruct (store_lookup _ _ _ (positions chain) shape' Hslide) as [Hslide' _].
    eexists. split; [reflexivity|]. split.
    + by apply (cache_ok_structure mem).
    + intros Hne. cbn [doc]. eexists si, _, chain, shape'.
      split_and!; [done|exact Hslide'|done|by apply (resolves_store _ _ shape)|].
      right. left. split; [done|]. exists tbl', r, c, row', cell'.
      split_and!; try done; [by rewrite Hcols | by apply Hleaf].
  - rewrite !bool_decide_eq_false_2 in * by done.
    rewrite bool_decide_eq_true_2 in * by done.
    destruct (apply_chart_entry_slot shape e p k t mem Hchart Hpn Hidx Hk Ht Hplain Hok)
      as (mem' & node & Happ & Hok' & Hslides & Hnode & Hnt).
    exists mem'. split; [done|]. split; [done|].
    intros Hne. exists si, slide, chain, shape.
    split_and!; [done|by rewrite Hslides|done|done|].
    right. right. split; [done|]. by exists p, k, node, t.
Qed.

Lemma cache_ok_initial d : cache_ok (initial d).
Proof. intros key refs Hrefs. unfold initial in Hrefs. cbn [chart_cache] in Hrefs. done. Qed.

(** X7. What a valid entry does.  An entry whose address is valid in the
    presentation in memory (its slide, its chain, its container and the
    indices inside the container all exist) and whose [text] is a non-empty
    plain string (XML compatible, with no control character for python-pptx
    to escape) is applied without error; afterwards the entry denotes a leaf
    of the presentation, so the leaf at its address carries its text, and the
    presentation has the structure it had. *)
Theorem apply_entry_writes (e : gmap string json) (t : string) (mem : Mem) :
  addresses (doc mem) e → e !! "text" = Some (JStr t) → plain t = true → t ≠ "" →
  cache_ok mem →
  ∃ mem',
    apply_entry e mem = (mem', Ok tt)
    ∧ denotes (doc mem') e
    ∧ same_structure (doc mem') (doc mem).
Proof.
  intros Haddr Ht Hplain Hne Hok.
  destruct (apply_entry_addressed e t mem Haddr Ht Hplain Hok) as (mem' & Hrun & _ & Hden).
  exists mem'. split_and!; [done | by apply Hden |].
  pose proof (apply_entry_structure e mem) as Hs. by rewrite Hrun in Hs.
Qed.

Lemma apply_entry_writes_witness :
  ∃ mem',
    apply_entry Sample.retitled_entry (initial Sample.deck) = (mem', Ok tt)
    ∧ denotes (doc mem') Sample.retitled_entry
    ∧ same_structure (doc mem') (doc (initial Sample.deck)).
Proof.
  apply (apply_entry_writes Sample.retitled_entry "Bonjour" (initial Sample.deck)).
  - exists 0%nat, Sample.slide1, [JInt 1], (Sample.text_box [["Hello"]]).
    split_and!; try reflexivity.
    + by apply (resolves_last _ _ 1).
    + left. split; [reflexivity|]. eexists. split; [reflexivity|].
      exists 0%nat, 0%nat. split_and!; try reflexivity. by eexists.
  - reflexivity.
  - reflexivity.
  - discriminate.
  - apply cache_ok_initial.
Defined.

Lemma apply_entries_addressed d0 es mem :
  Forall (entry_addresses d0) es → same_structure (doc mem) d0 → cache_ok mem →
  ∃ mem', apply_entries es mem = (mem', Ok tt) ∧ same_structure (doc mem') d0
          ∧ cache_ok mem'.
Proof.
  revert mem. induction es as [|e es IH]; intros mem Hes Hs Hok.
  - by exists mem.
  - apply Forall_cons in Hes as [(m & t & -> & Hm & Ht & Hplain) Hes].
    destruct (apply_entry_addressed m t mem) as (mem1 & Hrun & Hok1 & _);
      [by apply (addresses_structure d0) | done | done | done |].
    pose proof (apply_entry_structure m mem) as Hs1. rewrite Hrun in Hs1. cbn [fst] in Hs1.
    destruct (IH mem1) as (mem2 & Hrun2 & Hs2 & Hok2); [done | | done |].
    { unfold same_structure in *. by rewrite Hs1. }
    exists mem2. split; [|done].
    cbn [apply_entries]. unfold mbind, M_bind. by rewrite Hrun.
Qed.


Lemma addresses_with_text d (e : gmap string json) v :
  addresses d e → addresses d (<["text" := v]> e).
Proof.
  intros (si & slide & chain & shape & Hsi & Hslide & Hchain & Hres & Hcases).
  assert (Hslot : ∀ tf, slot_at tf e → slot_at tf (<["text" := v]> e)).
  { intros tf (i & j & Hpi & Hri & Hrun). exists i, j.
    by rewrite !lookup_insert_ne by done. }
  exists si, slide, chain, shape. rewrite !lookup_insert_ne by done.
  split_and!; try done.
  destruct Hcases as [[Hc (tf & Htf & Hl)]
                     |[[Hc (tbl & r & c & row & cell & Htbl & Her & Hec & Hrow & Hcell
                            & Hcol & Hl)]
                      |[Hc (p & k & Hchart & Hpn & Hidx & Hk)]]].
  - left. split; [done|]. exists tf. split; [done|]. by apply Hslot.
  - right. left. split; [done|]. exists tbl, r, c, row, cell.
    split_and!; try done. by apply Hslot.
  - right. right. split; [done|]. by exists p, k.
Qed.







(** Plain matters.  With a vertical tab in the value meant for a chart text
    node, the merge succeeds and the projection raises: nothing is written. *)
Example control_character_breaks_projection :
  plain Sample.vt = false
  ∧ ∃ merged,
      merge_translations Sample.deck_map
        (JStr <$> <[2%nat := Sample.vt]> Sample.translated_texts) = Ok merged
      ∧ apply_text_map (<["deck.fr.json" := JsonFile merged]> Sample.disk)
          "deck.pptx" "deck.fr.json" "deck.fr.pptx"
        = (<["deck.fr.json" := JsonFile merged]> Sample.disk, Raise xml_incompatible).
Proof. split; [reflexivity|]. eexists. split; [reflexivity|]. vm_compute. reflexivity. Qed.

End addressed.


(** ** The texts extraction finds *)

Section extraction_texts.
Import BuildTextMap ExportTextArray.

Lemma for_enumerate_texts {A St} (v : St → list string) (g : A → list string)
    (body : Z → A → St → St) (l : list A) start st :
  (∀ k x st, v (body k x st) = v st ++ g x) →
  v (for_enumerate body l start st) = v st ++ mjoin (g <$> l).
Proof.
  intros Hbody. revert start st. induction l as [|x l IH]; intros start st; simpl.
  - by rewrite app_nil_r.
  - by rewrite IH, Hbody, <- app_assoc.
Qed.

Lemma entry_text_run_entry base extra segs container pos :
  entry_text (run_entry base extra segs container pos) = Some pos.2.
Proof.
  destruct (run_entry_at_fields base extra segs container
              (Z.of_nat pos.1.1 + 1) (Z.of_nat pos.1.2 + 1) pos.2)
    as (m & Hm & _ & _ & _ & Ht & _).
  unfold run_entry, entry_text. rewrite Hm. cbn [text_field]. by rewrite Ht.
Qed.

Lemma texts_record_runs tf base segs container extra acc :
  omap entry_text (record_runs tf base segs container extra acc)
  = omap entry_text acc ++ text_frame_texts tf.
Proof.
  rewrite record_runs_eq, omap_app. f_equal. unfold text_frame_texts.
  induction (nonempty_runs tf) as [|pos l IH]; [done|].
  rewrite !fmap_cons. cbn [omap list_omap]. rewrite entry_text_run_entry. by f_equal.
Qed.

Lemma texts_record_chart_text pkg shape base st :
  omap entry_text (entries (record_chart_text pkg shape base st))
  = omap entry_text (entries st)
    ++ from_option (λ p, chart_texts (part_nodes pkg p)) [] (chart shape).
Proof.
  unfold record_chart_text. destruct (chart shape) as [p|]; cbn [from_option];
    [|by rewrite app_nil_r].
  rewrite (for_enumerate_texts (λ st, omap entry_text (entries st))
             (λ node, match node_text node with
                      | Some t => if falsy t then [] else [t]
                      | None => []
                      end)).
  - cbn [entries]. f_equal. unfold chart_texts.
    induction (part_nodes pkg p) as [|n l IH]; [done|].
    rewrite fmap_cons. change (mjoin (?x :: ?ls)) with (x ++ mjoin ls).
    rewrite IH. cbn [omap list_omap].
    destruct (node_text n) as [t|]; [|done]. rewrite filter_cons.
    unfold falsy. case_bool_decide; [by rewrite decide_False by (by intros ?)|].
    by rewrite decide_True by done.
  - intros k node st'. unfold on_entries. cbn [entries].
    destruct (node_text node) as [t|]; [|by rewrite app_nil_r].
    destruct (falsy t); [by rewrite app_nil_r|].
    rewrite omap_app. f_equal. cbn [omap list_omap]. unfold entry_text. cbn [text_field].
    by rewrite (dict_update_lookup_l _ _ "text" (JStr t)).
Qed.

Lemma shape_texts_unfold d s :
  shape_texts d s
  = from_option text_frame_texts [] (text_frame s)
    ++ from_option table_texts [] (table s)
    ++ from_option (λ p, chart_texts (part_nodes d p)) [] (chart s)
    ++ (if is_group s then mjoin (shape_texts d <$> shapes s) else []).
Proof. by destruct s. Qed.

Lemma texts_walk_shape pkg meta shape :
  ∀ path chain idx st,
    omap entry_text (entries (walk_shape pkg meta path chain idx shape st))
    = omap entry_text (entries st) ++ shape_texts pkg shape.
Proof.
  induction shape as [shape IH] using Shape_ind'. intros path chain idx st.
  rewrite walk_shape_unfold, shape_texts_unfold. cbv zeta.
  set (segs := path ++ _). set (chain' := chain ++ _). set (base := list_to_map _).
  set (st1 := match text_frame shape with Some _ => _ | None => st end).
  set (st2 := match table shape with Some _ => _ | None => st1 end).
  assert (H1 : omap entry_text (entries st1)
               = omap entry_text (entries st)
                 ++ from_option text_frame_texts [] (text_frame shape)).
  { subst st1. destruct (text_frame shape) as [tf|]; cbn [from_option];
      [|by rewrite app_nil_r].
    unfold on_entries. cbn [entries]. apply texts_record_runs. }
  assert (H2 : omap entry_text (entries st2)
               = omap entry_text (entries st1)
                 ++ from_option table_texts [] (table shape)).
  { subst st2. destruct (table shape) as [tbl|]; cbn [from_option];
      [|by rewrite app_nil_r].
    apply (for_enumerate_texts (λ st, omap entry_text (entries st))
             (λ row, mjoin ((λ c, text_frame_texts (cell_text_frame c)) <$> cells row))).
    intros r row st'.
    apply (for_enumerate_texts (λ st, omap entry_text (entries st))
             (λ c, text_frame_texts (cell_text_frame c))).
    intros c cell st''. unfold on_entries. cbn [entries]. apply texts_record_runs. }
  rewrite !app_assoc, <- H1, <- H2, <- (texts_record_chart_text pkg shape base st2).
  generalize (record_chart_text pkg shape base st2). intros st3.
  destruct (is_group shape); [|by rewrite app_nil_r].
  unfold walk_shapes. generalize 1. revert st3.
  clear H1 H2. induction IH as [|c cs Hc Hcs IHcs]; intros st3 start; simpl.
  - by rewrite app_nil_r.
  - rewrite IHcs, Hc. by rewrite <- app_assoc.
Qed.

Lemma texts_collect d : omap entry_text (entries (collect d)) = presentation_texts d.
Proof.
  unfold collect, presentation_texts.
  rewrite (for_enumerate_texts (λ st, omap entry_text (entries st))
             (λ slide, mjoin (shape_texts d <$> slide_shapes slide))); [done|].
  intros k slide st. cbv zeta. unfold walk_shapes.
  apply (for_enumerate_texts (λ st, omap entry_text (entries st)) (shape_texts d)).
  intros idx shape st'. apply texts_walk_shape.
Qed.

Lemma text_fields_nonempty es :
  Forall has_nonempty_text es →
  Forall2 (λ e t, text_field e = Some t) es (JStr <$> omap entry_text es).
Proof.
  induction 1 as [|e es (m & t & -> & Ht & _) _ IH]; [constructor|].
  cbn [omap list_omap]. unfold entry_text at 1. cbn [text_field]. rewrite Ht.
  rewrite fmap_cons. by constructor.
Qed.

Lemma load_texts_of_text_map fs map_path pptx_path d :
  fs !! map_path = Some (JsonFile (text_map_of pptx_path d)) →
  load_texts fs map_path = Ok (JStr <$> presentation_texts d).
Proof.
  destruct (text_map_of_fields pptx_path d) as (tm & -> & Hes & _). intros Hfs.
  rewrite (load_texts_unfold _ _ tm (entries (collect d))) by done.
  rewrite <- texts_collect.
  apply (load_texts_loop_exact _ _ 1 []), text_fields_nonempty, collect_nonempty.
Qed.

Lemma length_presentation_texts d :
  length (presentation_texts d) = length (entries (collect d)).
Proof.
  pose proof (Forall2_length _ _ _ (text_fields_nonempty _ (collect_nonempty d))) as H.
  rewrite length_fmap, texts_collect in H. done.
Qed.

(** X9. What the extracted list of texts is.  A map that extraction
    returns for a presentation, once flattened, is the list of the non-empty
    texts of the presentation in the order of the walk: slide by slide, shape
    by shape; for a shape, the non-empty runs of its text frame, then those
    of its table cells row by row, then the non-empty text nodes of its chart
    part, then, for a group and only for a group, the same for each child.
    Nothing else is in the list and nothing non-empty is left out.  (The
    statement is about a map that is returned: on a presentation with a shape
    whose type python-pptx cannot tell, extraction raises and returns
    none.) *)
Theorem extracted_texts_in_walk_order (fs : gmap string file)
    (pptx_path map_path : string) (d : Presentation) (text_map : json) :
  fs !! pptx_path = Some (PptxFile d) →
  build_text_map fs pptx_path = Ok text_map →
  load_texts (<[map_path := JsonFile text_map]> fs) map_path
  = Ok (JStr <$> presentation_texts d).
Proof.
  intros Hfs. unfold build_text_map, load_presentation. rewrite Hfs.
  cbn [mbind result_bind]. intros [= <-].
  apply (load_texts_of_text_map _ _ pptx_path), lookup_insert_eq.
Qed.

Lemma extracted_texts_in_walk_order_witness :
  load_texts (<["deck.text-map.json" := JsonFile Sample.deck_map]> Sample.disk)
    "deck.text-map.json"
  = Ok (JStr <$> presentation_texts Sample.deck).
Proof.
  apply (extracted_texts_in_walk_order Sample.disk "deck.pptx" "deck.text-map.json"
           Sample.deck Sample.deck_map).
  - reflexivity.
  - reflexivity.
Defined.

End extraction_texts.

Example deck_presentation_texts :
  presentation_texts Sample.deck
  = ["Hello"; "World"; "Sales"; "Q1"; "in a group"; "Sales"; "Q1"].
Proof. reflexivity. Qed.


(** ** The round trip, and the documents it holds for *)

Section round_trip_documents.
Import BuildTextMap ExportTextArray ApplyTranslatedTexts ApplyTextMapToPptx.





End round_trip_documents.


(** ** The entries of a chart part *)

Section chart_entries.
Import BuildTextMap.

Lemma for_enumerate_app {A St} (body : Z → A → St → St) l1 l2 start st :
  for_enumerate body (l1 ++ l2) start st
  = for_enumerate body l2 (start + len l1) (for_enumerate body l1 start st).
Proof.
  revert start st. induction l1 as [|x l1 IH]; intros start st; simpl.
  - change (len (@nil A)) with 0. by rewrite Z.add_0_r.
  - rewrite IH, len_cons. by replace (start + 1 + len l1) with (start + (1 + len l1)) by lia.
Qed.

(** The loop of [record_chart_text] over the text nodes of a part. *)
Lemma record_chart_text_loop (base : gmap string json) (p : string)
    (nodes : list ChartNode) (st : Extraction) :
  ∃ new kts,
    entries (for_enumerate (λ chart_idx node,
               on_entries (λ entries,
                 match node_text node with
                 | None => entries
                 | Some text =>
                     if falsy text then entries
                     else
                       entries ++ [JObj (dict_update base (list_to_map [
                         ("container", JStr "chart_part");
                         ("chart_partname", JStr p);
                         ("chart_text_index", JInt chart_idx);
                         ("chart_xpath", JStr (node_xpath node));
                         ("text", JStr text)]))]
                 end)) nodes 1 st)
    = entries st ++ new
    ∧ Forall2 (λ e kt, ∃ m, e = JObj m
                 ∧ m !! "container" = Some (JStr "chart_part")
                 ∧ m !! "chart_partname" = Some (JStr p)
                 ∧ m !! "chart_text_index" = Some (JInt (Z.of_nat kt.1 + 1))
                 ∧ m !! "text" = Some (JStr kt.2))
              new kts
    ∧ StronglySorted (λ a b, (a.1 < b.1)%nat) kts
    ∧ ∀ k t, (k, t) ∈ kts ↔
             ∃ n, nodes !! k = Some n ∧ node_text n = Some t ∧ t ≠ "".
Proof.
  induction nodes as [|n nodes IH] using rev_ind.
  - exists [], []. split_and!; [by rewrite app_nil_r | constructor | constructor |].
    intros k t. split; [by intros ?%elem_of_nil | by intros (n & ? & _)].
  - destruct IH as (new & kts & Hnew & Hall & Hsorted & Hspec).
    rewrite for_enumerate_app. cbn [for_enumerate]. unfold on_entries at 1. cbn [entries].
    rewrite Hnew.
    assert (Hold : ∀ k t, (k, t) ∈ kts → (k < length nodes)%nat).
    { intros k t (n' & Hk & _)%Hspec. by eapply lookup_lt_Some. }
    assert (Hkeep : ∀ k t,
              (∃ n', (nodes ++ [n]) !! k = Some n' ∧ node_text n' = Some t ∧ t ≠ "")
              ↔ (k, t) ∈ kts
                ∨ (k = length nodes ∧ node_text n = Some t ∧ t ≠ "")).
    { intros k t. rewrite Hspec. split.
      - intros (n' & [Hk|[Hlen Hk]]%lookup_app_Some & Ht & Hne); [left; by exists n'|].
        right. apply list_lookup_singleton_Some in Hk as [Hk <-].
        split_and!; [lia|done|done].
      - intros [(n' & Hk & Ht & Hne)|(-> & Ht & Hne)].
        + exists n'. split_and!; try done. by apply lookup_app_l_Some.
        + exists n. split_and!; try done. by rewrite list_lookup_middle. }
    destruct (node_text n) as [t|] eqn:Ht; [destruct (falsy t) eqn:Hf|].
    + exists new, kts. split_and!; try done. intros k t'. rewrite Hkeep.
      split; [by left|]. intros [?|(_ & [= <-] & Hne)]; [done|].
      unfold falsy in Hf. by apply bool_decide_eq_true in Hf.
    + exists (new ++ [JObj (dict_update base (list_to_map [
                ("container", JStr "chart_part");
                ("chart_partname", JStr p);
                ("chart_text_index", JInt (1 + len nodes));
                ("chart_xpath", JStr (node_xpath n));
                ("text", JStr t)]))]), (kts ++ [(length nodes, t)]).
      split_and!.
      * by rewrite app_assoc.
      * apply Forall2_app; [done|]. constructor; [|constructor].
        eexists. split; [reflexivity|].
        split_and!; try (apply dict_update_lookup_l; reflexivity).
        apply dict_update_lookup_l. cbn [fst]. unfold len.
        by rewrite (Z.add_comm 1).
      * apply StronglySorted_app_2; [|done|repeat constructor].
        intros [k t1] [k2 t2] Hk [= -> ->]%list_elem_of_singleton. cbn [fst].
        by eapply Hold.
      * intros k t'. rewrite Hkeep, elem_of_app, list_elem_of_singleton.
        unfold falsy in Hf. apply bool_decide_eq_false in Hf.
        split; (intros [?|H]; [by left|right]).
        -- by injection H as -> ->.
        -- by destruct H as (-> & [= ->] & _).
    + exists new, kts. split_and!; try done. intros k t'. rewrite Hkeep.
      split; [by left|]. by intros [?|(_ & ? & _)].
Qed.

(** X10. [record_chart_text] appends one entry for each text node of the
    shape's chart part whose text is present and not empty, in document
    order, and none for the others; the entry of the node at position [k]
    (counted from 0 over all the text nodes of the part, those without text
    included) carries [chart_text_index = k + 1], the partname and the node's
    text.  For a shape without a chart it appends nothing and queries
    nothing. *)
Theorem record_chart_text_true_positions (pkg : Presentation) (shape : Shape)
    (base : gmap string json) (st : Extraction) :
  (chart shape = None → record_chart_text pkg shape base st = st)
  ∧ (∀ p, chart shape = Some p →
       ∃ new kts,
         entries (record_chart_text pkg shape base st) = entries st ++ new
         ∧ Forall2 (λ e kt, ∃ m, e = JObj m
                      ∧ m !! "container" = Some (JStr "chart_part")
                      ∧ m !! "chart_partname" = Some (JStr p)
                      ∧ m !! "chart_text_index" = Some (JInt (Z.of_nat kt.1 + 1))
                      ∧ m !! "text" = Some (JStr kt.2))
                   new kts
         ∧ StronglySorted (λ a b, (a.1 < b.1)%nat) kts
         ∧ ∀ k t, (k, t) ∈ kts ↔
                  ∃ n, part_nodes pkg p !! k = Some n ∧ node_text n = Some t ∧ t ≠ "").
Proof.
  unfold record_chart_text. split; [by intros ->|]. intros p ->.
  apply (record_chart_text_loop base p (part_nodes pkg p)
           {| entries := entries st; xpath_calls := xpath_calls st ++ [p] |}).
Qed.

(** The chart of the sample deck has three text nodes, the second without
    text: the entries carry the indices 1 and 3. *)
Example record_chart_text_skips_empty_node :
  (λ e, Sample.fields e !! "chart_text_index")
    <$> entries (record_chart_text Sample.deck Sample.chart_shape ∅
                   {| entries := []; xpath_calls := [] |})
  = [Some (JInt 1); Some (JInt 3)].
Proof. reflexivity. Qed.

End chart_entries.


(** ** What an entry can reach *)

Section local.
Import ApplyTextMapToPptx.

Lemma store_other_slides d si pos new sj :
  sj ≠ si → slides (store d si pos new) !! sj = slides d !! sj.
Proof.
  intros Hne. unfold store. destruct (slides d !! si); [|done]. cbn [slides].
  by apply list_lookup_insert_ne.
Qed.

Lemma store_chart_parts d si pos new : chart_parts (store d si pos new) = chart_parts d.
Proof. unfold store. by destruct (slides d !! si). Qed.

Lemma fresh_refs_part d key k node :
  index (fresh_refs d key) k = Some node → node.1 = key.
Proof.
  unfold index, fresh_refs. case_decide; [|done]. rewrite list_lookup_fmap.
  destruct (seq 0 (length (part_nodes d key)) !! Z.to_nat k); [|done]. by intros [= <-].
Qed.

Lemma apply_chart_entry_local shape (e : gmap string json) mem mem' :
  cache_ok mem → apply_chart_entry shape e mem = (mem', Ok tt) →
  ∃ p, chart shape = Some p ∧ e !! "chart_partname" = Some (JStr p)
       ∧ slides (doc mem') = slides (doc mem)
       ∧ ∀ q, q ≠ p → chart_parts (doc mem') !! q = chart_parts (doc mem) !! q.
Proof.
  intros Hok. unfold apply_chart_entry. destruct (chart shape) as [p|]; [|done].
  unfold mbind, M_bind, lift, getitem. cbv beta iota.
  destruct (e !! "chart_partname") as [[| | |pn| |]|]; try done.
  unfold assert at 1. case_bool_decide as Hpn; [|done]. subst pn.
  destruct (get_chart_nodes_ok p mem Hok) as (mem1 & -> & Hdoc & _).
  destruct (e !! "chart_text_index") as [ci|]; [|done].
  destruct (as_int ci) as [k|]; [|done].
  destruct (assert _ _); [|done]. destruct (assert _ _); [|done].
  destruct (e !! "text") as [t|]; [|done].
  destruct (index (fresh_refs (doc mem) p) (k - 1)) as [[q i]|] eqn:Hnode; [|done].
  apply fresh_refs_part in Hnode. cbn [fst] in Hnode. subst q.
  assert (Hset : ∀ text,
            set_node_text (p, i) text mem1 = (mem', Ok tt) →
            slides (doc mem') = slides (doc mem)
            ∧ ∀ q, q ≠ p → chart_parts (doc mem') !! q = chart_parts (doc mem) !! q).
  { intros text. unfold set_node_text, set_doc. rewrite Hdoc.
    destruct (part_nodes (doc mem) p !! i); [|done].
    destruct (set_element_text text) as [t' o]. cbn [fst].
    intros [= <- _]. cbn [doc slides chart_parts].
    split; [done|]. intros q Hq. by rewrite lookup_insert_ne. }
  intros Hrun. exists p. split; [done|]. split; [done|]. by eapply Hset.
Qed.

(** X11. What an entry can reach.  An entry that is applied changes
    nothing outside the place its address names: with a [container] other
    than [chart_part], the chart parts and every slide but the one at
    [slide_index] are as before; with [chart_part], every slide and every
    chart part but the one named by [chart_partname] are as before. *)
Theorem apply_entry_local (e : gmap string json) (mem : Mem) :
  cache_ok mem →
  (apply_entry e mem).2 = Ok tt →
  ∃ c, e !! "container" = Some (JStr c)
    ∧ (c ≠ "chart_part" →
         ∃ si v, e !! "slide_index" = Some v ∧ as_int v = Some (Z.of_nat si + 1)
           ∧ chart_parts (doc (apply_entry e mem).1) = chart_parts (doc mem)
           ∧ ∀ sj, sj ≠ si →
                   slides (doc (apply_entry e mem).1) !! sj = slides (doc mem) !! sj)
    ∧ (c = "chart_part" →
         ∃ p, e !! "chart_partname" = Some (JStr p)
           ∧ slides (doc (apply_entry e mem).1) = slides (doc mem)
           ∧ ∀ q, q ≠ p →
                  chart_parts (doc (apply_entry e mem).1) !! q
                  = chart_parts (doc mem) !! q).
Proof.
  intros Hok. destruct (apply_entry e mem) as [mem' r] eqn:Hrun. cbn [fst snd].
  intros ->.
  apply apply_entry_Ok in Hrun
    as (si & v & slide & chain & shape & c & Hv & Hsi & Hslide & _ & _ & Hc & Hcase).
  exists c. split; [done|].
  destruct Hcase as [[-> (shape' & _ & ->)]|[[-> (shape' & _ & ->)]|[-> Hchart]]].
  - split; [|done]. intros _. exists si, v. cbn [set_doc fst doc].
    split_and!; [done|done|apply store_chart_parts|]. intros sj Hsj.
    by apply store_other_slides.
  - split; [|done]. intros _. exists si, v. cbn [set_doc fst doc].
    split_and!; [done|done|apply store_chart_parts|]. intros sj Hsj.
    by apply store_other_slides.
  - split; [done|]. intros _.
    destruct (apply_chart_entry_local _ _ _ _ Hok Hchart) as (p & _ & Hp & Hs & Hq).
    by exists p.
Qed.

Lemma apply_entry_local_witness :
  ∃ c, Sample.retitled_entry !! "container" = Some (JStr c)
    ∧ (c ≠ "chart_part" →
         ∃ si v, Sample.retitled_entry !! "slide_index" = Some v
           ∧ as_int v = Some (Z.of_nat si + 1)
           ∧ chart_parts (doc (apply_entry Sample.retitled_entry (initial Sample.deck)).1)
             = chart_parts (doc (initial Sample.deck))
           ∧ ∀ sj, sj ≠ si →
                   slides (doc (apply_entry Sample.retitled_entry (initial Sample.deck)).1)
                     !! sj
                   = slides (doc (initial Sample.deck)) !! sj)
    ∧ (c = "chart_part" →
         ∃ p, Sample.retitled_entry !! "chart_partname" = Some (JStr p)
           ∧ slides (doc (apply_entry Sample.retitled_entry (initial Sample.deck)).1)
             = slides (doc (initial Sample.deck))
           ∧ ∀ q, q ≠ p →
                  chart_parts (doc (apply_entry Sample.retitled_entry (initial Sample.deck)).1)
                    !! q
                  = chart_parts (doc (initial Sample.deck)) !! q).
Proof.
  apply (apply_entry_local Sample.retitled_entry (initial Sample.deck)).
  - apply cache_ok_initial.
  - vm_compute. reflexivity.
Defined.

End local.


(** ** An entry whose container does not fit the shape *)

Section container.
Import ApplyTextMapToPptx.

(** X12. The container of an entry against the shape its address finds.
    When the slide index and the chain of an entry resolve to a shape,
    [apply_entry] fails, leaving the memory untouched, with: the assertion
    that the shape lacks the container named, when the entry names
    [text_frame], [table_cell] or [chart_part] and the shape has none; with
    [ValueError] naming the container, when the entry names anything else. *)
Theorem apply_entry_container_mismatch (e : gmap string json) (mem : Mem)
    (si : nat) (slide : Slide) (chain : list json) (shape : Shape) (c : string) :
  e !! "slide_index" = Some (JInt (Z.of_nat si + 1)) →
  slides (doc mem) !! si = Some slide →
  e !! "shape_index_chain" = Some (JList chain) →
  resolves (slide_shapes slide) chain shape →
  e !! "container" = Some (JStr c) →
  (c = "text_frame" → text_frame shape = None →
     apply_entry e mem = (mem, Raise (AssertionError "Shape lacks text_frame")))
  ∧ (c = "table_cell" → table shape = None →
       apply_entry e mem = (mem, Raise (AssertionError "Shape lacks table")))
  ∧ (c = "chart_part" → chart shape = None →
       apply_entry e mem = (mem, Raise (AssertionError "Shape lacks chart")))
  ∧ (c ≠ "text_frame" → c ≠ "table_cell" → c ≠ "chart_part" →
       apply_entry e mem
       = (mem, Raise (ValueError ("Unsupported container type: " +:+ c)))).
Proof.
  intros Hsi Hslide Hchain Hres Hc.
  destruct (index_succ _ _ _ Hslide) as [Hr Hi].
  apply resolve_shape_iff in Hres as Hrun.
  unfold apply_entry.
  rewrite (getitem_Some _ _ _ Hsi), (getitem_Some _ _ _ Hchain), (getitem_Some _ _ _ Hc).
  unfold mbind, M_bind, get_doc, lift. cbv beta iota. cbn [as_int].
  rewrite (bool_decide_eq_true_2 _ Hr). cbn [assert]. rewrite Hi, Hrun.
  rewrite to_nat_succ_pred.
  split_and!.
  - intros -> Htf. rewrite bool_decide_eq_true_2 by done.
    unfold apply_text_frame_entry. rewrite Htf.
    rewrite (store_own _ _ _ _ _ Hslide Hres). unfold set_doc. by destruct mem.
  - intros -> Htbl. rewrite bool_decide_eq_false_2 by done.
    rewrite bool_decide_eq_true_2 by done.
    unfold apply_table_cell_entry. rewrite Htbl.
    rewrite (store_own _ _ _ _ _ Hslide Hres). unfold set_doc. by destruct mem.
  - intros -> Hchart. rewrite !bool_decide_eq_false_2 by done.
    rewrite bool_decide_eq_true_2 by done.
    unfold apply_chart_entry. by rewrite Hchart.
  - intros H1 H2 H3. by rewrite !bool_decide_eq_false_2 by done.
Qed.

Lemma apply_entry_container_mismatch_witness :
  ("table_cell" = "text_frame" → text_frame (Sample.text_box [["Hello"]]) = None →
     apply_entry Sample.mislabelled_entry (initial Sample.deck)
     = (initial Sample.deck, Raise (AssertionError "Shape lacks text_frame")))
  ∧ ("table_cell" = "table_cell" → table (Sample.text_box [["Hello"]]) = None →
       apply_entry Sample.mislabelled_entry (initial Sample.deck)
       = (initial Sample.deck, Raise (AssertionError "Shape lacks table")))
  ∧ ("table_cell" = "chart_part" → chart (Sample.text_box [["Hello"]]) = None →
       apply_entry Sample.mislabelled_entry (initial Sample.deck)
       = (initial Sample.deck, Raise (AssertionError "Shape lacks chart")))
  ∧ ("table_cell" ≠ "text_frame" → "table_cell" ≠ "table_cell" →
     "table_cell" ≠ "chart_part" →
       apply_entry Sample.mislabelled_entry (initial Sample.deck)
       = (initial Sample.deck,
          Raise (ValueError ("Unsupported container type: " +:+ "table_cell")))).
Proof.
  apply (apply_entry_container_mismatch Sample.mislabelled_entry (initial Sample.deck)
           0%nat Sample.slide1 [JInt 1] (Sample.text_box [["Hello"]]) "table_cell").
  - reflexivity.
  - reflexivity.
  - reflexivity.
  - by apply (resolves_last _ _ 1).
  - reflexivity.
Defined.

(** The same on the sample deck: the first entry of its map, relabelled as
    a table cell, is refused. *)
Example mislabelled_entry_refused :
  (apply_entry Sample.mislabelled_entry (initial Sample.deck)).2
  = Raise (AssertionError "Shape lacks table").
Proof. vm_compute. reflexivity. Qed.

End container.


(** ** The command lines *)

Section command_lines.
Import BuildTextMap ExportTextArray ApplyTranslatedTexts ApplyTextMapToPptx Cli.

Lemma path_exists_true (fs : gmap string file) path f :
  fs !! path = Some f → path_exists fs path = true.
Proof. intros H. unfold path_exists. apply bool_decide_eq_true_2. by exists f. Qed.

Lemma path_exists_false (fs : gmap string file) path :
  fs !! path = None → path_exists fs path = false.
Proof.
  intros H. unfold path_exists. apply bool_decide_eq_false_2. rewrite H. by intros [? ?].
Qed.


(** X14. What a missing input does.  [build_text_map.py] and
    [apply_text_map_to_pptx.py] check that their inputs exist before reading
    anything and name the missing path in an assertion error, the
    presentation first; [export_text_array.py] does the same for a source
    that does not exist, and without [--source] fails on the attribute access
    instead; [apply_translated_texts.py] makes no such check, so a missing
    base map surfaces as the error of the read, and translated values that
    are not a JSON array are refused by assertion.  None of them writes
    anything. *)
Theorem mains_missing_input (fs : gmap string file) :
  (∀ text_map_path args_pptx args_output,
     fs !! args_pptx = None →
     build_text_map_main text_map_path args_pptx args_output fs
     = (fs, Raise (AssertionError ("PPTX path does not exist: " +:+ args_pptx))))
  ∧ (∀ text_values_path args_output,
       export_text_array_main text_values_path None args_output fs
       = (fs, Raise AttributeError))
  ∧ (∀ text_values_path source args_output,
       fs !! source = None →
       export_text_array_main text_values_path (Some source) args_output fs
       = (fs, Raise (AssertionError ("Source file not found: " +:+ source))))
  ∧ (∀ args_base_map args_translated_values args_output,
       fs !! args_base_map = None →
       apply_translated_texts_main args_base_map args_translated_values args_output fs
       = (fs, Raise (OSError args_base_map)))
  ∧ (∀ args_base_map args_translated_values args_output base_map v,
       fs !! args_base_map = Some (JsonFile base_map) →
       fs !! args_translated_values = Some (JsonFile v) →
       isinstance_list v = false →
       apply_translated_texts_main args_base_map args_translated_values args_output fs
       = (fs, Raise (AssertionError "translated values file must contain a JSON array")))
  ∧ (∀ args_pptx args_translated_map args_output,
       fs !! args_pptx = None →
       apply_text_map_to_pptx_main args_pptx args_translated_map args_output fs
       = (fs, Raise (AssertionError ("PPTX not found: " +:+ args_pptx))))
  ∧ (∀ args_pptx args_translated_map args_output,
       is_Some (fs !! args_pptx) →
       fs !! args_translated_map = None →
       apply_text_map_to_pptx_main args_pptx args_translated_map args_output fs
       = (fs, Raise (AssertionError ("Translated map not found: "
                                     +:+ args_translated_map)))).
Proof.
  split_and!.
  - intros tmp pptx output Hfs. unfold build_text_map_main.
    by rewrite path_exists_false.
  - done.
  - intros tvp source output Hfs. unfold export_text_array_main.
    by rewrite path_exists_false.
  - intros base tv output Hfs. unfold apply_translated_texts_main, read_json.
    by rewrite Hfs.
  - intros base tv output base_map v Hbase Htv Hv.
    unfold apply_translated_texts_main, read_json. rewrite Hbase, Htv.
    by destruct v.
  - intros pptx map output Hfs. unfold apply_text_map_to_pptx_main.
    by rewrite path_exists_false.
  - intros pptx map output [f Hf] Hmap. unfold apply_text_map_to_pptx_main.
    by rewrite (path_exists_true _ _ f), path_exists_false.
Qed.



(** An output path that is a directory: the script raises and nothing is
    written.  The empty path is the current directory. *)
Example output_directory_refused :
  export_text_array_main id (Some "deck.text-map.json") (Some "")
    {[ "deck.text-map.json" := JsonFile Sample.deck_map ]}
  = ({[ "deck.text-map.json" := JsonFile Sample.deck_map ]}, Raise (OSError "")).
Proof. reflexivity. Qed.

End command_lines.


(** ** What the projector reads of an entry, and the counts of a map *)

Section fields_read.
Import BuildTextMap ExportTextArray ApplyTextMapToPptx.

(** X16. The projector goes by position alone.  [apply_entry] reads ten
    keys of an entry, those of the address and [text]: two entries that
    agree on them are applied alike, with the same outcome and the same
    memory afterwards.  So [slide_id], [shape_id], [shape_name],
    [shape_type], [slide_layout] and the two path strings are never
    compared with the presentation. *)
Theorem apply_entry_reads_address_only (e1 e2 : gmap string json) (mem : Mem) :
  (∀ k, k ∈ address_keys → e1 !! k = e2 !! k) →
  apply_entry e1 mem = apply_entry e2 mem.
Proof.
  intros Hkeys.
  assert (Hget : ∀ k, k ∈ address_keys → getitem e1 k = getitem e2 k).
  { intros k Hk. unfold getitem. by rewrite (Hkeys k Hk). }
  unfold apply_entry, apply_text_frame_entry, apply_table_cell_entry, apply_chart_entry.
  rewrite !(Hget "slide_index"), !(Hget "shape_index_chain"), !(Hget "container"),
    !(Hget "paragraph_index"), !(Hget "run_index"), !(Hget "chart_partname"),
    !(Hget "chart_text_index"), !(Hget "text"),
    !(Hkeys "table_row"), !(Hkeys "table_col")
    by (unfold address_keys; set_solver).
  reflexivity.
Qed.

Lemma apply_entry_reads_address_only_witness :
  apply_entry Sample.renamed_entry (initial Sample.deck)
  = apply_entry Sample.retitled_entry (initial Sample.deck).
Proof.
  apply (apply_entry_reads_address_only Sample.renamed_entry Sample.retitled_entry
           (initial Sample.deck)).
  intros k Hk. unfold address_keys in Hk.
  repeat (apply elem_of_cons in Hk as [->|Hk]; [reflexivity|]).
  by apply elem_of_nil in Hk.
Defined.

(** X17. The counts of a text map.  The map [build_text_map] returns
    names the file it read in [source], has the number of slides in
    [slide_count], and in [entry_count] the length of [entries], which is the
    number of non-empty texts of the presentation. *)
Theorem build_text_map_counts (fs : gmap string file) (pptx_path : string)
    (d : Presentation) :
  fs !! pptx_path = Some (PptxFile d) →
  ∃ text_map es,
    build_text_map fs pptx_path = Ok (JObj text_map)
    ∧ text_map !! "source" = Some (JStr pptx_path)
    ∧ text_map !! "slide_count" = Some (JInt (len (slides d)))
    ∧ text_map !! "entries" = Some (JList es)
    ∧ text_map !! "entry_count" = Some (JInt (len es))
    ∧ len es = len (presentation_texts d).
Proof.
  intros Hfs.
  destruct (text_map_of_fields pptx_path d) as (tm & Htm & Hes & Hcount & Hslides & Hsrc & _).
  exists tm, (entries (collect d)). split_and!; try done.
  - unfold build_text_map, load_presentation. rewrite Hfs. cbn [mbind result_bind].
    by rewrite Htm.
  - unfold len. by rewrite length_presentation_texts.
Qed.

Lemma build_text_map_counts_witness :
  ∃ text_map es,
    build_text_map Sample.disk "deck.pptx" = Ok (JObj text_map)
    ∧ text_map !! "source" = Some (JStr "deck.pptx")
    ∧ text_map !! "slide_count" = Some (JInt (len (slides Sample.deck)))
    ∧ text_map !! "entries" = Some (JList es)
    ∧ text_map !! "entry_count" = Some (JInt (len es))
    ∧ len es = len (presentation_texts Sample.deck).
Proof.
  apply (build_text_map_counts Sample.disk "deck.pptx" Sample.deck). reflexivity.
Defined.

End fields_read.


(** ** The order of the entries, and maps that are not maps *)

Section order.
Import ApplyTextMapToPptx.

Lemma first_leaf_addressed : addresses Sample.deck Sample.retitled_entry.
Proof.
  exists 0%nat, Sample.slide1, [JInt 1], (Sample.text_box [["Hello"]]).
  split_and!; try reflexivity.
  - by apply (resolves_last _ _ 1).
  - left. split; [reflexivity|]. eexists. split; [reflexivity|].
    exists 0%nat, 0%nat. split_and!; try reflexivity. by eexists.
Qed.

(** X18. The last entry wins.  Entries are applied in the order of the
    list: after a run over entries that all carry a valid address and a
    plain string (XML compatible, with no control character for python-pptx
    to escape), the leaf the last entry addresses carries the text of the
    last entry, whatever the entries before it wrote there. *)
Theorem last_entry_wins (d : Presentation) (es : list json) (e : gmap string json)
    (t : string) :
  Forall (entry_addresses d) es →
  addresses d e → e !! "text" = Some (JStr t) → plain t = true → t ≠ "" →
  ∃ mem',
    apply_entries (es ++ [JObj e]) (initial d) = (mem', Ok tt)
    ∧ denotes (doc mem') e.
Proof.
  intros Hes He Ht Hplain Hne.
  destruct (apply_entries_addressed d es (initial d) Hes) as (mem1 & Hrun1 & Hs1 & Hok1);
    [done | apply cache_ok_initial |].
  destruct (apply_entry_addressed e t mem1) as (mem' & Hrun & _ & Hden);
    [by apply (addresses_structure d) | done | done | done |].
  exists mem'. split; [|by apply Hden].
  rewrite apply_entries_app, Hrun1. cbn [apply_entries]. unfold mbind, M_bind.
  by rewrite Hrun.
Qed.

Lemma last_entry_wins_witness :
  ∃ mem',
    apply_entries ([JObj Sample.retitled_entry] ++ [JObj Sample.retitled_again])
      (initial Sample.deck) = (mem', Ok tt)
    ∧ denotes (doc mem') Sample.retitled_again.
Proof.
  apply (last_entry_wins Sample.deck [JObj Sample.retitled_entry] Sample.retitled_again
           "Salut").
  - constructor; [|constructor].
    exists Sample.retitled_entry, "Bonjour".
    split_and!; [reflexivity | apply first_leaf_addressed | reflexivity | reflexivity].
  - apply addresses_with_text, first_leaf_addressed.
  - reflexivity.
  - reflexivity.
  - discriminate.
Defined.

(** X19. A map file that is not a map.  Once the presentation is loaded,
    [apply_text_map] refuses, without writing anything, a JSON document that
    is not an object and an object whose [entries] is missing or is not an
    array, each with the assertion of [load_json]; an object whose [entries]
    is an array is what [load_json] returns, whatever else it holds. *)
Theorem apply_text_map_rejects_bad_map (fs : gmap string file)
    (pptx_path map_path output_path : string) (d : Presentation) (j : json) :
  fs !! pptx_path = Some (PptxFile d) →
  fs !! map_path = Some (JsonFile j) →
  (isinstance_dict j = false →
     apply_text_map fs pptx_path map_path output_path
     = (fs, Raise (AssertionError "Map JSON must be an object")))
  ∧ (∀ m, j = JObj m → isinstance_list (default JNull (m !! "entries")) = false →
       apply_text_map fs pptx_path map_path output_path
       = (fs, Raise (AssertionError "Map JSON missing entries array")))
  ∧ (∀ m es, j = JObj m → m !! "entries" = Some (JList es) →
       load_json fs map_path = Ok m).
Proof.
  intros Hd Hj. unfold apply_text_map, load_presentation, load_json, read_json.
  rewrite Hd, Hj. cbn [mbind result_bind]. split_and!.
  - by destruct j.
  - intros m -> Hes. by rewrite Hes.
  - intros m es -> Hes. by rewrite Hes.
Qed.

Lemma apply_text_map_rejects_bad_map_witness :
  (isinstance_dict (JList []) = false →
     apply_text_map Sample.array_disk "deck.pptx" "deck.fr.json" "deck.fr.pptx"
     = (Sample.array_disk, Raise (AssertionError "Map JSON must be an object")))
  ∧ (∀ m, JList [] = JObj m → isinstance_list (default JNull (m !! "entries")) = false →
       apply_text_map Sample.array_disk "deck.pptx" "deck.fr.json" "deck.fr.pptx"
       = (Sample.array_disk, Raise (AssertionError "Map JSON missing entries array")))
  ∧ (∀ m es, JList [] = JObj m → m !! "entries" = Some (JList es) →
       load_json Sample.array_disk "deck.fr.json" = Ok m).
Proof.
  apply (apply_text_map_rejects_bad_map Sample.array_disk
           "deck.pptx" "deck.fr.json" "deck.fr.pptx" Sample.deck (JList [])).
  - reflexivity.
  - reflexivity.
Defined.

End order.


(** ** The text at every leaf after a projection *)

Section leaves.
Import BuildTextMap ApplyTranslatedTexts ApplyTextMapToPptx.

Lemma shape_at_cons top k rest :
  rest ≠ [] → shape_at top (k :: rest) = top !! k ≫= λ g, shape_at (shapes g) rest.
Proof. by destruct rest. Qed.

Lemma resolves_shape_at top chain s :
  resolves top chain s → shape_at top (positions chain) = Some s.
Proof.
  induction 1 as [cur idx i target Hi Hr Ht
                 |cur idx i group rest target Hi Hr Hg Hgrp Hne Hres IH].
  - unfold positions. simpl. rewrite Hi. cbn [from_option id].
    by rewrite index_to_nat in Ht by lia.
  - unfold positions in *. rewrite fmap_cons, Hi. cbn [from_option id].
    rewrite shape_at_cons by (by destruct rest).
    rewrite index_to_nat in Hg by lia. by rewrite Hg.
Qed.

Lemma shape_at_store top pos old new :
  shape_at top pos = Some old → shape_at (store_shape top pos new) pos = Some new.
Proof.
  revert top. induction pos as [|k rest IH]; intros top Hold; [done|].
  destruct rest as [|k2 rest].
  - cbn [shape_at store_shape] in *. apply list_lookup_insert_eq.
    by eapply lookup_lt_Some.
  - rewrite shape_at_cons in Hold by done.
    rewrite store_shape_cons, shape_at_cons by done.
    destruct (top !! k) as [g|] eqn:Hg; [|done]. cbn [mbind option_bind] in Hold.
    rewrite list_lookup_insert_eq by (by eapply lookup_lt_Some).
    cbn [mbind option_bind]. by apply IH.
Qed.

(** Storing at a position leaves what the shapes at the other positions hold
    themselves, children apart. *)
Lemma shape_at_store_ne {B} (f : Shape → B) top pos old new pos' :
  (∀ g children, f (with_shapes g children) = f g) →
  shape_at top pos = Some old → shapes new = shapes old → pos' ≠ pos →
  f <$> shape_at (store_shape top pos new) pos' = f <$> shape_at top pos'.
Proof.
  intros Hf. revert top pos'. induction pos as [|k rest IH]; intros top pos' Hold Hsh Hne;
    [done|].
  destruct pos' as [|k' rest']; [done|].
  destruct rest as [|k2 rest].
  - cbn [shape_at] in Hold. cbn [store_shape].
    destruct (decide (k' = k)) as [->|Hk].
    + destruct rest' as [|k3 rest']; [done|].
      rewrite !shape_at_cons by done.
      rewrite list_lookup_insert_eq by (by eapply lookup_lt_Some).
      rewrite Hold. cbn [mbind option_bind]. by rewrite Hsh.
    + destruct rest' as [|k3 rest'].
      * cbn [shape_at]. by rewrite list_lookup_insert_ne.
      * rewrite !shape_at_cons by done. by rewrite list_lookup_insert_ne.
  - rewrite shape_at_cons in Hold by done. rewrite store_shape_cons by done.
    destruct (top !! k) as [g|] eqn:Hg; [|done]. cbn [mbind option_bind] in Hold.
    destruct (decide (k' = k)) as [->|Hk].
    + destruct rest' as [|k3 rest'].
      * cbn [shape_at]. rewrite list_lookup_insert_eq by (by eapply lookup_lt_Some).
        rewrite Hg. cbn [fmap option_fmap option_map]. by rewrite Hf.
      * rewrite !shape_at_cons by done.
        rewrite list_lookup_insert_eq by (by eapply lookup_lt_Some).
        rewrite Hg. cbn [mbind option_bind].
        apply (IH (shapes g)); [done|done|congruence].
    + destruct rest' as [|k3 rest'].
      * cbn [shape_at]. by rewrite list_lookup_insert_ne.
      * rewrite !shape_at_cons by done. by rewrite list_lookup_insert_ne.
Qed.

(** The texts of a presentation after a shape is stored at a position. *)
Lemma text_at_store d si slide pos old new l :
  slides d !! si = Some slide →
  shape_at (slide_shapes slide) pos = Some old →
  shapes new = shapes old →
  text_at (store d si pos new) l
  = match l with
    | RunLeaf si' pos' i j =>
        if decide (si' = si ∧ pos' = pos)
        then text_frame new ≫= λ tf, run_text <$> run_at tf i j
        else text_at d l
    | CellLeaf si' pos' r c i j =>
        if decide (si' = si ∧ pos' = pos)
        then table new ≫= λ tbl, rows tbl !! r ≫= λ row, cells row !! c ≫= λ cell,
               run_text <$> run_at (cell_text_frame cell) i j
        else text_at d l
    | NodeLeaf _ _ => text_at d l
    end.
Proof.
  intros Hslide Hold Hsh.
  destruct (store_lookup d si slide pos new Hslide) as [Hslide' Hparts].
  destruct l as [si' pos' i j|si' pos' r c i j|p k].
  - cbn [text_at]. destruct (decide (si' = si)) as [->|Hsi].
    + rewrite Hslide', Hslide. cbn [mbind option_bind slide_shapes].
      destruct (decide (pos' = pos)) as [->|Hpos].
      * rewrite decide_True by done. by rewrite (shape_at_store _ _ old).
      * rewrite decide_False by (by intros [_ ?]).
        pose proof (shape_at_store_ne text_frame (slide_shapes slide) pos old new pos'
                      (λ _ _, eq_refl) Hold Hsh Hpos) as H.
        destruct (shape_at (store_shape _ _ _) pos') as [s1|],
                 (shape_at (slide_shapes slide) pos') as [s2|]; simplify_eq/=; try done.
        by rewrite H.
    + rewrite decide_False by (by intros [? _]). by rewrite store_other_slides.
  - cbn [text_at]. destruct (decide (si' = si)) as [->|Hsi].
    + rewrite Hslide', Hslide. cbn [mbind option_bind slide_shapes].
      destruct (decide (pos' = pos)) as [->|Hpos].
      * rewrite decide_True by done. by rewrite (shape_at_store _ _ old).
      * rewrite decide_False by (by intros [_ ?]).
        pose proof (shape_at_store_ne table (slide_shapes slide) pos old new pos'
                      (λ _ _, eq_refl) Hold Hsh Hpos) as H.
        destruct (shape_at (store_shape _ _ _) pos') as [s1|],
                 (shape_at (slide_shapes slide) pos') as [s2|]; simplify_eq/=; try done.
        by rewrite H.
    + rewrite decide_False by (by intros [? _]). by rewrite store_other_slides.
  - cbn [text_at]. unfold part_nodes. by rewrite Hparts.
Qed.

Lemma set_run_text_text_at tf pi ri text tf' :
  set_run_text tf pi ri text = (tf', Ok tt) →
  ∃ i j t,
    as_int pi = Some (Z.of_nat i + 1) ∧ as_int ri = Some (Z.of_nat j + 1)
    ∧ text = JStr t
    ∧ ∀ i' j', run_text <$> run_at tf' i' j'
               = if decide (i' = i ∧ j' = j) then Some (escape_ctrl_chars t)
                 else run_text <$> run_at tf i' j'.
Proof.
  intros (i & j & p & t & Hpi & Hri & -> & _ & Hp & Hj & ->)%set_run_text_Ok.
  exists i, j, t. split_and!; try done. intros i' j'.
  rewrite run_at_insert by done. by case_decide.
Qed.

Lemma position_of_Some (e : gmap string json) key v n :
  e !! key = Some v → as_int v = Some (Z.of_nat n + 1) → position_of e key = Some n.
Proof.
  intros He Hv. unfold position_of. rewrite He. cbn [mbind option_bind].
  rewrite Hv. cbn [mbind option_bind]. f_equal. lia.
Qed.

Lemma cell_text_insert (F : Cell → option string) (rs : list Row) r c row new r' c' :
  rs !! r = Some row → (c < length (cells row))%nat →
  (<[r := {| cells := <[c := new]> (cells row) |}]> rs !! r'
     ≫= λ row', cells row' !! c' ≫= F)
  = if decide (r' = r ∧ c' = c) then F new
    else rs !! r' ≫= λ row', cells row' !! c' ≫= F.
Proof.
  intros Hrow Hc. pose proof (lookup_lt_Some _ _ _ Hrow) as Hr.
  destruct (decide (r' = r)) as [->|Hr'].
  - rewrite list_lookup_insert_eq by done. rewrite Hrow. cbn [mbind option_bind cells].
    destruct (decide (c' = c)) as [->|Hc'].
    + rewrite list_lookup_insert_eq by done. by rewrite decide_True.
    + rewrite list_lookup_insert_ne by done. by rewrite decide_False by (by intros [_ ?]).
  - rewrite list_lookup_insert_ne by done. by rewrite decide_False by (by intros [? _]).
Qed.

Lemma fresh_refs_index d key z node :
  index (fresh_refs d key) z = Some node →
  node = (key, Z.to_nat z) ∧ (Z.to_nat z < length (part_nodes d key))%nat ∧ 0 ≤ z.
Proof.
  unfold index, fresh_refs. case_decide; [|done]. rewrite list_lookup_fmap.
  destruct (seq 0 (length (part_nodes d key)) !! Z.to_nat z) as [i|] eqn:Hi; [|done].
  apply lookup_seq in Hi as [-> Hlt]. by intros [= <-].
Qed.

Lemma apply_chart_entry_Ok shape (e : gmap string json) mem mem' :
  cache_ok mem → apply_chart_entry shape e mem = (mem', Ok tt) →
  ∃ p ci k n,
    chart shape = Some p
    ∧ e !! "chart_partname" = Some (JStr p)
    ∧ e !! "chart_text_index" = Some ci ∧ as_int ci = Some (Z.of_nat k + 1)
    ∧ part_nodes (doc mem) p !! k = Some n
    ∧ doc mem'
      = {| slides := slides (doc mem);
           chart_parts :=
             <[p := <[k := {| node_xpath := node_xpath n;
                              node_text := entry_text (JObj e) |}]>
                      (part_nodes (doc mem) p)]> (chart_parts (doc mem)) |}
    ∧ cache_ok mem'.
Proof.
  intros Hok. unfold apply_chart_entry. destruct (chart shape) as [p|]; [|done].
  unfold mbind, M_bind, lift, getitem. cbv beta iota.
  destruct (e !! "chart_partname") as [[| | |pn| |]|]; try done.
  unfold assert at 1. case_bool_decide as Hpn; [|done]. subst pn.
  destruct (get_chart_nodes_ok p mem Hok) as (mem1 & -> & Hdoc & Hok1).
  destruct (e !! "chart_text_index") as [ci|]; [|done].
  destruct (as_int ci) as [kz|] eqn:Hci; [|done].
  destruct (assert _ _); [|done]. destruct (assert _ _); [|done].
  destruct (e !! "text") as [t|] eqn:Ht; [|done].
  destruct (index (fresh_refs (doc mem) p) (kz - 1)) as [node|] eqn:Hnode; [|done].
  apply fresh_refs_index in Hnode as (-> & Hlt & Hkz).
  destruct (lookup_lt_is_Some_2 _ _ Hlt) as [n Hn].
  intros Hrun. exists p, ci, (Z.to_nat (kz - 1)), n.
  assert (Hk : as_int ci = Some (Z.of_nat (Z.to_nat (kz - 1)) + 1)) by (rewrite Hci; f_equal; lia).
  pose proof (set_node_text_structure (p, Z.to_nat (kz - 1)) t mem1) as Hs.
  rewrite Hrun in Hs. cbn [fst] in Hs.
  unfold set_node_text, set_doc in Hrun. rewrite Hdoc, Hn in Hrun.
  destruct (set_element_text t) as [t' o] eqn:Hel. cbn [fst] in Hrun.
  injection Hrun as <- ->.
  assert (Ht' : t' = entry_text (JObj e)).
  { unfold entry_text. cbn [text_field]. rewrite Ht. unfold set_element_text in Hel.
    destruct t as [| | |s| |]; try done; [by injection Hel as <-|].
    destruct (is_valid_xml_utf8 s); [by injection Hel as <-|done]. }
  subst t'. split_and!; try done.
  apply (cache_ok_structure mem1); [done|reflexivity|exact Hs].
Qed.

(** One entry, applied: the leaf it addresses takes its text, as the
    assignment stores it, and every other leaf keeps the text it had. *)
Lemma apply_entry_text_at (e : gmap string json) mem mem' :
  cache_ok mem → apply_entry e mem = (mem', Ok tt) →
  cache_ok mem'
  ∧ ∃ l, leaf_of e = Some l
         ∧ ∀ l', text_at (doc mem') l'
                 = if decide (l' = l) then stored_text l (JObj e) else text_at (doc mem) l'.
Proof.
  intros Hok Hrun.
  pose proof (apply_entry_structure e mem) as Hs. rewrite Hrun in Hs. cbn [fst] in Hs.
  apply apply_entry_Ok in Hrun
    as (si & v & slide & chain & shape & c & Hv & Hsi & Hslide & Hchain & Hshape & Hc & Hcase).
  apply resolve_shape_iff in Hshape. pose proof (resolves_shape_at _ _ _ Hshape) as Hat.
  pose proof (position_of_Some _ _ _ _ Hv Hsi) as Hpsi.
  destruct Hcase as [[-> (shape' & Happ & ->)]|[[-> (shape' & Happ & ->)]|[-> Hchart]]].
  - apply apply_text_frame_entry_Ok in Happ
      as (tf & pi & ri & text & tf' & Htf & Hpi & Hri & Ht & Hset & ->).
    apply set_run_text_text_at in Hset as (i & j & t & Hi & Hj & -> & Hruns).
    split; [by apply (cache_ok_structure mem)|].
    exists (RunLeaf si (positions chain) i j). split.
    { unfold leaf_of. rewrite Hc, Hchain. cbv zeta. rewrite decide_True by done.
      by rewrite Hpsi, (position_of_Some _ _ _ _ Hpi Hi), (position_of_Some _ _ _ _ Hri Hj). }
    assert (Htext : stored_text (RunLeaf si (positions chain) i j) (JObj e)
                    = Some (escape_ctrl_chars t))
      by (unfold stored_text, entry_text; cbn [text_field]; by rewrite Ht).
    intros l'. cbn [set_doc fst doc].
    rewrite (text_at_store _ _ slide _ shape) by done.
    destruct l' as [si' pos' i' j'|si' pos' r' c' i' j'|p' k'].
    + destruct (decide (si' = si ∧ pos' = positions chain)) as [[-> ->]|Hne].
      * cbn [with_text_frame text_frame mbind option_bind]. rewrite Hruns.
        destruct (decide (i' = i ∧ j' = j)) as [[-> ->]|Hij].
        -- by rewrite decide_True.
        -- rewrite decide_False by (intros [= -> ->]; by apply Hij).
           cbn [text_at]. rewrite Hslide. cbn [mbind option_bind]. rewrite Hat.
           cbn [mbind option_bind]. by rewrite Htf.
      * by rewrite decide_False by (intros [= -> -> _ _]; by apply Hne).
    + rewrite (decide_False (P := CellLeaf _ _ _ _ _ _ = _)) by done.
      destruct (decide (si' = si ∧ pos' = positions chain)) as [[-> ->]|Hne]; [|done].
      cbn [with_text_frame table text_at]. rewrite Hslide. cbn [mbind option_bind].
      by rewrite Hat.
    + by rewrite decide_False.
  - apply apply_table_cell_entry_Ok in Happ
      as (tbl & r & c & row & cell & vr & vc & pi & ri & text & tf' & Htbl & Hvr & Hr
          & Hvc & Hcc & Hrow & Hcell & Hcol & Hpi & Hri & Ht & Hset & ->).
    apply set_run_text_text_at in Hset as (i & j & t & Hi & Hj & -> & Hruns).
    split; [by apply (cache_ok_structure mem)|].
    exists (CellLeaf si (positions chain) r c i j). split.
    { unfold leaf_of. rewrite Hc, Hchain. cbv zeta. rewrite decide_False by done.
      rewrite decide_True by done.
      by rewrite Hpsi, (position_of_Some _ _ _ _ Hvr Hr), (position_of_Some _ _ _ _ Hvc Hcc),
        (position_of_Some _ _ _ _ Hpi Hi), (position_of_Some _ _ _ _ Hri Hj). }
    assert (Htext : stored_text (CellLeaf si (positions chain) r c i j) (JObj e)
                    = Some (escape_ctrl_chars t))
      by (unfold stored_text, entry_text; cbn [text_field]; by rewrite Ht).
    intros l'. cbn [set_doc fst doc].
    rewrite (text_at_store _ _ slide _ shape) by done.
    destruct l' as [si' pos' i' j'|si' pos' r' c' i' j'|p' k'].
    + rewrite (decide_False (P := RunLeaf _ _ _ _ = _)) by done.
      destruct (decide (si' = si ∧ pos' = positions chain)) as [[-> ->]|Hne]; [|done].
      cbn [with_table text_frame text_at]. rewrite Hslide. cbn [mbind option_bind].
      by rewrite Hat.
    + destruct (decide (si' = si ∧ pos' = positions chain)) as [[-> ->]|Hne].
      * cbn [with_table table mbind option_bind rows].
        rewrite (cell_text_insert _ _ _ _ row) by (done || by eapply lookup_lt_Some).
        destruct (decide (r' = r ∧ c' = c)) as [[-> ->]|Hrc].
        -- cbn [cell_text_frame]. rewrite Hruns.
           destruct (decide (i' = i ∧ j' = j)) as [[-> ->]|Hij].
           ++ by rewrite decide_True.
           ++ rewrite decide_False by (intros [= -> ->]; by apply Hij).
              cbn [text_at]. rewrite Hslide. cbn [mbind option_bind]. rewrite Hat.
              cbn [mbind option_bind]. rewrite Htbl. cbn [mbind option_bind].
              rewrite Hrow. cbn [mbind option_bind]. by rewrite Hcell.
        -- rewrite decide_False by (intros [= -> -> _ _]; by apply Hrc).
           cbn [text_at]. rewrite Hslide. cbn [mbind option_bind]. rewrite Hat.
           cbn [mbind option_bind]. by rewrite Htbl.
      * by rewrite decide_False by (intros [= -> -> _ _ _ _]; by apply Hne).
    + by rewrite decide_False.
  - destruct (apply_chart_entry_Ok _ _ _ _ Hok Hchart)
      as (p & ci & k & n & Hp & Hpn & Hci & Hk & Hn & Hdoc' & Hok').
    split; [done|].
    exists (NodeLeaf p k). split.
    { unfold leaf_of. rewrite Hc, Hchain. cbv zeta. rewrite !decide_False by done.
      rewrite decide_True by done. by rewrite Hpn, (position_of_Some _ _ _ _ Hci Hk). }
    intros l'. rewrite Hdoc'.
    destruct l' as [si' pos' i' j'|si' pos' r' c' i' j'|p' k'];
      [by rewrite decide_False..|].
    cbn [text_at]. unfold part_nodes at 1. cbn [chart_parts].
    destruct (decide (p' = p)) as [->|Hp'].
    + rewrite lookup_insert_eq. cbn [from_option id].
      destruct (decide (k' = k)) as [->|Hk'].
      * rewrite list_lookup_insert_eq by (by eapply lookup_lt_Some).
        by rewrite decide_True.
      * rewrite list_lookup_insert_ne by done.
        by rewrite decide_False by (intros [= ->]; by apply Hk').
    + rewrite lookup_insert_ne by done.
      by rewrite decide_False by (intros [= -> _]; by apply Hp').
Qed.

Lemma apply_entries_text_at es mem mem' :
  cache_ok mem → apply_entries es mem = (mem', Ok tt) →
  ∀ l, text_at (doc mem') l = default (text_at (doc mem) l) (last_stored es l).
Proof.
  revert mem. induction es as [|e es IH]; intros mem Hok Hrun l.
  - by injection Hrun as <-.
  - cbn [apply_entries] in Hrun. destruct e as [| | | | |m]; try done.
    unfold mbind, M_bind in Hrun.
    destruct (apply_entry m mem) as [mem1 [[]|err]] eqn:Hm; [|done].
    destruct (apply_entry_text_at m mem mem1 Hok Hm) as (Hok1 & l0 & Hl0 & Hstep).
    rewrite (IH mem1 Hok1 Hrun l), Hstep. unfold last_stored.
    rewrite filter_cons. cbn [entry_leaf]. rewrite Hl0.
    destruct (decide (l = l0)) as [->|Hne].
    + rewrite decide_True by done. rewrite last_cons.
      by destruct (last (filter _ es)).
    + by rewrite decide_False by (intros [= ->]; by apply Hne).
Qed.

(** X20. What a projection leaves at every leaf.  When [apply_text_map]
    returns, the presentation it has written holds, at every leaf, what the
    last entry of the map that addresses the leaf has stored there, and,
    where no entry does, the text the leaf had in the presentation read.
    What an entry stores is its text as the assignment takes it: in a run the
    string with every control character but tab and line feed escaped (a
    carriage return reads [_x000D_] afterwards), in a chart text node the
    string as it is, or no text for [null]. *)
Theorem apply_text_map_texts (fs : gmap string file)
    (pptx_path map_path output_path : string) :
  (apply_text_map fs pptx_path map_path output_path).2 = Ok tt →
  ∃ d tm es d',
    fs !! pptx_path = Some (PptxFile d)
    ∧ load_json fs map_path = Ok tm
    ∧ tm !! "entries" = Some (JList es)
    ∧ (apply_text_map fs pptx_path map_path output_path).1
      = <[output_path := PptxFile d']> fs
    ∧ ∀ l, text_at d' l = default (text_at d l) (last_stored es l).
Proof.
  unfold apply_text_map, load_presentation.
  destruct (fs !! pptx_path) as [[d| |]|] eqn:Hd; try done.
  destruct (load_json fs map_path) as [tm|] eqn:Htm; [|done].
  destruct (load_json_entries _ _ _ Htm) as [es Hes].
  change {| doc := d; chart_cache := ∅; xpath_calls := [] |} with (initial d).
  destruct (apply_loaded_cases tm es (initial d) Hes) as [Hrun|[msg Hrun]]; rewrite Hrun;
    [|done].
  destruct (apply_entries es (initial d)) as [mem' [[]|err]] eqn:Hloop; [|done].
  unfold write_file. destruct (is_dir fs output_path); [done|].
  intros _. exists d, tm, es, (doc mem'). split_and!; try done.
  apply (apply_entries_text_at es (initial d) mem' (cache_ok_initial d) Hloop).
Qed.

Lemma apply_text_map_texts_witness :
  ∃ d tm es d',
    Sample.translated_disk !! "deck.pptx" = Some (PptxFile d)
    ∧ load_json Sample.translated_disk "deck.fr.json" = Ok tm
    ∧ tm !! "entries" = Some (JList es)
    ∧ (apply_text_map Sample.translated_disk "deck.pptx" "deck.fr.json" "deck.fr.pptx").1
      = <["deck.fr.pptx" := PptxFile d']> Sample.translated_disk
    ∧ ∀ l, text_at d' l = default (text_at d l) (last_stored es l).
Proof.
  apply (apply_text_map_texts Sample.translated_disk
           "deck.pptx" "deck.fr.json" "deck.fr.pptx").
  vm_compute. reflexivity.
Defined.

Lemma denotes_text_at d (e : gmap string json) :
  denotes d e →
  ∃ l t, leaf_of e = Some l ∧ entry_text (JObj e) = Some t ∧ text_at d l = Some t ∧ t ≠ "".
Proof.
  intros (si & slide & chain & shape & Hsi & Hslide & Hchain & Hres & Hcases).
  pose proof (resolves_shape_at _ _ _ Hres) as Hat.
  pose proof (position_of_Some e "slide_index" _ si Hsi eq_refl) as Hpsi.
  assert (Hrun : ∀ tf, leaf_at tf e →
            ∃ i j t, position_of e "paragraph_index" = Some i
                     ∧ position_of e "run_index" = Some j
                     ∧ entry_text (JObj e) = Some t
                     ∧ run_text <$> run_at tf i j = Some t ∧ t ≠ "").
  { intros tf (i & j & p & r & Hpi & Hri & Hp & Hr & Ht & Hne).
    exists i, j, (run_text r). split_and!; try done.
    - by apply (position_of_Some _ _ (JInt (Z.of_nat i + 1))).
    - by apply (position_of_Some _ _ (JInt (Z.of_nat j + 1))).
    - unfold entry_text. cbn [text_field]. by rewrite Ht.
    - unfold run_at. rewrite Hp. cbn [mbind option_bind]. by rewrite Hr. }
  destruct Hcases as [[Hc (tf & Htf & Hl)]
                     |[[Hc (tbl & r & c & row & cell & Htbl & Her & Hec & Hrow & Hcell
                            & Hcol & Hl)]
                      |[Hc (p & k & node & t & Hchart & Hpn & Hidx & Hk & Hnt & Ht & Hne)]]].
  - destruct (Hrun tf Hl) as (i & j & t & Hi & Hj & Ht & Hrt & Hne).
    exists (RunLeaf si (positions chain) i j), t. split_and!; try done.
    + unfold leaf_of. rewrite Hc, Hchain. cbv zeta. rewrite decide_True by done.
      by rewrite Hpsi, Hi, Hj.
    + cbn [text_at]. rewrite Hslide. cbn [mbind option_bind]. rewrite Hat.
      cbn [mbind option_bind]. by rewrite Htf.
  - destruct (Hrun _ Hl) as (i & j & t & Hi & Hj & Ht & Hrt & Hne).
    exists (CellLeaf si (positions chain) r c i j), t. split_and!; try done.
    + unfold leaf_of. rewrite Hc, Hchain. cbv zeta. rewrite decide_False by done.
      rewrite decide_True by done.
      by rewrite Hpsi, (position_of_Some _ _ _ r Her eq_refl),
        (position_of_Some _ _ _ c Hec eq_refl), Hi, Hj.
    + cbn [text_at]. rewrite Hslide. cbn [mbind option_bind]. rewrite Hat.
      cbn [mbind option_bind]. rewrite Htbl. cbn [mbind option_bind].
      rewrite Hrow. cbn [mbind option_bind]. by rewrite Hcell.
  - exists (NodeLeaf p k), t. split_and!; try done.
    + unfold leaf_of. rewrite Hc, Hchain. cbv zeta. rewrite !decide_False by done.
      rewrite decide_True by done.
      by rewrite Hpn, (position_of_Some _ _ _ k Hidx eq_refl).
    + unfold entry_text. cbn [text_field]. by rewrite Ht.
    + cbn [text_at]. rewrite Hk. done.
Qed.

(** X21. Every entry of an extracted map points at its text.  For a
    well-formed presentation, every entry extraction emits addresses a leaf
    of the presentation, and the text at that leaf is the [text] of the
    entry, a non-empty string. *)
Theorem extracted_entries_point_at_their_text (d : Presentation) :
  wf_presentation d = true →
  Forall (λ e, ∃ l t, entry_leaf e = Some l ∧ entry_text e = Some t
                      ∧ text_at d l = Some t ∧ t ≠ "")
         (entries (collect d)).
Proof.
  intros Hwf. eapply Forall_impl; [by apply collect_denotes|].
  intros e (m & -> & Hm). by apply denotes_text_at.
Qed.

Lemma extracted_entries_point_at_their_text_witness :
  Forall (λ e, ∃ l t, entry_leaf e = Some l ∧ entry_text e = Some t
                      ∧ text_at Sample.deck l = Some t ∧ t ≠ "")
         (entries (collect Sample.deck)).
Proof.
  apply (extracted_entries_point_at_their_text Sample.deck). reflexivity.
Defined.





(** On the sample deck: the run of the first slide and the first text node
    of the chart after the translation is projected. *)
Example deck_translated_leaves :
  ∃ d', (apply_text_map Sample.translated_disk "deck.pptx" "deck.fr.json" "deck.fr.pptx").1
          !! "deck.fr.pptx" = Some (PptxFile d')
        ∧ text_at d' (RunLeaf 0 [0%nat] 0 0) = Some "Bonjour"
        ∧ text_at d' (CellLeaf 1 [0%nat] 0 0 0 0) = Some "Monde"
        ∧ text_at d' (NodeLeaf "/ppt/charts/chart1.xml" 0) = Some "Ventes"
        ∧ text_at d' (NodeLeaf "/ppt/charts/chart1.xml" 1) = None
        ∧ text_at d' (RunLeaf 1 [2%nat; 0%nat] 0 0) = Some "".
Proof. eexists. split; [vm_compute; reflexivity|]. split_and!; reflexivity. Qed.






End leaves.
